(** * The Critic extension (extensions/critic/index.ts)

    A shallow embedding of the shadow-reviewer engine: the context curator
    [formatRecentContext], the verdict parser that ends [runCritic] and
    [runCriticSync], the two process runners, the loop governor and feedback
    router of [triggerCritic], and the event handlers registered by
    [criticExtension].

    JavaScript strings are sequences of UTF-16 code units, regular
    expressions are run by a small backtracking matcher, [try]/[catch] is an
    explicit outcome type, and the asynchronous parts of [triggerCritic] are
    suspended tasks of a session machine. *)

From Stdlib Require Import List String Ascii NArith ZArith Bool Lia.
From Stdlib Require Import DecimalString.
From Stdlib Require QArith.
Import ListNotations.

Set Implicit Arguments.

(** ** JavaScript strings *)

Module JS.

Definition codeunit := N.
Definition jsstring := list codeunit.

(** A string literal of the source (ASCII only) as code units. *)
Definition lit (s : string) : jsstring := map N_of_ascii (list_ascii_of_string s).
Arguments lit s : simpl never.

(** [String(n)] for an integer [n]. *)
Definition ofZ (n : Z) : jsstring := lit (NilZero.string_of_int (Z.to_int n)).

(** Truthiness of a string: [!!s]. *)
Definition truthy (s : jsstring) : bool :=
  match s with [] => false | _ :: _ => true end.

(** Truthiness of an optional string field ([undefined] is falsy). *)
Definition truthyOpt (o : option jsstring) : bool :=
  match o with Some s => truthy s | None => false end.

Definition eqb (a b : jsstring) : bool :=
  if list_eq_dec N.eq_dec a b then true else false.

Definition eqbOpt (o : option jsstring) (b : jsstring) : bool :=
  match o with Some a => eqb a b | None => false end.

(** ECMAScript WhiteSpace and LineTerminator code units: the class [\s] of
    regular expressions and the characters removed by [trim]. *)
Definition isWhiteSpace (c : codeunit) : bool :=
  (((9 <=? c) && (c <=? 13)) || (c =? 32) || (c =? 160) || (c =? 5760)
   || ((8192 <=? c) && (c <=? 8202)) || (c =? 8232) || (c =? 8233)
   || (c =? 8239) || (c =? 8287) || (c =? 12288) || (c =? 65279))%N.

Fixpoint dropWhile (p : codeunit -> bool) (s : jsstring) : jsstring :=
  match s with
  | c :: s' => if p c then dropWhile p s' else s
  | [] => []
  end.

Definition trimStart (s : jsstring) : jsstring := dropWhile isWhiteSpace s.
Definition trimEnd (s : jsstring) : jsstring := rev (dropWhile isWhiteSpace (rev s)).
Definition trim (s : jsstring) : jsstring := trimEnd (trimStart s).

(** [s.startsWith(p)] *)
Fixpoint startsWith (s p : jsstring) {struct p} : bool :=
  match p with
  | [] => true
  | x :: p' =>
      match s with
      | y :: s' => (x =? y)%N && startsWith s' p'
      | [] => false
      end
  end.

(** [parts.join(sep)] *)
Fixpoint join (sep : jsstring) (parts : list jsstring) : jsstring :=
  match parts with
  | [] => []
  | [p] => p
  | p :: rest => p ++ sep ++ join sep rest
  end.

(** [s.split(sep)] for a one-unit separator; the result is never empty. *)
Fixpoint split (sep : codeunit) (s : jsstring) : list jsstring :=
  match s with
  | [] => [[]]
  | c :: s' =>
      if (c =? sep)%N then [] :: split sep s'
      else match split sep s' with
           | first :: rest => (c :: first) :: rest
           | [] => [[c]]
           end
  end.

(** ASCII upper-casing of one code unit.  [String.prototype.toUpperCase]
    agrees with it on code units below 128; the Unicode tables for the other
    code units are not part of the model, and the extension applies
    [toUpperCase] only to text matched by an ASCII alternation. *)
Definition upperUnit (c : codeunit) : codeunit :=
  if ((97 <=? c) && (c <=? 122))%N then (c - 32)%N else c.

Definition toUpperCase (s : jsstring) : jsstring := map upperUnit s.

(** Comparison of a pattern character with an input code unit under the
    [i] flag (no [u] flag).  ECMAScript's Canonicalize never maps a code unit
    at or above 128 to one below 128, so against ASCII patterns it is the
    comparison of ASCII upper-cased units. *)
Definition ciEqUnit (p c : codeunit) : bool := (upperUnit p =? upperUnit c)%N.

End JS.

Import JS.

(** ** Regular expressions

    The two regular expressions of the verdict parser use literals, a greedy
    star over a character class and one capturing group of literal
    alternatives.  [matchAt] is the backtracking matcher of ECMAScript on
    that fragment: a star first takes as many code units as it can and gives
    them back one at a time while the rest of the pattern fails. *)

Module Regex.

Inductive charclass :=
| ClsSpace   (* \s *)
| ClsAny.    (* [\s\S] *)

Inductive atom :=
| Lit (s : jsstring)             (* literal text, compared under the i flag *)
| Star (cls : charclass)         (* cls* , greedy *)
| Group (alts : list jsstring).  (* ( a | b | ... ), capturing *)

Definition regex := list atom.

Definition inClass (cls : charclass) (c : codeunit) : bool :=
  match cls with
  | ClsSpace => isWhiteSpace c
  | ClsAny => true
  end.

(** Match the literal [p] at the head of [s]; the matched text and the rest. *)
Fixpoint litPrefix (p s : jsstring) : option (jsstring * jsstring) :=
  match p with
  | [] => Some ([], s)
  | x :: p' =>
      match s with
      | y :: s' =>
          if ciEqUnit x y then
            match litPrefix p' s' with
            | Some (m, rest) => Some (y :: m, rest)
            | None => None
            end
          else None
      | [] => None
      end
  end.

Section Backtracking.
Variable R : Type.

Fixpoint star (p : codeunit -> bool) (k : jsstring -> option R) (s : jsstring) : option R :=
  match s with
  | c :: s' =>
      if p c then
        match star p k s' with
        | Some r => Some r
        | None => k s
        end
      else k s
  | [] => k []
  end.

Fixpoint alternatives (alts : list jsstring) (k : jsstring -> jsstring -> option R)
  (s : jsstring) : option R :=
  match alts with
  | [] => None
  | a :: alts' =>
      match litPrefix a s with
      | Some (m, rest) =>
          match k m rest with
          | Some r => Some r
          | None => alternatives alts' k s
          end
      | None => alternatives alts' k s
      end
  end.

End Backtracking.

(** [matchAt re cap s]: match [re] at the head of [s]; the capture of the
    group ([cap] when the group was not reached) and the unmatched rest. *)
Fixpoint matchAt (re : regex) (cap : option jsstring) (s : jsstring)
  : option (option jsstring * jsstring) :=
  match re with
  | [] => Some (cap, s)
  | Lit l :: re' =>
      match litPrefix l s with
      | Some (_, rest) => matchAt re' cap rest
      | None => None
      end
  | Star cls :: re' => star (inClass cls) (matchAt re' cap) s
  | Group alts :: re' => alternatives alts (fun m rest => matchAt re' (Some m) rest) s
  end.

(** The result of [RegExp.prototype.exec] without the [g] flag. *)
Record MatchResult := {
  before : jsstring;            (* input before the match: input.slice(0, index) *)
  capture : option jsstring;    (* match[1] *)
  after : jsstring              (* input after the match *)
}.

(** Try the start positions from left to right. [pre] holds, reversed, the
    code units already skipped. *)
Fixpoint execFrom (re : regex) (pre : jsstring) (s : jsstring) : option MatchResult :=
  match matchAt re None s with
  | Some (cap, rest) => Some {| before := rev pre; capture := cap; after := rest |}
  | None =>
      match s with
      | [] => None
      | c :: s' => execFrom re (c :: pre) s'
      end
  end.

(** [s.match(re)] *)
Definition exec (re : regex) (s : jsstring) : option MatchResult := execFrom re [] s.

(** [s.replace(re, "")]: the first match is cut out. *)
Definition removeFirst (re : regex) (s : jsstring) : jsstring :=
  match exec re s with
  | Some m => before m ++ after m
  | None => s
  end.

End Regex.

Import Regex.

(** ** Verdict parser (runCritic lines 632-647, runCriticSync lines 399-410) *)

(** [/<critic_verdict>\s*status:\s*(APPROVED|NEEDS_WORK|BLOCKED)\s*<\/critic_verdict>/i] *)
Definition verdictRe : regex :=
  [ Lit (lit "<critic_verdict>"); Star ClsSpace; Lit (lit "status:"); Star ClsSpace;
    Group [lit "APPROVED"; lit "NEEDS_WORK"; lit "BLOCKED"]; Star ClsSpace;
    Lit (lit "</critic_verdict>") ].

(** [/<critic_verdict>[\s\S]*<\/critic_verdict>/i] *)
Definition verdictBlockRe : regex :=
  [ Lit (lit "<critic_verdict>"); Star ClsAny; Lit (lit "</critic_verdict>") ].

Record Verdict := {
  v_status : jsstring;
  v_approved : bool;
  v_critique : jsstring;
  v_hasVerdictBlock : bool
}.

(** The code both runners end with: look for the verdict block; when it is
    there, the status is the upper-cased keyword and the block is cut out of
    the critique, which is then trimmed; otherwise the status is
    ["NEEDS_WORK"] and the critique is kept as it is. *)
Definition parseVerdict (critique : jsstring) : Verdict :=
  match exec verdictRe critique with
  | Some verdictMatch =>
      let status := toUpperCase (match capture verdictMatch with Some g => g | None => [] end) in
      {| v_status := status;
         v_approved := JS.eqb status (lit "APPROVED");
         v_critique := trim (removeFirst verdictBlockRe critique);
         v_hasVerdictBlock := true |}
  | None =>
      {| v_status := lit "NEEDS_WORK";
         v_approved := false;
         v_critique := critique;
         v_hasVerdictBlock := false |}
  end.

Definition nl : jsstring := [10%N].

(** ** Data model *)

(** JavaScript numbers that are not counters (token counts, cost). *)
Definition number := QArith_base.Q.
Definition zero : number := QArith_base.Qmake 0 1.

(** [x || 0] on an optional number. *)
Definition orZero (x : option number) : number :=
  match x with Some q => q | None => zero end.

(** The result of a call that may throw. *)
Inductive Outcome (A : Type) :=
| Returned (a : A)
| Threw (message : jsstring).
Arguments Returned {A} a.
Arguments Threw {A} message.

Record Usage := { input : number; output : number; cost : number }.

Record CriticResult := {
  critique : jsstring;
  approved : bool;
  status : option jsstring;
  model : option jsstring;
  usage : option Usage;
  error : option jsstring;
  timedOut : option bool;
  durationMs : option Z
}.

Definition setCritique (s : jsstring) (r : CriticResult) : CriticResult :=
  {| critique := s; approved := approved r; status := status r; model := model r;
     usage := usage r; error := error r; timedOut := timedOut r; durationMs := durationMs r |}.
Definition setApproved (b : bool) (r : CriticResult) : CriticResult :=
  {| critique := critique r; approved := b; status := status r; model := model r;
     usage := usage r; error := error r; timedOut := timedOut r; durationMs := durationMs r |}.
Definition setStatus (s : jsstring) (r : CriticResult) : CriticResult :=
  {| critique := critique r; approved := approved r; status := Some s; model := model r;
     usage := usage r; error := error r; timedOut := timedOut r; durationMs := durationMs r |}.
Definition setModel (m : jsstring) (r : CriticResult) : CriticResult :=
  {| critique := critique r; approved := approved r; status := status r; model := Some m;
     usage := usage r; error := error r; timedOut := timedOut r; durationMs := durationMs r |}.
Definition setUsage (u : Usage) (r : CriticResult) : CriticResult :=
  {| critique := critique r; approved := approved r; status := status r; model := model r;
     usage := Some u; error := error r; timedOut := timedOut r; durationMs := durationMs r |}.
Definition setError (e : option jsstring) (r : CriticResult) : CriticResult :=
  {| critique := critique r; approved := approved r; status := status r; model := model r;
     usage := usage r; error := e; timedOut := timedOut r; durationMs := durationMs r |}.
Definition setTimedOut (b : bool) (r : CriticResult) : CriticResult :=
  {| critique := critique r; approved := approved r; status := status r; model := model r;
     usage := usage r; error := error r; timedOut := Some b; durationMs := durationMs r |}.
Definition setDurationMs (d : Z) (r : CriticResult) : CriticResult :=
  {| critique := critique r; approved := approved r; status := status r; model := model r;
     usage := usage r; error := error r; timedOut := timedOut r; durationMs := Some d |}.

(** [const result: CriticResult = { critique: "", approved: false }] *)
Definition emptyResult : CriticResult :=
  {| critique := []; approved := false; status := None; model := None;
     usage := None; error := None; timedOut := None; durationMs := None |}.

(** [hasError: !!result.error] *)
Definition hasError (r : CriticResult) : bool := truthyOpt (error r).

(** Content blocks of a message. A tool call carries the text
    [JSON.stringify(tc.arguments)] of its arguments. *)
Inductive ContentBlock :=
| TextContent (text : jsstring)
| ThinkingContent (thinking : jsstring)
| ToolCall (name : jsstring) (argumentsJson : jsstring)
| OtherContent.

Definition isText (c : ContentBlock) : bool :=
  match c with TextContent _ => true | _ => false end.

Definition textOf (c : ContentBlock) : jsstring :=
  match c with TextContent t => t | _ => [] end.

(** [content.filter(c => c.type === "text").map(c => c.text).join("\n")] *)
Definition joinText (content : list ContentBlock) : jsstring :=
  join nl (map textOf (filter isText content)).

(** ** Output of the reviewer subprocess

    One line of the subprocess is a JSON record.  The records the runners
    look at are [message_end], with an optional message, and [error], with an
    optional message text; [content] is absent when the record has no
    [content] array.  A line may also hold the JSON value [null], the one
    value on which reading [event.type] throws a [TypeError]. *)

Record RawUsage := {
  rawInput : option number;
  rawOutput : option number;
  rawCostTotal : option number
}.

Record Message := {
  role : jsstring;
  content : option (list ContentBlock);
  msgUsage : option RawUsage;
  msgModel : option jsstring
}.

Inductive JsonEvent :=
| MessageEnd (message : option Message)
| ErrorEvent (message : option jsstring)
| OtherEvent
| NullValue.

Definition isAssistant (m : Message) : bool := JS.eqb (role m) (lit "assistant").

(** [{ input: usage.input || 0, output: usage.output || 0, cost: usage.cost?.total || 0 }] *)
Definition normUsage (u : RawUsage) : Usage :=
  {| input := orZero (rawInput u); output := orZero (rawOutput u);
     cost := orZero (rawCostTotal u) |}.

(** [if (msg.usage) result.usage = {...}; if (msg.model) result.model = msg.model;] *)
Definition recordUsageAndModel (msg : Message) (r : CriticResult) : CriticResult :=
  let r := match msgUsage msg with Some u => setUsage (normUsage u) r | None => r end in
  match msgModel msg with
  | Some m => if truthy m then setModel m r else r
  | None => r
  end.

(** The verdict is written into the result the same way by both runners. *)
Definition applyVerdict (r : CriticResult) : CriticResult :=
  let v := parseVerdict (critique r) in
  setStatus (v_status v) (setApproved (v_approved v) (setCritique (v_critique v) r)).

(** [catch (err)] of both runners: the partly filled result becomes an
    error result with a placeholder critique. *)
Definition criticException (now startTime : Z) (r : CriticResult) (message : jsstring)
  : CriticResult :=
  setCritique (lit "(Critic error: " ++ message ++ lit ")")
    (setError (Some message) (setDurationMs (now - startTime) r)).

(** The body of a [try] block that fills the shared [result] object: it
    returns it, or throws after having filled part of it. *)
Inductive Body :=
| Done (r : CriticResult)
| Raised (r : CriticResult) (message : jsstring).

(** [try { body } catch (err) { handler }] around the shared result. *)
Definition tryCatch (body : Body) (handler : CriticResult -> jsstring -> Outcome CriticResult)
  : Outcome CriticResult :=
  match body with
  | Done r => Returned r
  | Raised r message => handler r message
  end.

(** ** The process runners *)

(** What [spawnSync] hands back: [error] is present when the child could
    not be run or was killed by the timeout of [spawnSync]; [signal] names
    the signal that ended the child. *)
Record SpawnSyncReturns := {
  spawnError : option jsstring;   (* spawnResult.error.message *)
  signal : option jsstring;
  exitStatus : option Z;
  stdout : option jsstring
}.

(** One run of [runCriticSync] as its environment decides it. *)
Record SyncRun := {
  syncTempFile : Outcome unit;             (* writePromptToTempFile *)
  syncSpawn : Outcome SpawnSyncReturns;    (* spawnSync *)
  syncStart : Z;                           (* Date.now() on entry *)
  syncNow : Z                              (* Date.now() when the duration is taken *)
}.

(** Events of the child process of [runCritic], in the order in which their
    listeners run, up to the event that settles the promise. *)
Inductive ProcEvent :=
| StdoutData (data : jsstring)
| StderrData (data : jsstring)
| TimerFired      (* the setTimeout callback of the timeout *)
| AbortSignal.    (* abortHandler *)

Inductive ProcEnd :=
| Close (code : option Z)
| ProcError (message : jsstring).

Record AsyncRun := {
  asyncTempFile : Outcome unit;    (* writePromptToTempFile *)
  asyncSpawn : Outcome unit;       (* spawn, inside the promise executor *)
  asyncEvents : list ProcEvent;
  asyncEnd : ProcEnd;
  asyncStart : Z;
  asyncNow : Z
}.

(** State shared by the listeners of [runCritic]. [timerPending] is false
    once the timer has fired or [clearTimeout] was called. *)
Record Listeners := {
  messages : list Message;
  buffer : jsstring;
  stderr : jsstring;
  wasAborted : bool;
  wasTimedOut : bool;
  timerPending : bool;
  shared : CriticResult
}.

Definition setShared (r : CriticResult) (l : Listeners) : Listeners :=
  {| messages := messages l; buffer := buffer l; stderr := stderr l;
     wasAborted := wasAborted l; wasTimedOut := wasTimedOut l;
     timerPending := timerPending l; shared := r |}.

(** [lines.pop() || ""] and the lines before it. *)
Definition popLast (lines : list jsstring) : list jsstring * jsstring :=
  (removelast lines, last lines []).

(** A loop whose body may throw: the state after the last element, or
    nothing when the body has thrown on the way. *)
Fixpoint foldM {A B : Type} (f : A -> B -> option A) (l : list B) (a : A) : option A :=
  match l with
  | [] => Some a
  | x :: rest =>
      match f a x with
      | Some a' => foldM f rest a'
      | None => None
      end
  end.

Section Runners.

(** [JSON.parse] on one line of the subprocess: the record, or nothing when
    the line is not JSON. *)
Variable JSON_parse : jsstring -> option JsonEvent.

(** The body of the loop over the lines in [runCriticSync]. *)
Definition syncLine (r : CriticResult) (line : jsstring) : CriticResult :=
  match JSON_parse line with
  | Some (MessageEnd (Some msg)) =>
      if isAssistant msg then
        let r :=
          match content msg with
          | Some blocks =>
              match find isText blocks with
              | Some textContent =>
                  if truthy (textOf textContent) then setCritique (textOf textContent) r else r
              | None => r
              end
          | None => r
          end in
        recordUsageAndModel msg r
      else r
  | _ => r
  end.

Definition runCriticSyncBody (timeoutMs : Z) (run : SyncRun) (result : CriticResult) : Body :=
  match syncTempFile run with
  | Threw e => Raised result e
  | Returned _ =>
      match syncSpawn run with
      | Threw e => Raised result e
      | Returned spawnResult =>
          match spawnError spawnResult with
          | Some message =>
              Done (setDurationMs (syncNow run - syncStart run) (setError (Some message) result))
          | None =>
              if eqbOpt (signal spawnResult) (lit "SIGTERM") then
                Done (setDurationMs (syncNow run - syncStart run)
                        (setError (Some (lit "Critic timed out")) (setTimedOut true result)))
              else
                let out := match stdout spawnResult with Some s => s | None => [] end in
                let lines := filter truthy (split 10%N out) in
                let result := fold_left syncLine lines result in
                let result := setDurationMs (syncNow run - syncStart run) result in
                Done (applyVerdict result)
          end
      end
  end.

Definition runCriticSync (timeoutMs : Z) (run : SyncRun) : Outcome CriticResult :=
  tryCatch (runCriticSyncBody timeoutMs run emptyResult)
    (fun r err => Returned (criticException (syncNow run) (syncStart run) r err)).

(** [processLine] of [runCritic].  Only [JSON.parse] is inside the [try]:
    on the JSON value [null] the test [event.type === ...] that follows
    throws a [TypeError] out of the listener that called [processLine]
    ([None]). *)
Definition processLine (l : Listeners) (line : jsstring) : option Listeners :=
  if negb (truthy (trim line)) then Some l
  else
    match JSON_parse line with
    | None => Some l
    | Some NullValue => None
    | Some (MessageEnd (Some msg)) =>
        Some
          {| messages := messages l ++ [msg]; buffer := buffer l; stderr := stderr l;
             wasAborted := wasAborted l; wasTimedOut := wasTimedOut l;
             timerPending := timerPending l;
             shared :=
               if isAssistant msg then recordUsageAndModel msg (shared l) else shared l |}
    | Some (MessageEnd None) => Some l
    | Some (ErrorEvent message) => Some (setShared (setError message (shared l)) l)
    | Some OtherEvent => Some l
    end.

(** One listener call.  The result is [None] when the listener throws: the
    extension installs no handler for uncaught exceptions, so the exception
    ends the host process and no later listener runs. *)
Definition onEvent (l : Listeners) (e : ProcEvent) : option Listeners :=
  match e with
  | StdoutData data =>
      let '(lines, rest) := popLast (split 10%N (buffer l ++ data)) in
      let l := {| messages := messages l; buffer := rest; stderr := stderr l;
                  wasAborted := wasAborted l; wasTimedOut := wasTimedOut l;
                  timerPending := timerPending l; shared := shared l |} in
      foldM processLine lines l
  | StderrData data =>
      Some
        {| messages := messages l; buffer := buffer l; stderr := stderr l ++ data;
           wasAborted := wasAborted l; wasTimedOut := wasTimedOut l;
           timerPending := timerPending l; shared := shared l |}
  | TimerFired =>
      if timerPending l then
        Some
          {| messages := messages l; buffer := buffer l; stderr := stderr l;
             wasAborted := wasAborted l; wasTimedOut := true;
             timerPending := false; shared := shared l |}
      else Some l
  | AbortSignal =>
      Some
        {| messages := messages l; buffer := buffer l; stderr := stderr l;
           wasAborted := true; wasTimedOut := wasTimedOut l;
           timerPending := false; shared := shared l |}
  end.

(** The listener of the settling event and the exit code the promise
    resolves to: [code ?? 0] on close, 1 on error.  On close, the rest of
    the buffer is processed before [resolve] is called, so that a throw
    there leaves the promise unsettled. *)
Definition onEnd (l : Listeners) (e : ProcEnd) : option (Listeners * Z) :=
  match e with
  | Close code =>
      match (if truthy (trim (buffer l)) then processLine l (buffer l) else Some l) with
      | Some l => Some (l, match code with Some c => c | None => 0%Z end)
      | None => None
      end
  | ProcError message => Some (setShared (setError (Some message) (shared l)) l, 1%Z)
  end.

(** The listeners from the spawn to the settling of the promise: what they
    leave and the exit code the promise resolves to, or nothing when one of
    them has thrown. *)
Definition listen (result : CriticResult) (run : AsyncRun) : option (Listeners * Z) :=
  match foldM onEvent (asyncEvents run)
          {| messages := []; buffer := []; stderr := []; wasAborted := false;
             wasTimedOut := false; timerPending := true; shared := result |} with
  | Some l => onEnd l (asyncEnd run)
  | None => None
  end.

(** "Extract critique from last assistant message": the text of the first
    text part of the last assistant message. Iterating over a missing
    [content] throws. *)
Fixpoint lastAssistant (rev_messages : list Message) : option Message :=
  match rev_messages with
  | [] => None
  | m :: rest => if isAssistant m then Some m else lastAssistant rest
  end.

Definition notIterable : jsstring := lit "msg.content is not iterable".

Definition extractCritique (msgs : list Message) (r : CriticResult) : Body :=
  match lastAssistant (rev msgs) with
  | None => Done r
  | Some msg =>
      match content msg with
      | None => Raised r notIterable
      | Some parts =>
          match find isText parts with
          | Some part => Done (setCritique (textOf part) r)
          | None => Done r
          end
      end
  end.

(** What follows the [await] of the promise in the [try] block. *)
Definition afterListeners (timeoutMs : Z) (run : AsyncRun) (l : Listeners) (exitCode : Z)
  : Body :=
  let result := shared l in
  let result := setDurationMs (asyncNow run - asyncStart run) result in
  let result := setTimedOut (wasTimedOut l) result in
  if wasTimedOut l then
    Done (setCritique (lit "(Critic timed out)")
            (setError (Some (lit "Critic timed out after " ++ ofZ timeoutMs ++ lit "ms")) result))
  else if wasAborted l then
    Done (setCritique (lit "(Critic was aborted)")
            (setError (Some (lit "Critic was aborted")) result))
  else
    let result :=
      if negb (exitCode =? 0)%Z && negb (hasError result)
      then setError (Some (lit "Critic process exited with code " ++ ofZ exitCode)) result
      else result in
    match extractCritique (messages l) result with
    | Raised r e => Raised r e
    | Done result =>
        let result :=
          if negb (truthy (critique result)) && negb (hasError result)
          then setCritique (lit "(No response from critic)")
                 (setError (Some (lit "Critic returned empty response")) result)
          else result in
        Done (applyVerdict result)
    end.

(** The [try] block of [runCritic]: how it ends, or nothing when a listener
    has thrown and the awaited promise is never settled. *)
Definition runCriticBody (timeoutMs : Z) (run : AsyncRun) (result : CriticResult)
  : option Body :=
  match asyncTempFile run with
  | Threw e => Some (Raised result e)
  | Returned _ =>
      match asyncSpawn run with
      | Threw e => Some (Raised result e)
      | Returned _ =>
          match listen result run with
          | Some (l, exitCode) => Some (afterListeners timeoutMs run l exitCode)
          | None => None
          end
      end
  end.

(** [runCritic]: the outcome its caller gets, if it gets one. *)
Definition runCritic (timeoutMs : Z) (run : AsyncRun) : option (Outcome CriticResult) :=
  match runCriticBody timeoutMs run emptyResult with
  | Some body =>
      Some (tryCatch body
              (fun r err => Returned (criticException (asyncNow run) (asyncStart run) r err)))
  | None => None
  end.

End Runners.

(** ** Context curator *)

Inductive ContextMode := full | messages_only | results_only.

Inductive UserContent :=
| UserText (s : jsstring)
| UserBlocks (blocks : list ContentBlock).

(** Entries of the conversation, by role. A tool result carries
    [details?.diff]; a custom entry carries the [customType] it was sent
    with. *)
Inductive AgentMessage :=
| UserMessage (content : UserContent)
| AssistantMessage (content : list ContentBlock)
| ToolResultMessage (toolName : option jsstring) (content : list ContentBlock)
    (diff : option jsstring)
| CustomMessage (customType : jsstring) (content : jsstring)
| OtherMessage (role : jsstring).

Definition isThinkingContent (c : ContentBlock) : bool :=
  match c with ThinkingContent _ => true | _ => false end.

Definition isToolCall (c : ContentBlock) : bool :=
  match c with ToolCall _ _ => true | _ => false end.

(** [getTextContent] *)
Definition getTextContent (content : list ContentBlock) : jsstring := joinText content.

(** [array.slice(-n)]: the last [n] elements; [slice(-0)] is the whole array. *)
Definition sliceLast {A : Type} (n : nat) (l : list A) : list A :=
  match n with
  | O => l
  | _ => skipn (List.length l - n) l
  end.

Definition thinkingPart (c : ContentBlock) : jsstring :=
  match c with
  | ThinkingContent t => lit "THINKING: " ++ t
  | _ => []
  end.

Definition toolCallPart (c : ContentBlock) : jsstring :=
  match c with
  | ToolCall name argumentsJson =>
      lit "TOOL CALL: " ++ name ++ lit "(" ++ firstn 200 argumentsJson ++ lit "...)"
  | _ => []
  end.

(** The parts pushed for one entry by the loop of [formatRecentContext]. *)
Definition formatMessage (contextMode : ContextMode) (msg : AgentMessage) : list jsstring :=
  match msg with
  | UserMessage c =>
      let content := match c with UserText s => s | UserBlocks blocks => joinText blocks end in
      [lit "USER: " ++ content]
  | AssistantMessage content =>
      let thinking :=
        match contextMode with
        | full => map thinkingPart (filter isThinkingContent content)
        | _ => []
        end in
      let text := getTextContent content in
      let toolCalls := map toolCallPart (filter isToolCall content) in
      thinking ++ toolCalls ++ (if truthy text then [lit "ASSISTANT: " ++ text] else [])
  | ToolResultMessage toolName content diff =>
      let content := joinText content in
      if eqbOpt toolName (lit "edit") && truthyOpt diff then
        [lit "TOOL RESULT (edit) - DIFF:" ++ nl ++ match diff with Some d => d | None => [] end]
      else
        let preview :=
          if (500 <? List.length content)%nat then firstn 500 content ++ lit "..." else content in
        let shown :=
          match toolName with
          | Some n => if truthy n then n else lit "unknown"
          | None => lit "unknown"
          end in
        [lit "TOOL RESULT (" ++ shown ++ lit "): " ++ preview]
  | CustomMessage _ _ => []
  | OtherMessage _ => []
  end.

Definition formatRecentContext (messages : list AgentMessage) (contextMode : ContextMode)
  (maxMessages : nat) : jsstring :=
  let messagesToProcess :=
    match contextMode with
    | results_only => sliceLast 1 messages
    | _ => sliceLast maxMessages messages
    end in
  join (nl ++ nl) (flat_map (formatMessage contextMode) messagesToProcess).

Definition defaultMaxMessages : nat := 10.

(** ** Configuration and runtime state *)

Inductive TriggerMode := tool_result | turn_end | agent_end | visual.

Record CriticState := {
  enabled : bool;
  criticModel : option jsstring;      (* model *)
  systemPrompt : jsstring;
  triggerMode : TriggerMode;
  triggerTools : list jsstring;
  timeoutMs : Z;
  debug : bool;
  maxReviewsPerPrompt : Z;
  contextMode : ContextMode
}.

Record CriticRuntimeState := {
  reviewsThisPrompt : Z;
  lastUserPromptTime : Z;
  isProcessingCritic : bool;
  lastVerdictApproved : option bool
}.

Record CriticDetails := {
  detailsResult : CriticResult;    (* result *)
  detailsContext : jsstring        (* context *)
}.

Inductive DeliverAs := steer | followUp.

(** What [triggerCritic] does to the outside, in order. *)
Inductive Effect :=
| RunReviewer (sync : bool) (context : jsstring)     (* runCriticSync / runCritic is called *)
| SendMessage (customType : jsstring) (content : jsstring) (details : CriticDetails)
| SendUserMessage (text : jsstring) (deliverAs : DeliverAs).

Definition criticReview : jsstring := lit "critic-review".

(** The stop instruction sent when the cap is reached without approval. *)
Definition stopMessage (st : CriticState) : jsstring :=
  lit "[Critic]: STOP. Maximum review attempts (" ++ ofZ (maxReviewsPerPrompt st)
  ++ lit ") reached without approval. Wait for user input before continuing.".

(** The feedback routed to the primary agent. *)
Definition feedbackMessage (r : CriticResult) : jsstring :=
  lit "[Critic feedback]: " ++ critique r.

Definition setProcessing (b : bool) (rt : CriticRuntimeState) : CriticRuntimeState :=
  {| reviewsThisPrompt := reviewsThisPrompt rt; lastUserPromptTime := lastUserPromptTime rt;
     isProcessingCritic := b; lastVerdictApproved := lastVerdictApproved rt |}.

Definition setLastVerdictApproved (v : option bool) (rt : CriticRuntimeState)
  : CriticRuntimeState :=
  {| reviewsThisPrompt := reviewsThisPrompt rt; lastUserPromptTime := lastUserPromptTime rt;
     isProcessingCritic := isProcessingCritic rt; lastVerdictApproved := v |}.

(** [runtime.isProcessingCritic = true; runtime.reviewsThisPrompt++;] *)
Definition beginReview (rt : CriticRuntimeState) : CriticRuntimeState :=
  {| reviewsThisPrompt := reviewsThisPrompt rt + 1; lastUserPromptTime := lastUserPromptTime rt;
     isProcessingCritic := true; lastVerdictApproved := lastVerdictApproved rt |}.

(** ** triggerCritic

    [triggerCritic] is an [async] function: it runs until it returns or
    reaches an [await], and is resumed later.  A call that is suspended is
    kept as the point it waits at. *)
Inductive Suspended :=
| AwaitRunCritic (contextStr : jsstring) (timeoutMs : Z)   (* await runCritic(...) *)
| AwaitDelay (feedback : jsstring).                       (* await the 100 ms timer *)

(** One uninterrupted stretch of [triggerCritic]: the runtime state it
    leaves, what it did, and where it is suspended, if it is. *)
Record Stretch := {
  leaves : CriticRuntimeState;
  effects : list Effect;
  suspended : option Suspended
}.

(** [finally { runtime.isProcessingCritic = false; ... }] *)
Definition finallyClear (rt : CriticRuntimeState) : CriticRuntimeState := setProcessing false rt.

(** The [try] block from the point where the reviewer has answered (or
    thrown), with its [catch] and [finally]. *)
Definition afterReview (st : CriticState) (rt : CriticRuntimeState) (contextStr : jsstring)
  (answer : Outcome CriticResult) : Stretch :=
  match answer with
  | Threw _ => {| leaves := finallyClear rt; effects := []; suspended := None |}
  | Returned result =>
      let rt := setLastVerdictApproved (Some (approved result)) rt in
      let display :=
        SendMessage criticReview (critique result)
          {| detailsResult := result; detailsContext := contextStr |} in
      if negb (approved result) && negb (hasError result) && truthy (trim (critique result)) then
        if (reviewsThisPrompt rt <? maxReviewsPerPrompt st)%Z then
          {| leaves := rt; effects := [display];
             suspended := Some (AwaitDelay (feedbackMessage result)) |}
        else {| leaves := finallyClear rt; effects := [display]; suspended := None |}
      else {| leaves := finallyClear rt; effects := [display]; suspended := None |}
  end.

(** After the 100 ms delay: the feedback is sent and the call ends. *)
Definition afterDelay (rt : CriticRuntimeState) (feedback : jsstring) : Stretch :=
  {| leaves := finallyClear rt; effects := [SendUserMessage feedback followUp];
     suspended := None |}.

Section Extension.

Variable JSON_parse : jsstring -> option JsonEvent.

(** [triggerCritic(ctx, contextStr, useSync)] up to its first [await].
    [run] is what the reviewer subprocess does if [runCriticSync] is called. *)
Definition triggerCritic (st : CriticState) (rt : CriticRuntimeState) (contextStr : jsstring)
  (useSync : bool) (run : SyncRun) : Stretch :=
  if negb (enabled st) then {| leaves := rt; effects := []; suspended := None |}
  else if isProcessingCritic rt then {| leaves := rt; effects := []; suspended := None |}
  else if (maxReviewsPerPrompt st <=? reviewsThisPrompt rt)%Z then
    {| leaves := rt;
       effects :=
         match lastVerdictApproved rt with
         | Some false => [SendUserMessage (stopMessage st) steer]
         | _ => []
         end;
       suspended := None |}
  else
    let rt := beginReview rt in
    if useSync then
      let s := afterReview st rt contextStr (runCriticSync JSON_parse (timeoutMs st) run) in
      {| leaves := leaves s; effects := RunReviewer true contextStr :: effects s;
         suspended := suspended s |}
    else
      {| leaves := rt; effects := [RunReviewer false contextStr];
         suspended := Some (AwaitRunCritic contextStr (timeoutMs st)) |}.

(** A suspended call is resumed: by the reviewer's answer, or by the timer.
    A call that awaits [runCritic] is not resumed when [runCritic] gives no
    outcome. *)
Definition resumeRunCritic (st : CriticState) (rt : CriticRuntimeState) (contextStr : jsstring)
  (timeout : Z) (run : AsyncRun) : option Stretch :=
  match runCritic JSON_parse timeout run with
  | Some answer => Some (afterReview st rt contextStr answer)
  | None => None
  end.

End Extension.

(** ** The extension instance: handlers and session *)

Definition DEFAULT_CRITIC_PROMPT : jsstring :=
  lit "You are a code review critic. Your job is to evaluate the agent's work and provide constructive feedback." ++ nl
  ++ nl
  ++ lit "IMPORTANT: Do NOT use any tools. You will be given all the context you need in the user message. Just respond with your review directly." ++ nl
  ++ nl
  ++ lit "Review the agent's recent actions and output. Consider:" ++ nl
  ++ lit "- Is the approach correct and efficient?" ++ nl
  ++ lit "- Are there any bugs, edge cases, or potential issues?" ++ nl
  ++ lit "- Is the code clean, readable, and well-structured?" ++ nl
  ++ lit "- Are there better alternatives?" ++ nl
  ++ nl
  ++ lit "## Response Format" ++ nl
  ++ nl
  ++ lit "You MUST end your response with a verdict block in this exact format:" ++ nl
  ++ nl
  ++ lit "<critic_verdict>" ++ nl
  ++ lit "status: APPROVED | NEEDS_WORK | BLOCKED" ++ nl
  ++ lit "</critic_verdict>" ++ nl
  ++ nl
  ++ lit "Use:" ++ nl
  ++ lit "- APPROVED: Work is correct and complete, no issues found" ++ nl
  ++ lit "- NEEDS_WORK: Minor issues or suggestions that the agent should address" ++ nl
  ++ lit "- BLOCKED: Critical issues that must be fixed before proceeding" ++ nl
  ++ nl
  ++ lit "Your review text comes BEFORE the verdict block. Keep it concise and actionable.".

Definition CRITIC_TRIGGER_TOOLS : list jsstring := [lit "write"; lit "edit"; lit "bash"].
Definition DEFAULT_TIMEOUT_MS : Z := 60000.

(** [state] and [runtime] as [criticExtension] creates them. *)
Definition initialState : CriticState :=
  {| enabled := false; criticModel := None; systemPrompt := DEFAULT_CRITIC_PROMPT;
     triggerMode := turn_end; triggerTools := CRITIC_TRIGGER_TOOLS;
     timeoutMs := DEFAULT_TIMEOUT_MS; debug := false; maxReviewsPerPrompt := 3;
     contextMode := messages_only |}.

Definition initialRuntime : CriticRuntimeState :=
  {| reviewsThisPrompt := 0; lastUserPromptTime := 0; isProcessingCritic := false;
     lastVerdictApproved := None |}.

(** The flags read at session start. [flagMaxReviews] is the number
    [maxReviews] computed from the flag, absent when it is [NaN]; it is an
    integer, since the flag is registered as a string and read with
    [parseInt]. *)
Record Flags := {
  flagCritic : bool;
  flagCriticDebug : bool;
  flagCriticTrigger : option jsstring;
  flagCriticModel : option jsstring;
  flagCriticPrompt : option jsstring;
  flagMaxReviews : option Z
}.

(** The last persisted ["critic-state"] entry: [Partial<CriticState>]. *)
Record StateEntry := {
  entryEnabled : option bool;
  entryModel : option jsstring;
  entrySystemPrompt : option jsstring;
  entryTriggerMode : option TriggerMode;
  entryTriggerTools : option (list jsstring);
  entryTimeoutMs : option Z;
  entryContextMode : option ContextMode
}.

Definition triggerModeOfFlag (f : option jsstring) : option TriggerMode :=
  match f with
  | None => None
  | Some s =>
      if JS.eqb s (lit "turn_end") then Some turn_end
      else if JS.eqb s (lit "tool_result") then Some tool_result
      else if JS.eqb s (lit "agent_end") then Some agent_end
      else if JS.eqb s (lit "visual") then Some visual
      else None
  end.

(** [a ?? b] *)
Definition orElse {A : Type} (a : option A) (b : A) : A :=
  match a with Some x => x | None => b end.

(** The [session_start] handler. *)
Definition session_start (flags : Flags) (stateEntry : option StateEntry) (st : CriticState)
  : CriticState :=
  let st1 :=
    {| enabled := if flagCritic flags then true else enabled st;
       criticModel :=
         match flagCriticModel flags with
         | Some m => if truthy m then Some m else criticModel st
         | None => criticModel st
         end;
       systemPrompt :=
         match flagCriticPrompt flags with
         | Some p => if truthy p then p else systemPrompt st
         | None => systemPrompt st
         end;
       triggerMode := orElse (triggerModeOfFlag (flagCriticTrigger flags)) (triggerMode st);
       triggerTools := triggerTools st;
       timeoutMs := timeoutMs st;
       debug := if flagCriticDebug flags then true else debug st;
       maxReviewsPerPrompt :=
         match flagMaxReviews flags with
         | Some n => if (0 <? n)%Z then n else maxReviewsPerPrompt st
         | None => maxReviewsPerPrompt st
         end;
       contextMode := contextMode st |} in
  match stateEntry with
  | None => st1
  | Some data =>
      {| enabled := orElse (entryEnabled data) (enabled st1);
         criticModel :=
           match entryModel data with Some m => Some m | None => criticModel st1 end;
         systemPrompt := orElse (entrySystemPrompt data) (systemPrompt st1);
         triggerMode := orElse (entryTriggerMode data) (triggerMode st1);
         triggerTools := orElse (entryTriggerTools data) (triggerTools st1);
         timeoutMs := orElse (entryTimeoutMs data) (timeoutMs st1);
         debug := debug st1;
         maxReviewsPerPrompt := maxReviewsPerPrompt st1;
         contextMode := orElse (entryContextMode data) (contextMode st1) |}
  end.

(** User commands that change the configuration. *)
Inductive Command :=
| CmdCritic                                   (* /critic *)
| CmdCriticModel (m : option jsstring)        (* /critic-model *)
| CmdCriticPrompt (newPrompt : jsstring)      (* /critic-prompt *)
| CmdCriticTrigger (mode : TriggerMode)       (* /critic-trigger *)
| CmdCriticTimeout (seconds : option Z)       (* /critic-timeout *)
| CmdCriticDebug                              (* /critic-debug *)
| CmdCriticContext (mode : ContextMode).      (* /critic-context *)

Definition command (c : Command) (st : CriticState) : CriticState :=
  match c with
  | CmdCritic =>
      {| enabled := negb (enabled st); criticModel := criticModel st;
         systemPrompt := systemPrompt st; triggerMode := triggerMode st;
         triggerTools := triggerTools st; timeoutMs := timeoutMs st; debug := debug st;
         maxReviewsPerPrompt := maxReviewsPerPrompt st; contextMode := contextMode st |}
  | CmdCriticModel m =>
      {| enabled := enabled st; criticModel := m;
         systemPrompt := systemPrompt st; triggerMode := triggerMode st;
         triggerTools := triggerTools st; timeoutMs := timeoutMs st; debug := debug st;
         maxReviewsPerPrompt := maxReviewsPerPrompt st; contextMode := contextMode st |}
  | CmdCriticPrompt newPrompt =>
      {| enabled := enabled st; criticModel := criticModel st;
         systemPrompt := if truthy (trim newPrompt) then trim newPrompt else systemPrompt st;
         triggerMode := triggerMode st;
         triggerTools := triggerTools st; timeoutMs := timeoutMs st; debug := debug st;
         maxReviewsPerPrompt := maxReviewsPerPrompt st; contextMode := contextMode st |}
  | CmdCriticTrigger mode =>
      {| enabled := enabled st; criticModel := criticModel st;
         systemPrompt := systemPrompt st; triggerMode := mode;
         triggerTools := triggerTools st; timeoutMs := timeoutMs st; debug := debug st;
         maxReviewsPerPrompt := maxReviewsPerPrompt st; contextMode := contextMode st |}
  | CmdCriticTimeout seconds =>
      {| enabled := enabled st; criticModel := criticModel st;
         systemPrompt := systemPrompt st; triggerMode := triggerMode st;
         triggerTools := triggerTools st;
         timeoutMs :=
           match seconds with
           | Some s => if ((s <? 5) || (300 <? s))%Z then timeoutMs st else (s * 1000)%Z
           | None => timeoutMs st
           end;
         debug := debug st;
         maxReviewsPerPrompt := maxReviewsPerPrompt st; contextMode := contextMode st |}
  | CmdCriticDebug =>
      {| enabled := enabled st; criticModel := criticModel st;
         systemPrompt := systemPrompt st; triggerMode := triggerMode st;
         triggerTools := triggerTools st; timeoutMs := timeoutMs st; debug := negb (debug st);
         maxReviewsPerPrompt := maxReviewsPerPrompt st; contextMode := contextMode st |}
  | CmdCriticContext mode =>
      {| enabled := enabled st; criticModel := criticModel st;
         systemPrompt := systemPrompt st; triggerMode := triggerMode st;
         triggerTools := triggerTools st; timeoutMs := timeoutMs st; debug := debug st;
         maxReviewsPerPrompt := maxReviewsPerPrompt st; contextMode := mode |}
  end.

(** The [context] handler: critic messages are filtered out of what is
    sent to the model. *)
Definition customTypeOf (m : AgentMessage) : option jsstring :=
  match m with
  | CustomMessage customType _ => Some customType
  | _ => None
  end.

Definition on_context (messages : list AgentMessage) : list AgentMessage :=
  filter (fun m => negb (eqbOpt (customTypeOf m) criticReview)) messages.

(** The [before_agent_start] handler. *)
Definition before_agent_start (prompt : jsstring) (now : Z) (rt : CriticRuntimeState)
  : CriticRuntimeState :=
  if negb (startsWith prompt (lit "[Critic")) then
    {| reviewsThisPrompt := 0; lastUserPromptTime := now;
       isProcessingCritic := isProcessingCritic rt; lastVerdictApproved := None |}
  else rt.

(** The context string a trigger handler calls [triggerCritic] with, if it
    calls it. *)
Definition turn_end_context (st : CriticState) (branch : list AgentMessage) : option jsstring :=
  match triggerMode st with
  | turn_end =>
      if enabled st then
        let contextStr := formatRecentContext branch (contextMode st) defaultMaxMessages in
        if truthy (trim contextStr) then Some contextStr else None
      else None
  | _ => None
  end.

Definition includes (tools : list jsstring) (name : jsstring) : bool :=
  existsb (JS.eqb name) tools.

(** [hasImages]: [extractImagePaths] found an existing png file. *)
Definition tool_result_context (st : CriticState) (toolName inputJson : jsstring)
  (content : list ContentBlock) (hasImages : bool) (branch : list AgentMessage)
  : option jsstring :=
  if negb (enabled st) then None
  else
    match triggerMode st with
    | tool_result =>
        if includes (triggerTools st) toolName then
          Some (lit "Tool: " ++ toolName ++ nl ++ lit "Input: " ++ inputJson ++ nl
                ++ lit "Result:" ++ nl ++ joinText content)
        else None
    | visual =>
        if includes (triggerTools st) toolName then
          if hasImages
          then Some (formatRecentContext branch (contextMode st) defaultMaxMessages)
          else None
        else None
    | _ => None
    end.

Definition agent_end_context (st : CriticState) (messages : list AgentMessage)
  : option jsstring :=
  match triggerMode st with
  | agent_end =>
      if enabled st then
        let contextStr := formatRecentContext messages (contextMode st) defaultMaxMessages in
        if truthy (trim contextStr) then Some contextStr else None
      else None
  | _ => None
  end.

(** ** The session machine

    The host runs one handler at a time; a suspended call of
    [triggerCritic] is resumed by a later event.  [pending] holds the
    suspended calls and [trace] everything the extension has done so far. *)

Record Session := {
  config : CriticState;
  runtime : CriticRuntimeState;
  pending : list Suspended;
  trace : list Effect
}.

(** What the host does to the extension.  [Trigger] stands for any call of
    [triggerCritic] with an explicit [useSync]; the three handlers call it
    with [useSync = true]. *)
Inductive Event :=
| Configure (c : Command)
| BeforeAgentStart (prompt : jsstring) (now : Z)
| TurnEnd (branch : list AgentMessage) (run : SyncRun)
| ToolResult (toolName inputJson : jsstring) (content : list ContentBlock)
    (hasImages : bool) (branch : list AgentMessage) (run : SyncRun)
| AgentEnd (messages : list AgentMessage) (run : SyncRun)
| Trigger (contextStr : jsstring) (useSync : bool) (run : SyncRun)
| ReviewerSettles (i : nat) (run : AsyncRun)    (* runCritic of pending call i has run *)
| DelayElapses (i : nat).                       (* the timer of pending call i fires *)

(** [l] without its [i]-th element. *)
Fixpoint removeNth {A : Type} (i : nat) (l : list A) : list A :=
  match l, i with
  | [], _ => []
  | _ :: l', O => l'
  | x :: l', S i' => x :: removeNth i' l'
  end.

Definition commit (s : Session) (others : list Suspended) (r : Stretch) : Session :=
  {| config := config s;
     runtime := leaves r;
     pending := others ++ match suspended r with Some k => [k] | None => [] end;
     trace := trace s ++ effects r |}.

Section Machine.

Variable JSON_parse : jsstring -> option JsonEvent.

Definition call (s : Session) (contextStr : option jsstring) (useSync : bool) (run : SyncRun)
  : Session :=
  match contextStr with
  | None => s
  | Some c => commit s (pending s) (triggerCritic JSON_parse (config s) (runtime s) c useSync run)
  end.

Definition step (s : Session) (e : Event) : Session :=
  match e with
  | Configure c =>
      {| config := command c (config s); runtime := runtime s; pending := pending s;
         trace := trace s |}
  | BeforeAgentStart prompt now =>
      {| config := config s; runtime := before_agent_start prompt now (runtime s);
         pending := pending s; trace := trace s |}
  | TurnEnd branch run => call s (turn_end_context (config s) branch) true run
  | ToolResult toolName inputJson content hasImages branch run =>
      call s (tool_result_context (config s) toolName inputJson content hasImages branch)
        true run
  | AgentEnd msgs run => call s (agent_end_context (config s) msgs) true run
  | Trigger contextStr useSync run => call s (Some contextStr) useSync run
  | ReviewerSettles i run =>
      match nth_error (pending s) i with
      | Some (AwaitRunCritic contextStr timeout) =>
          match resumeRunCritic JSON_parse (config s) (runtime s) contextStr timeout run with
          | Some stretch => commit s (removeNth i (pending s)) stretch
          | None => s
          end
      | _ => s
      end
  | DelayElapses i =>
      match nth_error (pending s) i with
      | Some (AwaitDelay feedback) =>
          commit s (removeNth i (pending s)) (afterDelay (runtime s) feedback)
      | _ => s
      end
  end.

Definition run (s : Session) (events : list Event) : Session := fold_left step events s.

End Machine.

(** The session once [session_start] has run. *)
Definition boot (flags : Flags) (stateEntry : option StateEntry) : Session :=
  {| config := session_start flags stateEntry initialState; runtime := initialRuntime;
     pending := []; trace := [] |}.

(** ** Notions used to state the properties *)

Definition isReviewerRun (e : Effect) : bool :=
  match e with RunReviewer _ _ => true | _ => false end.

(** How many times a runner was invoked. *)
Definition reviewerRuns (t : list Effect) : nat := List.length (filter isReviewerRun t).

Definition isSteer (e : Effect) : bool :=
  match e with SendUserMessage _ steer => true | _ => false end.

(** How many stop instructions were injected: the stop instruction is the
    only message delivered as [steer]. *)
Definition stopInjections (t : list Effect) : nat := List.length (filter isSteer t).

Definition isDisplay (e : Effect) : bool :=
  match e with SendMessage customType _ _ => JS.eqb customType criticReview | _ => false end.

(** How many review outcomes were sent to the display channel. *)
Definition displays (t : list Effect) : nat := List.length (filter isDisplay t).

Definition isAwaitRunCritic (k : Suspended) : bool :=
  match k with AwaitRunCritic _ _ => true | _ => false end.

(** How many suspended calls still wait for the reviewer's answer. *)
Definition awaiting (l : list Suspended) : nat := List.length (filter isAwaitRunCritic l).

(** An event that starts a new user request: [before_agent_start] with a
    prompt that is not critic-originated. *)
Definition startsRequest (e : Event) : bool :=
  match e with
  | BeforeAgentStart prompt _ => negb (startsWith prompt (lit "[Critic"))
  | _ => false
  end.

(** Events through which a handler may call [triggerCritic]. *)
Definition isTrigger (e : Event) : bool :=
  match e with
  | TurnEnd _ _ | ToolResult _ _ _ _ _ _ | AgentEnd _ _ | Trigger _ _ _ => true
  | _ => false
  end.

(** Everything one review does once the reviewer has answered: the
    stretch after the answer and, if the call was suspended on the delay,
    the stretch after it. *)
Definition reviewOutcomeEffects (st : CriticState) (rt : CriticRuntimeState)
  (contextStr : jsstring) (result : CriticResult) : list Effect :=
  let s := afterReview st rt contextStr (Returned result) in
  effects s ++
  match suspended s with
  | Some (AwaitDelay feedback) => effects (afterDelay (leaves s) feedback)
  | _ => []
  end.

(** What holds of every session: the counter is within the cap, the cap is
    positive, at most one call of [triggerCritic] is suspended, and the
    in-flight flag is set exactly while one is. *)
Record Invariant (s : Session) : Prop := {
  inv_cap : (reviewsThisPrompt (runtime s) <= maxReviewsPerPrompt (config s))%Z;
  inv_pos : (0 < maxReviewsPerPrompt (config s))%Z;
  inv_one : (List.length (pending s) <= 1)%nat;
  inv_flag : isProcessingCritic (runtime s) = true <-> pending s <> []
}.

(** *** The verdict marker, in the words of the prompt

    "You MUST end your response with a verdict block in this exact format":
    the opening tag, [status:], one of the three keywords and the closing
    tag, in any letter case, with any white space between them. *)

(** [text] is [pattern] up to letter case. *)
Definition ciEqual (pattern text : jsstring) : Prop :=
  Forall2 (fun p c => ciEqUnit p c = true) pattern text.

Definition blank (w : jsstring) : Prop := forallb isWhiteSpace w = true.

Definition keywords : list jsstring := [lit "APPROVED"; lit "NEEDS_WORK"; lit "BLOCKED"].

Definition openTag : jsstring := lit "<critic_verdict>".
Definition closeTag : jsstring := lit "</critic_verdict>".

Inductive MarkerBlock (keyword : jsstring) : jsstring -> Prop :=
| marker_block (o w1 l w2 k w3 c : jsstring) :
    ciEqual openTag o -> blank w1 ->
    ciEqual (lit "status:") l -> blank w2 ->
    In keyword keywords -> ciEqual keyword k -> blank w3 ->
    ciEqual closeTag c ->
    MarkerBlock keyword (o ++ w1 ++ l ++ w2 ++ k ++ w3 ++ c).

(** A marker block with [keyword] starts right after [pre]. *)
Definition markerAt (text pre keyword : jsstring) : Prop :=
  exists block post, text = pre ++ block ++ post /\ MarkerBlock keyword block.

Definition hasMarker (text : jsstring) : Prop :=
  exists pre keyword, markerAt text pre keyword.

(** What the listeners of [runCritic] leave when the promise settles, and
    the exit code it resolves to. *)
Definition settled (parse : jsstring -> option JsonEvent) (r : AsyncRun)
  : option (Listeners * Z) :=
  listen parse emptyResult r.

(** Everything the reviewer wrote to its standard output, chunk after chunk. *)
Definition stdoutOf (events : list ProcEvent) : jsstring :=
  flat_map (fun e => match e with StdoutData data => data | _ => [] end) events.




(** ** Sample runs *)

(** A reviewer answer that blocks the work. *)
Definition blockedReply : jsstring :=
  lit "Unchecked null dereference in save()." ++ nl ++ lit "<critic_verdict>" ++ nl
  ++ lit "status: BLOCKED" ++ nl ++ lit "</critic_verdict>".

(** A [JSON.parse] that knows two lines: the [message_end] record of an
    assistant message with [blockedReply] as its text, and the JSON value
    [null]. *)
Definition sampleParse (line : jsstring) : option JsonEvent :=
  if JS.eqb line (lit "{blocked}") then
    Some (MessageEnd (Some {| role := lit "assistant";
                              content := Some [TextContent blockedReply];
                              msgUsage := None; msgModel := None |}))
  else if JS.eqb line (lit "null") then Some NullValue
  else None.

Definition spawned (signal : option jsstring) (exitStatus : option Z) (stdout : jsstring)
  : SyncRun :=
  {| syncTempFile := Returned tt;
     syncSpawn := Returned {| spawnError := None; signal := signal;
                              exitStatus := exitStatus; stdout := Some stdout |};
     syncStart := 1000; syncNow := 2500 |}.

(** The reviewer prints the blocking answer and exits with status 0. *)
Definition blockedRun : SyncRun := spawned None (Some 0%Z) (lit "{blocked}" ++ nl).



(** The timeout of [spawnSync] expired: Node kills the child with SIGTERM
    and reports the error ETIMEDOUT in [error]. *)
Definition timedOutRun : SyncRun :=
  {| syncTempFile := Returned tt;
     syncSpawn := Returned {| spawnError := Some (lit "spawnSync pi ETIMEDOUT");
                              signal := Some (lit "SIGTERM");
                              exitStatus := None; stdout := Some [] |};
     syncStart := 1000; syncNow := 61000 |}.

Definition asyncRunOf (events : list ProcEvent) (ending : ProcEnd) : AsyncRun :=
  {| asyncTempFile := Returned tt; asyncSpawn := Returned tt; asyncEvents := events;
     asyncEnd := ending; asyncStart := 1000; asyncNow := 2500 |}.

(** A session started with [--critic --critic-max-reviews 1]. *)
Definition strictFlags : Flags :=
  {| flagCritic := true; flagCriticDebug := false; flagCriticTrigger := None;
     flagCriticModel := None; flagCriticPrompt := None; flagMaxReviews := Some 1%Z |}.

Definition sampleBranch : list AgentMessage :=
  [UserMessage (UserText (lit "Fix save()")); AssistantMessage [TextContent (lit "Done.")]].

(** An outcome whose critique is a single space. *)
Definition blankResult : CriticResult := setCritique (lit " ") emptyResult.

(** ** More of the extension *)

(** [persistState]: the ["critic-state"] entry appended when a command
    changes the configuration.  [debug] and [maxReviewsPerPrompt] are not
    part of it, and an undefined [model] leaves no field behind. *)
Definition persistState (st : CriticState) : StateEntry :=
  {| entryEnabled := Some (enabled st);
     entryModel := criticModel st;
     entrySystemPrompt := Some (systemPrompt st);
     entryTriggerMode := Some (triggerMode st);
     entryTriggerTools := Some (triggerTools st);
     entryTimeoutMs := Some (timeoutMs st);
     entryContextMode := Some (contextMode st) |}.

(** An entry of the conversation with its internal reasoning taken out. *)
Definition withoutThinking (m : AgentMessage) : AgentMessage :=
  match m with
  | AssistantMessage content =>
      AssistantMessage (filter (fun c => negb (isThinkingContent c)) content)
  | _ => m
  end.

Definition isConfigureCritic (e : Event) : bool :=
  match e with Configure CmdCritic => true | _ => false end.

(** The texts sent to the primary agent as user messages. *)
Definition userMessages (t : list Effect) : list jsstring :=
  flat_map (fun e => match e with SendUserMessage text _ => [text] | _ => [] end) t.

(** [text] starts with the prefix of critic-originated messages. *)
Definition prefixed (text : jsstring) : Prop := startsWith text (lit "[Critic") = true.

(** The messages sent and the feedback kept for later all carry the prefix. *)
Definition wellPrefixed (s : Session) : Prop :=
  Forall prefixed (userMessages (trace s))
  /\ forall feedback, In (AwaitDelay feedback) (pending s) -> prefixed feedback.


(** [buffer = rest] in the stdout listener of [runCritic]. *)
Definition setBuffer (rest : jsstring) (l : Listeners) : Listeners :=
  {| messages := messages l; buffer := rest; stderr := stderr l;
     wasAborted := wasAborted l; wasTimedOut := wasTimedOut l;
     timerPending := timerPending l; shared := shared l |}.

(** [line] is a [message_end] record for [msg] somewhere in [out]. *)
Definition printed (parse : jsstring -> option JsonEvent) (out : jsstring) (msg : Message)
  : Prop :=
  exists line a b, out = a ++ line ++ b /\ parse line = Some (MessageEnd (Some msg)).


(** A reviewer answer that approves the work, with the keyword in lower
    case. *)
Definition approvedReply : jsstring :=
  lit "Looks right." ++ nl ++ lit "<critic_verdict>" ++ nl
  ++ lit "status: approved" ++ nl ++ lit "</critic_verdict>".

(** A [JSON.parse] that knows the [message_end] record of an assistant
    message with [approvedReply] as its text. *)
Definition approvingParse (line : jsstring) : option JsonEvent :=
  if JS.eqb line (lit "{approved}") then
    Some (MessageEnd (Some {| role := lit "assistant";
                              content := Some [TextContent approvedReply];
                              msgUsage := None; msgModel := None |}))
  else None.

(** The reviewer prints the approving answer in two chunks and exits with
    status 0. *)
Definition approvingRun : AsyncRun :=
  asyncRunOf [StdoutData (lit "{appr"); StdoutData (lit "oved}" ++ nl)] (Close (Some 0%Z)).


(** ** Image paths (extractImagePaths) *)

(** The negated class of the two patterns: any code unit but white space,
    the double quote (34), the single quote (39) and the angle brackets
    (60, 62). *)
Definition pathChar (c : codeunit) : bool :=
  negb (isWhiteSpace c || (c =? 34)%N || (c =? 39)%N || (c =? 60)%N || (c =? 62)%N).

(** One of the two patterns, under the i flag, at the head of [s]: [dir]
    ([/tmp/] or [/var/]), the class once or more, then [.png].  The result
    is the input left after the match.  The class takes as many
    code units as it can, at least one, and gives them back one at a time
    until [.png] follows. *)
Definition pathAt (dir s : jsstring) : option jsstring :=
  match litPrefix dir s with
  | Some (_, c :: s2) =>
      if pathChar c
      then star pathChar (fun s3 => option_map snd (litPrefix (lit ".png") s3)) s2
      else None
  | _ => None
  end.

(** [text.match(pattern)] with the [g] flag: the matches from left to
    right, each search starting where the match before ended.  [skip] counts
    the code units of [s] that still belong to the last match. *)
Fixpoint matchAll (dir : jsstring) (skip : nat) (s : jsstring) : list jsstring :=
  match s with
  | [] => []
  | _ :: s' =>
      match skip with
      | S k => matchAll dir k s'
      | O =>
          match pathAt dir s with
          | Some rest =>
              let m := firstn (List.length s - List.length rest) s in
              m :: matchAll dir (List.length m - 1) s'
          | None => matchAll dir 0 s'
          end
      end
  end.

(** [[...new Set(paths)]]: the first occurrence of every path, in order. *)
Fixpoint dedupe (paths : list jsstring) : list jsstring :=
  match paths with
  | [] => []
  | p :: rest => p :: filter (fun q => negb (JS.eqb q p)) (dedupe rest)
  end.

(** [isFile p]: [fs.statSync(p).isFile()], false when [statSync] throws. *)
Definition extractImagePaths (isFile : jsstring -> bool) (text : jsstring) : list jsstring :=
  let paths := matchAll (lit "/tmp/") 0 text ++ matchAll (lit "/var/") 0 text in
  filter isFile (dedupe paths).

(** [p] reads [/tmp/] or [/var/], then code units of the class, then
    [.png], in any letter case. *)
Definition isPngPath (p : jsstring) : Prop :=
  exists dir mid ext,
    p = dir ++ mid ++ ext
    /\ (ciEqual (lit "/tmp/") dir \/ ciEqual (lit "/var/") dir)
    /\ mid <> [] /\ forallb pathChar mid = true
    /\ ciEqual (lit ".png") ext.

(** * Properties *)

(** ** Strings *)

Lemma startsWith_prefix (s p : jsstring) :
  startsWith s p = true <-> exists rest, s = p ++ rest.
Proof.
  revert s; induction p as [|x p IH]; intros s; simpl.
  - split; [intros _; exists s; reflexivity | reflexivity].
  - destruct s as [|y s]; simpl.
    + split; [discriminate | intros [rest H]; discriminate].
    + rewrite andb_true_iff, N.eqb_eq, IH. split.
      * intros [-> [rest ->]]. exists rest. reflexivity.
      * intros [rest H]. injection H as -> ->. split; [reflexivity | exists rest; reflexivity].
Qed.

Lemma startsWith_app (p rest : jsstring) : startsWith (p ++ rest) p = true.
Proof. apply startsWith_prefix. exists rest. reflexivity. Qed.

Lemma jseqb_eq (a b : jsstring) : JS.eqb a b = true <-> a = b.
Proof.
  unfold JS.eqb. destruct (list_eq_dec N.eq_dec a b); split; congruence.
Qed.

Lemma jseqb_refl (a : jsstring) : JS.eqb a a = true.
Proof. apply jseqb_eq. reflexivity. Qed.

Lemma eqbOpt_true (o : option jsstring) (b : jsstring) : eqbOpt o b = true <-> o = Some b.
Proof.
  destruct o as [a|]; simpl.
  - rewrite jseqb_eq. split; congruence.
  - split; discriminate.
Qed.

Lemma dropWhile_suffix (p : codeunit -> bool) (s : jsstring) :
  exists a, s = a ++ dropWhile p s /\ forallb p a = true.
Proof.
  induction s as [|c s [a [Ha Hp]]]; simpl.
  - exists []. split; reflexivity.
  - destruct (p c) eqn:E.
    + exists (c :: a). simpl. rewrite E, Hp. split; [f_equal; exact Ha | reflexivity].
    + exists []. split; reflexivity.
Qed.

(** [trim] only removes code units at both ends. *)
Lemma trim_infix (s : jsstring) : exists a b, s = a ++ trim s ++ b.
Proof.
  unfold trim, trimEnd, trimStart.
  destruct (dropWhile_suffix isWhiteSpace s) as [a [Ha _]].
  destruct (dropWhile_suffix isWhiteSpace (rev (dropWhile isWhiteSpace s))) as [b [Hb _]].
  exists a, (rev b).
  rewrite Ha at 1. f_equal.
  rewrite <- rev_app_distr, <- Hb, rev_involutive. reflexivity.
Qed.

Lemma truthy_nonempty (s : jsstring) : truthy s = true <-> s <> [].
Proof. destruct s; simpl; split; congruence. Qed.

(** ** Lines of the reviewer's output *)

Lemma split_nonempty (sep : codeunit) (s : jsstring) : split sep s <> [].
Proof.
  destruct s as [|c s]; simpl; [discriminate|].
  destruct (c =? sep)%N; [discriminate|].
  destruct (split sep s); discriminate.
Qed.

(** Splitting a text received in two pieces: the last, unfinished line of
    the first piece is continued by the second piece. *)
Lemma split_app (sep : codeunit) (x y : jsstring) :
  split sep (x ++ y)
  = removelast (split sep x) ++ split sep (last (split sep x) [] ++ y).
Proof.
  induction x as [|c x IH]; [reflexivity|].
  cbn [app split]. destruct (c =? sep)%N eqn:E.
  - rewrite IH. pose proof (split_nonempty sep x) as Hne.
    destruct (split sep x) as [|f rest]; [congruence|]. reflexivity.
  - rewrite IH. pose proof (split_nonempty sep x) as Hne.
    destruct (split sep x) as [|f [|g rest]]; [congruence| |].
    + cbn [removelast last app split]. rewrite E. reflexivity.
    + reflexivity.
Qed.

(** [s.split(sep).join(sep)] is [s]. *)
Lemma join_split (sep : codeunit) (s : jsstring) : join [sep] (split sep s) = s.
Proof.
  induction s as [|c s IH]; [reflexivity|].
  cbn [split]. pose proof (split_nonempty sep s) as Hne.
  destruct (c =? sep)%N eqn:E.
  - apply N.eqb_eq in E. subst c.
    destruct (split sep s) as [|f rest]; [congruence|].
    change (join [sep] ([] :: f :: rest)) with (sep :: join [sep] (f :: rest)).
    rewrite IH. reflexivity.
  - destruct (split sep s) as [|f [|g rest]]; [congruence| |].
    + simpl in *. rewrite IH. reflexivity.
    + change (join [sep] ((c :: f) :: g :: rest))
        with (c :: join [sep] (f :: g :: rest)).
      rewrite IH. reflexivity.
Qed.

Lemma join_In (sep : jsstring) (parts : list jsstring) (x : jsstring) :
  In x parts -> exists a b, join sep parts = a ++ x ++ b.
Proof.
  induction parts as [|p parts IH]; [intros []|].
  intros [-> | H].
  - destruct parts as [|q parts].
    + exists [], []. simpl. rewrite app_nil_r. reflexivity.
    + exists [], (sep ++ join sep (q :: parts)). reflexivity.
  - destruct parts as [|q parts]; [destruct H|].
    destruct (IH H) as [a [b Hab]].
    exists (p ++ sep ++ a), b.
    change (join sep (p :: q :: parts)) with (p ++ sep ++ join sep (q :: parts)).
    rewrite Hab. repeat rewrite <- app_assoc. reflexivity.
Qed.

Lemma join_last (sep : jsstring) (parts : list jsstring) :
  exists a, join sep parts = a ++ last parts [].
Proof.
  induction parts as [|p parts IH]; [exists []; reflexivity|].
  destruct parts as [|q parts].
  - exists []. reflexivity.
  - destruct IH as [a Ha]. exists (p ++ sep ++ a).
    change (join sep (p :: q :: parts)) with (p ++ sep ++ join sep (q :: parts)).
    rewrite Ha. repeat rewrite <- app_assoc. reflexivity.
Qed.

Lemma last_app_nonempty (A : Type) (l l' : list A) (d : A) :
  l' <> [] -> last (l ++ l') d = last l' d.
Proof.
  intros Hne. induction l as [|x l IH]; [reflexivity|].
  cbn [app]. destruct (l ++ l') as [|y r] eqn:E.
  - destruct l; [simpl in E; congruence | discriminate].
  - rewrite <- IH. reflexivity.
Qed.

Lemma In_removelast_In (A : Type) (x : A) (l : list A) : In x (removelast l) -> In x l.
Proof.
  induction l as [|y l IH]; [intros []|].
  destruct l as [|z l]; [intros []|].
  intros [-> | H]; [left; reflexivity | right; apply IH; exact H].
Qed.

(** Every line cut out of a text is a part of it, and the unfinished rest
    is its end. *)
Lemma split_In (sep : codeunit) (s line : jsstring) :
  In line (split sep s) -> exists a b, s = a ++ line ++ b.
Proof.
  intros H. destruct (join_In [sep] _ _ H) as [a [b Hab]].
  rewrite join_split in Hab. exists a, b. exact Hab.
Qed.

Lemma split_last (sep : codeunit) (s : jsstring) :
  exists a, s = a ++ last (split sep s) [].
Proof.
  destruct (join_last [sep] (split sep s)) as [a Ha].
  rewrite join_split in Ha. exists a. exact Ha.
Qed.

(** ** Loops that may throw *)

Lemma foldM_app (A B : Type) (f : A -> B -> option A) (l1 l2 : list B) (a : A) :
  foldM f (l1 ++ l2) a
  = match foldM f l1 a with Some a' => foldM f l2 a' | None => None end.
Proof.
  revert a. induction l1 as [|x l1 IH]; intros a; [reflexivity|].
  cbn [app foldM]. destruct (f a x) as [a'|]; [apply IH | reflexivity].
Qed.

(** What every round of the loop keeps, the loop keeps. *)
Lemma foldM_inv (A B : Type) (f : A -> B -> option A) (P : A -> Prop) (l : list B) :
  (forall a x a', In x l -> f a x = Some a' -> P a -> P a') ->
  forall a a', foldM f l a = Some a' -> P a -> P a'.
Proof.
  induction l as [|x l IH]; intros Hstep a a' H Ha.
  - injection H as <-. exact Ha.
  - cbn [foldM] in H. destruct (f a x) as [a1|] eqn:E; [|discriminate].
    apply (IH (fun a0 y a0' Hy => Hstep a0 y a0' (or_intror Hy)) a1 a' H).
    exact (Hstep a x a1 (or_introl eq_refl) E Ha).
Qed.


(** ** C10: which prompts reset the per-request state *)

(** C10. The [before_agent_start] handler resets [reviewsThisPrompt],
    [lastUserPromptTime] and [lastVerdictApproved] exactly when the prompt
    does not start with ["[Critic"]: a prompt without the prefix resets the
    three fields, a prompt with the prefix (a genuine one included) leaves
    the runtime state as it is, and both messages the critic sends, the
    feedback follow-up and the stop instruction, carry the prefix and so
    never reset it. *)
Theorem critic_prefix_decides_reset :
  forall (prompt : jsstring) (now : Z) (rt : CriticRuntimeState),
    ((~ exists rest, prompt = lit "[Critic" ++ rest) ->
       reviewsThisPrompt (before_agent_start prompt now rt) = 0%Z
       /\ lastUserPromptTime (before_agent_start prompt now rt) = now
       /\ lastVerdictApproved (before_agent_start prompt now rt) = None)
    /\ ((exists rest, prompt = lit "[Critic" ++ rest) ->
          before_agent_start prompt now rt = rt)
    /\ (forall r : CriticResult, before_agent_start (feedbackMessage r) now rt = rt)
    /\ (forall st : CriticState, before_agent_start (stopMessage st) now rt = rt).
Proof.
  intros prompt now rt. unfold before_agent_start.
  split; [|split; [|split]].
  - intros H. destruct (startsWith prompt (lit "[Critic")) eqn:E; simpl.
    + exfalso. apply H. apply startsWith_prefix. exact E.
    + repeat split.
  - intros H. apply startsWith_prefix in H. rewrite H. reflexivity.
  - intros r.
    replace (startsWith (feedbackMessage r) (lit "[Critic")) with true; [reflexivity|].
    symmetry. apply startsWith_prefix. exists (lit " feedback]: " ++ critique r). reflexivity.
  - intros st.
    replace (startsWith (stopMessage st) (lit "[Critic")) with true; [reflexivity|].
    symmetry. apply startsWith_prefix.
    exists (lit "]: STOP. Maximum review attempts (" ++ ofZ (maxReviewsPerPrompt st)
            ++ lit ") reached without approval. Wait for user input before continuing.").
    reflexivity.
Qed.

(** ** C9: the context curator in [results_only] mode *)

Lemma sliceLast_one_snoc (A : Type) (l : list A) (x : A) : sliceLast 1 (l ++ [x]) = [x].
Proof.
  unfold sliceLast. rewrite length_app. simpl.
  replace (List.length l + 1 - 1)%nat with (List.length l) by lia.
  rewrite skipn_app, skipn_all, Nat.sub_diag. reflexivity.
Qed.

(** C9, as stated, fails on the empty conversation: nothing is emitted, so
    the output is not the content of an entry of the input. *)
Lemma results_only_empty_slice :
  formatRecentContext [] results_only defaultMaxMessages = []
  /\ ~ (exists m : AgentMessage,
          In m [] /\
          formatRecentContext [] results_only defaultMaxMessages
          = join (nl ++ nl) (formatMessage results_only m)).
Proof.
  split; [reflexivity|]. intros [m [H _]]. exact H.
Qed.

(** C9, amended. For every non-empty list of entries, of whatever length,
    the curator in [results_only] mode emits exactly the content of the last
    entry; for the empty list it emits the empty string. *)
Theorem results_only_emits_last_entry :
  forall (earlier : list AgentMessage) (lastEntry : AgentMessage) (maxMessages : nat),
    formatRecentContext (earlier ++ [lastEntry]) results_only maxMessages
    = join (nl ++ nl) (formatMessage results_only lastEntry)
    /\ formatRecentContext (earlier ++ [lastEntry]) results_only maxMessages
       = formatRecentContext [lastEntry] results_only maxMessages
    /\ formatRecentContext [] results_only maxMessages = [].
Proof.
  intros earlier lastEntry maxMessages. unfold formatRecentContext.
  rewrite sliceLast_one_snoc. simpl. rewrite app_nil_r. repeat split.
Qed.

(** ** C2: critic reviews are displayed and never reach the model *)

Lemma on_context_In (messages : list AgentMessage) (m : AgentMessage) :
  In m (on_context messages) <-> In m messages /\ customTypeOf m <> Some criticReview.
Proof.
  unfold on_context. rewrite filter_In, negb_true_iff.
  split; intros [H1 H2]; split; try exact H1.
  - intros E. apply eqbOpt_true in E. congruence.
  - destruct (eqbOpt (customTypeOf m) criticReview) eqn:E; [|reflexivity].
    apply eqbOpt_true in E. contradiction.
Qed.

Lemma on_context_app (a b : list AgentMessage) :
  on_context (a ++ b) = on_context a ++ on_context b.
Proof. apply filter_app. Qed.

Lemma on_context_drops_review (content : jsstring) :
  on_context [CustomMessage criticReview content] = [].
Proof. unfold on_context. cbn [filter customTypeOf eqbOpt]. rewrite jseqb_refl. reflexivity. Qed.

Lemma runCriticSync_returns (parse : jsstring -> option JsonEvent) (timeout : Z) (r : SyncRun) :
  exists result, runCriticSync parse timeout r = Returned result.
Proof.
  unfold runCriticSync, tryCatch.
  destruct (runCriticSyncBody parse timeout r emptyResult); eexists; reflexivity.
Qed.

(** What [runCritic] hands to its caller is a returned outcome: the
    [catch] block returns too. *)
Lemma runCritic_never_throws (parse : jsstring -> option JsonEvent) (timeout : Z)
  (r : AsyncRun) (answer : Outcome CriticResult) :
  runCritic parse timeout r = Some answer -> exists result, answer = Returned result.
Proof.
  unfold runCritic, tryCatch.
  destruct (runCriticBody parse timeout r emptyResult) as [[result|result e]|];
    intros H; [| |discriminate]; injection H as <-; eexists; reflexivity.
Qed.

Lemma afterReview_displays (st : CriticState) (rt : CriticRuntimeState)
  (contextStr : jsstring) (result : CriticResult) :
  exists rest,
    effects (afterReview st rt contextStr (Returned result))
    = SendMessage criticReview (critique result)
        {| detailsResult := result; detailsContext := contextStr |} :: rest.
Proof.
  unfold afterReview.
  destruct (negb (approved result) && negb (hasError result) && truthy (trim (critique result)));
    [destruct (_ <? _)%Z|]; eexists; reflexivity.
Qed.

Section DisplayFacts.

Variable parse : jsstring -> option JsonEvent.

Lemma displays_app (a b : list Effect) : displays (a ++ b) = (displays a + displays b)%nat.
Proof. unfold displays. rewrite filter_app, length_app. reflexivity. Qed.

Lemma runs_app (a b : list Effect) :
  reviewerRuns (a ++ b) = (reviewerRuns a + reviewerRuns b)%nat.
Proof. unfold reviewerRuns. rewrite filter_app, length_app. reflexivity. Qed.

Lemma awaiting_app (a b : list Suspended) : awaiting (a ++ b) = (awaiting a + awaiting b)%nat.
Proof. unfold awaiting. rewrite filter_app, length_app. reflexivity. Qed.

Lemma awaiting_removeNth (l : list Suspended) (i : nat) (k : Suspended) :
  nth_error l i = Some k ->
  awaiting l = (awaiting (removeNth i l) + if isAwaitRunCritic k then 1 else 0)%nat.
Proof.
  revert i. induction l as [|x l IH]; intros i H.
  - destruct i; discriminate.
  - destruct i as [|i]; simpl in H.
    + injection H as ->. unfold awaiting. simpl. destruct (isAwaitRunCritic k); simpl; lia.
    + specialize (IH i H). unfold awaiting in *. simpl.
      destruct (isAwaitRunCritic x); simpl; lia.
Qed.

(** A stretch that starts from the reviewer's answer displays it once. *)
Lemma afterReview_counts (st : CriticState) (rt : CriticRuntimeState)
  (contextStr : jsstring) (result : CriticResult) :
  let s := afterReview st rt contextStr (Returned result) in
  displays (effects s) = 1%nat /\ reviewerRuns (effects s) = 0%nat
  /\ awaiting (match suspended s with Some k => [k] | None => [] end) = 0%nat.
Proof.
  unfold afterReview, displays, reviewerRuns, awaiting.
  destruct (negb (approved result) && negb (hasError result) && truthy (trim (critique result)));
    [destruct (_ <? _)%Z|]; cbn [effects suspended filter isDisplay isReviewerRun isAwaitRunCritic];
    rewrite jseqb_refl; repeat split.
Qed.

(** Every call of [triggerCritic] displays what it runs, unless it is
    still waiting for the answer. *)
Lemma triggerCritic_counts (st : CriticState) (rt : CriticRuntimeState)
  (contextStr : jsstring) (useSync : bool) (r : SyncRun) :
  let s := triggerCritic parse st rt contextStr useSync r in
  reviewerRuns (effects s)
  = (displays (effects s)
     + awaiting (match suspended s with Some k => [k] | None => [] end))%nat.
Proof.
  unfold triggerCritic.
  destruct (negb (enabled st)); [reflexivity|].
  destruct (isProcessingCritic rt); [reflexivity|].
  destruct (maxReviewsPerPrompt st <=? reviewsThisPrompt rt)%Z.
  { destruct (lastVerdictApproved rt) as [[|]|]; reflexivity. }
  destruct useSync; [|reflexivity].
  destruct (runCriticSync_returns parse (timeoutMs st) r) as [result ->].
  destruct (afterReview_counts st (beginReview rt) contextStr result) as [Hd [Hr Ha]].
  cbn [effects suspended].
  change (RunReviewer true contextStr
          :: effects (afterReview st (beginReview rt) contextStr (Returned result)))
    with ([RunReviewer true contextStr]
          ++ effects (afterReview st (beginReview rt) contextStr (Returned result))).
  rewrite runs_app, displays_app, Hd, Hr, Ha. reflexivity.
Qed.

Lemma step_counts (s : Session) (e : Event) :
  reviewerRuns (trace s) = (displays (trace s) + awaiting (pending s))%nat ->
  reviewerRuns (trace (step parse s e))
  = (displays (trace (step parse s e)) + awaiting (pending (step parse s e)))%nat.
Proof.
  intros H.
  assert (Hcall : forall c useSync r,
    reviewerRuns (trace (call parse s c useSync r))
    = (displays (trace (call parse s c useSync r))
       + awaiting (pending (call parse s c useSync r)))%nat).
  { intros [c|] useSync r; [|exact H]. cbn [call commit trace pending].
    rewrite runs_app, displays_app, awaiting_app, triggerCritic_counts. lia. }
  destruct e as [c|prompt now|branch r|toolName inputJson content hasImages branch r|msgs r
                |contextStr useSync r|i r|i]; cbn [step]; try apply Hcall; try exact H.
  - destruct (nth_error (pending s) i) as [[contextStr timeout|feedback]|] eqn:E;
      try exact H.
    unfold resumeRunCritic.
    destruct (runCritic parse timeout r) as [answer|] eqn:Erun; [|exact H].
    destruct (runCritic_never_throws _ _ _ Erun) as [result ->].
    cbn [commit trace pending].
    destruct (afterReview_counts (config s) (runtime s) contextStr result) as [Hd [Hr Ha]].
    rewrite runs_app, displays_app, awaiting_app, Hd, Hr, Ha.
    rewrite (awaiting_removeNth _ _ E) in H. cbn [isAwaitRunCritic] in H. lia.
  - destruct (nth_error (pending s) i) as [[contextStr timeout|feedback]|] eqn:E;
      try exact H.
    cbn [commit trace pending afterDelay effects suspended].
    rewrite runs_app, displays_app, awaiting_app.
    rewrite (awaiting_removeNth _ _ E) in H. cbn [isAwaitRunCritic] in H.
    unfold reviewerRuns, displays, awaiting in *. simpl. lia.
Qed.

Lemma run_counts (events : list Event) (s : Session) :
  reviewerRuns (trace s) = (displays (trace s) + awaiting (pending s))%nat ->
  reviewerRuns (trace (run parse s events))
  = (displays (trace (run parse s events)) + awaiting (pending (run parse s events)))%nat.
Proof.
  revert s. induction events as [|e events IH]; intros s H; [exact H|].
  apply (IH (step parse s e)). apply step_counts. exact H.
Qed.

End DisplayFacts.

(** C2. The [context] handler keeps exactly the entries whose [customType]
    is not ["critic-review"], in their order, and a context to which a
    displayed outcome was appended is assembled as if it had not been; every
    outcome of a review, whatever the trigger mode and whether the blocking
    or the awaited runner is used, is sent to the display channel under that
    [customType] (the awaited runner gives no outcome when one of its
    listeners throws, and the call that awaits it is then not resumed); and
    in every session, whatever the events,
    handlers and trigger modes, each invocation of a runner has had its
    outcome displayed, unless its call still waits for the answer. *)
Theorem critic_review_filtered_from_context :
  forall (parse : jsstring -> option JsonEvent) (messages : list AgentMessage),
    (forall m, In m (on_context messages)
               <-> In m messages /\ customTypeOf m <> Some criticReview)
    /\ (forall a b content,
          messages = a ++ [CustomMessage criticReview content] ++ b ->
          on_context messages = on_context a ++ on_context b)
    /\ (forall content, on_context (messages ++ [CustomMessage criticReview content])
                        = on_context messages)
    /\ (forall st rt contextStr run,
          In (RunReviewer true contextStr)
             (effects (triggerCritic parse st rt contextStr true run)) ->
          exists result,
            runCriticSync parse (timeoutMs st) run = Returned result
            /\ In (SendMessage criticReview (critique result)
                     {| detailsResult := result; detailsContext := contextStr |})
                  (effects (triggerCritic parse st rt contextStr true run)))
    /\ (forall st rt contextStr timeout run,
          match runCritic parse timeout run with
          | Some answer =>
              exists result stretch,
                answer = Returned result
                /\ resumeRunCritic parse st rt contextStr timeout run = Some stretch
                /\ In (SendMessage criticReview (critique result)
                         {| detailsResult := result; detailsContext := contextStr |})
                      (effects stretch)
          | None => resumeRunCritic parse st rt contextStr timeout run = None
          end)
    /\ (forall flags stateEntry events,
          reviewerRuns (trace (run parse (boot flags stateEntry) events))
          = (displays (trace (run parse (boot flags stateEntry) events))
             + awaiting (pending (run parse (boot flags stateEntry) events)))%nat).
Proof.
  intros parse messages. split; [|split; [|split; [|split; [|split]]]].
  - intros m. apply on_context_In.
  - intros a b content ->. rewrite !on_context_app, on_context_drops_review. reflexivity.
  - intros content. rewrite on_context_app, on_context_drops_review. apply app_nil_r.
  - intros st rt contextStr r H.
    destruct (runCriticSync_returns parse (timeoutMs st) r) as [result Hr].
    exists result. split; [exact Hr|].
    unfold triggerCritic in *.
    destruct (negb (enabled st)); [simpl in H; contradiction|].
    destruct (isProcessingCritic rt); [simpl in H; contradiction|].
    destruct (maxReviewsPerPrompt st <=? reviewsThisPrompt rt)%Z.
    + simpl in H. destruct (lastVerdictApproved rt) as [[|]|]; simpl in H;
        try contradiction. destruct H as [H|[]]. discriminate.
    + simpl. right. rewrite Hr.
      destruct (afterReview_displays st (beginReview rt) contextStr result) as [rest ->].
      left. reflexivity.
  - intros st rt contextStr timeout r. unfold resumeRunCritic.
    destruct (runCritic parse timeout r) as [answer|] eqn:Erun; [|reflexivity].
    destruct (runCritic_never_throws _ _ _ Erun) as [result ->].
    exists result. eexists. split; [reflexivity|]. split; [reflexivity|].
    destruct (afterReview_displays st rt contextStr result) as [rest ->].
    left. reflexivity.
  - intros flags stateEntry events. apply run_counts. reflexivity.
Qed.

(** ** The session invariant *)

Section MachineFacts.

Variable parse : jsstring -> option JsonEvent.

Lemma command_keeps_cap (c : Command) (st : CriticState) :
  maxReviewsPerPrompt (command c st) = maxReviewsPerPrompt st.
Proof. destruct c; reflexivity. Qed.

Lemma session_start_cap_positive (flags : Flags) (entry : option StateEntry)
  (st : CriticState) :
  (0 < maxReviewsPerPrompt st)%Z ->
  (0 < maxReviewsPerPrompt (session_start flags entry st))%Z.
Proof.
  intros H. unfold session_start.
  destruct entry; simpl; destruct (flagMaxReviews flags) as [n|]; try exact H;
    destruct (0 <? n)%Z eqn:E; try exact H; apply Z.ltb_lt; exact E.
Qed.

Lemma boot_invariant (flags : Flags) (entry : option StateEntry) :
  Invariant (boot flags entry).
Proof.
  assert (P : (0 < maxReviewsPerPrompt (session_start flags entry initialState))%Z)
    by (apply session_start_cap_positive; reflexivity).
  constructor; simpl.
  - lia.
  - exact P.
  - lia.
  - split; [discriminate | intros H; contradiction].
Qed.

Lemma afterReview_flag (st : CriticState) (rt : CriticRuntimeState) (contextStr : jsstring)
  (answer : Outcome CriticResult) :
  let s := afterReview st rt contextStr answer in
  reviewsThisPrompt (leaves s) = reviewsThisPrompt rt
  /\ match suspended s with
     | Some (AwaitDelay _) => isProcessingCritic (leaves s) = isProcessingCritic rt
     | Some (AwaitRunCritic _ _) => False
     | None => isProcessingCritic (leaves s) = false
     end.
Proof.
  unfold afterReview. destruct answer as [result|e]; simpl.
  - destruct (negb (approved result) && negb (hasError result) && truthy (trim (critique result)));
      [destruct (_ <? _)%Z|]; simpl; split; reflexivity.
  - split; reflexivity.
Qed.

Lemma pending_singleton (A : Type) (l : list A) (i : nat) (x : A) :
  (List.length l <= 1)%nat -> nth_error l i = Some x -> l = [x] /\ removeNth i l = [].
Proof.
  intros Hlen Hnth. destruct l as [|y [|z l]]; simpl in Hlen; try lia.
  - destruct i; discriminate.
  - destruct i as [|i]; simpl in Hnth.
    + injection Hnth as ->. split; reflexivity.
    + destruct i; discriminate.
Qed.

Lemma triggerCritic_invariant (s : Session) (contextStr : jsstring) (useSync : bool)
  (r : SyncRun) :
  Invariant s ->
  Invariant (commit s (pending s) (triggerCritic parse (config s) (runtime s) contextStr useSync r)).
Proof.
  intros [Hcap Hpos Hone Hflag]. unfold triggerCritic.
  destruct (negb (enabled (config s))).
  { constructor; simpl; rewrite ?app_nil_r; assumption. }
  destruct (isProcessingCritic (runtime s)) eqn:Eflag.
  { constructor; simpl; rewrite ?app_nil_r, ?Eflag; assumption. }
  destruct (maxReviewsPerPrompt (config s) <=? reviewsThisPrompt (runtime s))%Z eqn:Ecap.
  { constructor; simpl; rewrite ?app_nil_r, ?Eflag; assumption. }
  assert (Hnil : pending s = []).
  { destruct (pending s) as [|k l] eqn:E; [reflexivity|].
    assert (false = true) by (apply Hflag; discriminate). discriminate. }
  apply Z.leb_gt in Ecap.
  destruct useSync.
  - pose proof (afterReview_flag (config s) (beginReview (runtime s)) contextStr
                  (runCriticSync parse (timeoutMs (config s)) r)) as [Hrev Hsusp].
    constructor; simpl; rewrite ?Hnil; simpl.
    + rewrite Hrev. simpl. lia.
    + exact Hpos.
    + destruct (suspended _); simpl; lia.
    + destruct (suspended _) as [[|]|]; simpl in *.
      * contradiction.
      * rewrite Hsusp. split; [discriminate | reflexivity].
      * rewrite Hsusp. split; [discriminate | intros H; contradiction].
  - constructor; simpl; rewrite ?Hnil; simpl.
    + lia.
    + exact Hpos.
    + lia.
    + split; [discriminate | reflexivity].
Qed.

Lemma call_invariant (s : Session) (contextStr : option jsstring) (useSync : bool)
  (r : SyncRun) :
  Invariant s -> Invariant (call parse s contextStr useSync r).
Proof.
  intros H. destruct contextStr as [c|]; simpl; [|exact H].
  apply triggerCritic_invariant. exact H.
Qed.

Lemma step_invariant (s : Session) (e : Event) : Invariant s -> Invariant (step parse s e).
Proof.
  intros H.
  destruct e as [c|prompt now|branch r|toolName inputJson content hasImages branch r|msgs r
                |contextStr useSync r|i r|i]; cbn [step]; try (apply call_invariant; exact H).
  - destruct H as [Hcap Hpos Hone Hflag].
    constructor; simpl; rewrite ?command_keeps_cap; assumption.
  - destruct H as [Hcap Hpos Hone Hflag]. unfold before_agent_start.
    destruct (negb (startsWith prompt (lit "[Critic")));
      constructor; simpl; try assumption. lia.
  - destruct (nth_error (pending s) i) as [[contextStr timeout|feedback]|] eqn:E;
      try exact H.
    unfold resumeRunCritic.
    destruct (runCritic parse timeout r) as [answer|]; [|exact H].
    destruct H as [Hcap Hpos Hone Hflag].
    destruct (pending_singleton (pending s) i Hone E) as [Hp Hr].
    pose proof (afterReview_flag (config s) (runtime s) contextStr answer) as [Hrev Hsusp].
    assert (Hset : isProcessingCritic (runtime s) = true)
      by (apply Hflag; rewrite Hp; discriminate).
    constructor; simpl; rewrite ?Hr; simpl.
    + rewrite Hrev. exact Hcap.
    + exact Hpos.
    + destruct (suspended _); simpl; lia.
    + destruct (suspended _) as [[|]|]; simpl in *.
      * contradiction.
      * rewrite Hsusp, Hset. split; [discriminate | reflexivity].
      * rewrite Hsusp. split; [discriminate | intros C; contradiction].
  - destruct (nth_error (pending s) i) as [[contextStr timeout|feedback]|] eqn:E;
      try exact H.
    destruct H as [Hcap Hpos Hone Hflag].
    destruct (pending_singleton (pending s) i Hone E) as [Hp Hr].
    constructor; simpl; rewrite ?Hr; simpl; try assumption.
    + lia.
    + split; [discriminate | intros C; contradiction].
Qed.

Lemma run_invariant (events : list Event) (s : Session) :
  Invariant s -> Invariant (run parse s events).
Proof.
  revert s. induction events as [|e events IH]; intros s H; simpl; [exact H|].
  apply IH. apply step_invariant. exact H.
Qed.

End MachineFacts.

(** ** C1: the review cap *)

Section CapFacts.

Variable parse : jsstring -> option JsonEvent.

Lemma afterReview_runs_nothing (st : CriticState) (rt : CriticRuntimeState)
  (contextStr : jsstring) (answer : Outcome CriticResult) :
  reviewerRuns (effects (afterReview st rt contextStr answer)) = 0%nat.
Proof.
  unfold afterReview. destruct answer as [result|e]; [|reflexivity].
  destruct (negb (approved result) && negb (hasError result) && truthy (trim (critique result)));
    [destruct (_ <? _)%Z|]; reflexivity.
Qed.

(** At the cap, a call of [triggerCritic] invokes no runner and leaves the
    runtime state as it is. *)
Lemma triggerCritic_refuses_at_cap (st : CriticState) (rt : CriticRuntimeState)
  (contextStr : jsstring) (useSync : bool) (r : SyncRun) :
  (maxReviewsPerPrompt st <= reviewsThisPrompt rt)%Z ->
  let s := triggerCritic parse st rt contextStr useSync r in
  leaves s = rt /\ suspended s = None /\ reviewerRuns (effects s) = 0%nat.
Proof.
  intros H. unfold triggerCritic.
  destruct (negb (enabled st)); [repeat split|].
  destruct (isProcessingCritic rt); [repeat split|].
  apply Z.leb_le in H. rewrite H. simpl.
  destruct (lastVerdictApproved rt) as [[|]|]; repeat split.
Qed.

(** One event that does not start a new request, taken at the cap. *)
Lemma step_at_cap (s : Session) (e : Event) :
  (maxReviewsPerPrompt (config s) <= reviewsThisPrompt (runtime s))%Z ->
  startsRequest e = false ->
  reviewsThisPrompt (runtime (step parse s e)) = reviewsThisPrompt (runtime s)
  /\ maxReviewsPerPrompt (config (step parse s e)) = maxReviewsPerPrompt (config s)
  /\ exists added, trace (step parse s e) = trace s ++ added /\ reviewerRuns added = 0%nat.
Proof.
  intros Hcap Hreq.
  assert (Hcall : forall c useSync r,
    reviewsThisPrompt (runtime (call parse s c useSync r)) = reviewsThisPrompt (runtime s)
    /\ maxReviewsPerPrompt (config (call parse s c useSync r)) = maxReviewsPerPrompt (config s)
    /\ exists added, trace (call parse s c useSync r) = trace s ++ added
                     /\ reviewerRuns added = 0%nat).
  { intros [c|] useSync r; simpl.
    - destruct (triggerCritic_refuses_at_cap (config s) (runtime s) c useSync r Hcap)
        as [Hl [_ Hr]].
      rewrite Hl. repeat split. eexists. split; [reflexivity | exact Hr].
    - repeat split. exists []. rewrite app_nil_r. split; reflexivity. }
  destruct e as [c|prompt now|branch r|toolName inputJson content hasImages branch r|msgs r
                |contextStr useSync r|i r|i]; cbn [step]; try apply Hcall.
  - simpl. rewrite command_keeps_cap. repeat split.
    exists []. rewrite app_nil_r. split; reflexivity.
  - unfold startsRequest in Hreq. simpl. unfold before_agent_start. rewrite Hreq. repeat split.
    exists []. rewrite app_nil_r. split; reflexivity.
  - destruct (nth_error (pending s) i) as [[contextStr timeout|feedback]|].
    + unfold resumeRunCritic.
      destruct (runCritic parse timeout r) as [answer|].
      * simpl.
        destruct (afterReview_flag (config s) (runtime s) contextStr answer) as [Hrev _].
        rewrite Hrev. repeat split. eexists. split; [reflexivity|].
        apply afterReview_runs_nothing.
      * repeat split. exists []. rewrite app_nil_r. split; reflexivity.
    + repeat split. exists []. rewrite app_nil_r. split; reflexivity.
    + repeat split. exists []. rewrite app_nil_r. split; reflexivity.
  - destruct (nth_error (pending s) i) as [[contextStr timeout|feedback]|].
    + repeat split. exists []. rewrite app_nil_r. split; reflexivity.
    + simpl. repeat split. eexists. split; reflexivity.
    + repeat split. exists []. rewrite app_nil_r. split; reflexivity.
Qed.

Lemma run_at_cap (events : list Event) (s : Session) :
  (maxReviewsPerPrompt (config s) <= reviewsThisPrompt (runtime s))%Z ->
  existsb startsRequest events = false ->
  reviewsThisPrompt (runtime (run parse s events)) = reviewsThisPrompt (runtime s)
  /\ maxReviewsPerPrompt (config (run parse s events)) = maxReviewsPerPrompt (config s)
  /\ exists added, trace (run parse s events) = trace s ++ added
                   /\ reviewerRuns added = 0%nat.
Proof.
  revert s. induction events as [|e events IH]; intros s Hcap Hreq; simpl.
  - repeat split. exists []. rewrite app_nil_r. split; reflexivity.
  - simpl in Hreq. apply orb_false_iff in Hreq. destruct Hreq as [He Hrest].
    destruct (step_at_cap s e Hcap He) as [Hrev [Hmax [added1 [Ht1 Hr1]]]].
    destruct (IH (step parse s e)) as [Hrev' [Hmax' [added2 [Ht2 Hr2]]]].
    + rewrite Hrev, Hmax. exact Hcap.
    + exact Hrest.
    + unfold run in *. rewrite Hrev', Hmax', Hrev, Hmax. repeat split.
      exists (added1 ++ added2). rewrite Ht2, Ht1, app_assoc. split; [reflexivity|].
      rewrite runs_app, Hr1, Hr2. reflexivity.
Qed.

End CapFacts.

(** C1. In every session, after any sequence of events, the counter
    [reviewsThisPrompt] is at most [maxReviewsPerPrompt]; once the two are
    equal, whatever events follow that do not start a new user request,
    triggers included, invoke no runner and leave the counter at the cap;
    and a [before_agent_start] with a prompt that is not critic-originated
    sets the counter to 0. *)
Theorem reviews_never_exceed_cap :
  forall (parse : jsstring -> option JsonEvent) (flags : Flags)
         (stateEntry : option StateEntry) (events : list Event),
    let s := run parse (boot flags stateEntry) events in
    (reviewsThisPrompt (runtime s) <= maxReviewsPerPrompt (config s))%Z
    /\ (reviewsThisPrompt (runtime s) = maxReviewsPerPrompt (config s) ->
        forall later : list Event,
          existsb startsRequest later = false ->
          reviewsThisPrompt (runtime (run parse s later))
          = maxReviewsPerPrompt (config (run parse s later))
          /\ exists added, trace (run parse s later) = trace s ++ added
                           /\ reviewerRuns added = 0%nat)
    /\ (forall prompt now,
          startsWith prompt (lit "[Critic") = false ->
          reviewsThisPrompt (runtime (step parse s (BeforeAgentStart prompt now))) = 0%Z).
Proof.
  intros parse flags stateEntry events s.
  pose proof (run_invariant parse events (boot_invariant flags stateEntry)) as [Hcap _ _ _].
  fold s in Hcap. split; [exact Hcap|split].
  - intros Heq later Hlater.
    destruct (run_at_cap parse later s) as [Hrev [Hmax Hadded]]; [lia | exact Hlater |].
    split; [rewrite Hrev, Hmax; exact Heq | exact Hadded].
  - intros prompt now Hp. simpl. unfold before_agent_start. rewrite Hp. reflexivity.
Qed.

(** C1 on a sample session: with a cap of 1, after one review the counter
    is at the cap, and two more [turn_end] events leave it there and invoke
    no runner. *)
Lemma reviews_never_exceed_cap_witness :
  reviewsThisPrompt
    (runtime (run sampleParse (boot strictFlags None) [TurnEnd sampleBranch blockedRun]))
  = maxReviewsPerPrompt
      (config (run sampleParse (boot strictFlags None) [TurnEnd sampleBranch blockedRun]))
  /\ (reviewsThisPrompt
        (runtime (run sampleParse
                    (run sampleParse (boot strictFlags None) [TurnEnd sampleBranch blockedRun])
                    [TurnEnd sampleBranch blockedRun; TurnEnd sampleBranch blockedRun]))
      = maxReviewsPerPrompt
          (config (run sampleParse
                     (run sampleParse (boot strictFlags None) [TurnEnd sampleBranch blockedRun])
                     [TurnEnd sampleBranch blockedRun; TurnEnd sampleBranch blockedRun]))
      /\ exists added,
           trace (run sampleParse
                    (run sampleParse (boot strictFlags None) [TurnEnd sampleBranch blockedRun])
                    [TurnEnd sampleBranch blockedRun; TurnEnd sampleBranch blockedRun])
           = trace (run sampleParse (boot strictFlags None) [TurnEnd sampleBranch blockedRun])
             ++ added
           /\ reviewerRuns added = 0%nat).
Proof.
  assert (H : reviewsThisPrompt
    (runtime (run sampleParse (boot strictFlags None) [TurnEnd sampleBranch blockedRun]))
  = maxReviewsPerPrompt
      (config (run sampleParse (boot strictFlags None) [TurnEnd sampleBranch blockedRun])))
    by (vm_compute; reflexivity).
  split; [exact H|].
  exact (proj1 (proj2 (reviews_never_exceed_cap sampleParse strictFlags None
                         [TurnEnd sampleBranch blockedRun])) H
           [TurnEnd sampleBranch blockedRun; TurnEnd sampleBranch blockedRun] eq_refl).
Defined.

(** ** C8: one review at a time *)

Lemma triggerCritic_dropped_while_processing (parse : jsstring -> option JsonEvent)
  (st : CriticState) (rt : CriticRuntimeState) (contextStr : jsstring) (useSync : bool)
  (r : SyncRun) :
  isProcessingCritic rt = true ->
  triggerCritic parse st rt contextStr useSync r
  = {| leaves := rt; effects := []; suspended := None |}.
Proof.
  intros H. unfold triggerCritic. rewrite H. destruct (negb (enabled st)); reflexivity.
Qed.

Lemma commit_nothing (s : Session) :
  commit s (pending s) {| leaves := runtime s; effects := []; suspended := None |} = s.
Proof. destruct s. unfold commit. simpl. rewrite !app_nil_r. reflexivity. Qed.

Lemma call_dropped_while_processing (parse : jsstring -> option JsonEvent) (s : Session)
  (contextStr : option jsstring) (useSync : bool) (r : SyncRun) :
  isProcessingCritic (runtime s) = true -> call parse s contextStr useSync r = s.
Proof.
  intros H. destruct contextStr as [c|]; simpl; [|reflexivity].
  rewrite triggerCritic_dropped_while_processing by exact H. apply commit_nothing.
Qed.

Lemma triggerCritic_starts_only_when_idle (parse : jsstring -> option JsonEvent)
  (st : CriticState) (rt : CriticRuntimeState) (contextStr : jsstring) (useSync : bool)
  (r : SyncRun) :
  reviewerRuns (effects (triggerCritic parse st rt contextStr useSync r)) <> 0%nat ->
  isProcessingCritic rt = false.
Proof.
  intros H. destruct (isProcessingCritic rt) eqn:E; [|reflexivity].
  rewrite triggerCritic_dropped_while_processing in H by exact E.
  simpl in H. contradiction.
Qed.

(** C8. In every session at most one call of [triggerCritic] is suspended,
    and the in-flight flag is set exactly while one is; a runner is only
    ever invoked when the flag is clear and no call is suspended; while the
    flag is set, a call of [triggerCritic] does nothing at all (no runner,
    no message, nothing kept for later) and a trigger event leaves the
    session as it is; and every way a review ends, the [catch] path
    included, clears the flag. *)
Theorem at_most_one_review_in_flight :
  forall (parse : jsstring -> option JsonEvent) (flags : Flags)
         (stateEntry : option StateEntry) (events : list Event),
    let s := run parse (boot flags stateEntry) events in
    (List.length (pending s) <= 1)%nat
    /\ (isProcessingCritic (runtime s) = true <-> pending s <> [])
    /\ (forall st rt contextStr useSync r,
          isProcessingCritic rt = true ->
          triggerCritic parse st rt contextStr useSync r
          = {| leaves := rt; effects := []; suspended := None |})
    /\ (forall e, isTrigger e = true -> isProcessingCritic (runtime s) = true ->
                  step parse s e = s)
    /\ (forall e, reviewerRuns (trace (step parse s e)) <> reviewerRuns (trace s) ->
                  isProcessingCritic (runtime s) = false /\ pending s = [])
    /\ (forall st rt contextStr answer,
          match suspended (afterReview st rt contextStr answer) with
          | None => isProcessingCritic (leaves (afterReview st rt contextStr answer)) = false
          | Some (AwaitDelay _) => True
          | Some (AwaitRunCritic _ _) => False
          end)
    /\ (forall rt feedback,
          suspended (afterDelay rt feedback) = None
          /\ isProcessingCritic (leaves (afterDelay rt feedback)) = false)
    /\ (forall e, pending (step parse s e) = [] ->
                  isProcessingCritic (runtime (step parse s e)) = false).
Proof.
  intros parse flags stateEntry events s.
  pose proof (run_invariant parse events (boot_invariant flags stateEntry)) as Hinv.
  fold s in Hinv. pose proof Hinv as [Hcap Hpos Hone Hflag].
  split; [exact Hone|]. split; [exact Hflag|].
  split; [intros; apply triggerCritic_dropped_while_processing; assumption|].
  split; [|split; [|split; [|split]]].
  - intros e He Hset.
    destruct e as [c|prompt now|branch r|toolName inputJson content hasImages branch r|msgs r
                  |contextStr useSync r|i r|i]; try discriminate He; cbn [step];
      apply call_dropped_while_processing; exact Hset.
  - intros e Hruns.
    assert (Hidle : isProcessingCritic (runtime s) = false).
    { destruct (isProcessingCritic (runtime s)) eqn:Eflag; [exfalso|reflexivity].
      apply Hruns.
      destruct e as [c|prompt now|branch r|toolName inputJson content hasImages branch r|msgs r
                    |contextStr useSync r|i r|i]; cbn [step];
        try (rewrite call_dropped_while_processing by exact Eflag; reflexivity);
        try reflexivity.
      - destruct (nth_error (pending s) i) as [[contextStr timeout|feedback]|];
          try reflexivity.
        unfold resumeRunCritic.
        destruct (runCritic parse timeout r) as [answer|]; [|reflexivity].
        simpl. rewrite runs_app.
        rewrite afterReview_runs_nothing. apply Nat.add_0_r.
      - destruct (nth_error (pending s) i) as [[contextStr timeout|feedback]|];
          try reflexivity.
        simpl. rewrite runs_app. apply Nat.add_0_r. }
    split; [exact Hidle|].
    destruct (pending s) as [|k l] eqn:E; [reflexivity|].
    assert (isProcessingCritic (runtime s) = true) by (apply Hflag; discriminate).
    congruence.
  - intros st rt contextStr answer.
    pose proof (afterReview_flag st rt contextStr answer) as [_ H].
    destruct (suspended (afterReview st rt contextStr answer)) as [[|]|];
      [exact H | exact I | exact H].
  - intros rt feedback. split; reflexivity.
  - intros e Hp.
    pose proof (step_invariant parse e Hinv) as [_ _ _ Hflag'].
    destruct (isProcessingCritic (runtime (step parse s e))); [|reflexivity].
    exfalso. apply Hflag'; [reflexivity | exact Hp].
Qed.

(** ** C4: the stop instruction *)

(** C4, as stated, fails.  One user request, a cap of 1: the first
    [turn_end] runs a review that ends BLOCKED, the second is refused and the
    stop instruction is injected, the injected message starts the agent
    again (it carries the critic prefix, so nothing is reset), and the
    [turn_end] that follows is refused and injects the stop instruction a
    second time. *)
Lemma stop_instruction_is_repeated :
  startsRequest (BeforeAgentStart (lit "Fix save()") 1000) = true
  /\ existsb startsRequest
       [TurnEnd sampleBranch blockedRun; TurnEnd sampleBranch blockedRun;
        BeforeAgentStart (stopMessage (config (boot strictFlags None))) 2000;
        TurnEnd sampleBranch blockedRun] = false
  /\ reviewerRuns
       (trace (run sampleParse (boot strictFlags None)
                 [BeforeAgentStart (lit "Fix save()") 1000;
                  TurnEnd sampleBranch blockedRun; TurnEnd sampleBranch blockedRun;
                  BeforeAgentStart (stopMessage (config (boot strictFlags None))) 2000;
                  TurnEnd sampleBranch blockedRun])) = 1%nat
  /\ stopInjections
       (trace (run sampleParse (boot strictFlags None)
                 [BeforeAgentStart (lit "Fix save()") 1000;
                  TurnEnd sampleBranch blockedRun; TurnEnd sampleBranch blockedRun;
                  BeforeAgentStart (stopMessage (config (boot strictFlags None))) 2000;
                  TurnEnd sampleBranch blockedRun])) = 2%nat.
Proof. vm_compute. repeat split. Qed.

Lemma triggerCritic_stop (parse : jsstring -> option JsonEvent) (st : CriticState)
  (rt : CriticRuntimeState) (contextStr : jsstring) (useSync : bool) (r : SyncRun) :
  enabled st = true ->
  isProcessingCritic rt = false ->
  (maxReviewsPerPrompt st <= reviewsThisPrompt rt)%Z ->
  lastVerdictApproved rt = Some false ->
  triggerCritic parse st rt contextStr useSync r
  = {| leaves := rt; effects := [SendUserMessage (stopMessage st) steer]; suspended := None |}.
Proof.
  intros He Hp Hc Hv. unfold triggerCritic.
  apply Z.leb_le in Hc. rewrite He, Hp, Hc, Hv. reflexivity.
Qed.

Lemma refusal_step (parse : jsstring -> option JsonEvent) (s : Session)
  (contextStr : jsstring) (useSync : bool) (r : SyncRun) :
  enabled (config s) = true ->
  isProcessingCritic (runtime s) = false ->
  (maxReviewsPerPrompt (config s) <= reviewsThisPrompt (runtime s))%Z ->
  lastVerdictApproved (runtime s) = Some false ->
  step parse s (Trigger contextStr useSync r)
  = {| config := config s; runtime := runtime s; pending := pending s;
       trace := trace s ++ [SendUserMessage (stopMessage (config s)) steer] |}.
Proof.
  intros He Hp Hc Hv. cbn [step call].
  rewrite triggerCritic_stop by assumption.
  unfold commit. simpl. rewrite app_nil_r. reflexivity.
Qed.

(** C4, amended. Within one user request, every refusal of a review
    because the cap was reached while the last recorded verdict was
    non-approval injects exactly one stop instruction and changes nothing
    else, so the injection is repeated on every further such refusal: [n]
    refused triggers inject [n] stop instructions. *)
Theorem stop_instruction_on_every_refusal :
  forall (parse : jsstring -> option JsonEvent) (s : Session) (contextStr : jsstring)
         (useSync : bool) (r : SyncRun) (n : nat),
    enabled (config s) = true ->
    isProcessingCritic (runtime s) = false ->
    (maxReviewsPerPrompt (config s) <= reviewsThisPrompt (runtime s))%Z ->
    lastVerdictApproved (runtime s) = Some false ->
    run parse s (repeat (Trigger contextStr useSync r) n)
    = {| config := config s; runtime := runtime s; pending := pending s;
         trace := trace s ++ repeat (SendUserMessage (stopMessage (config s)) steer) n |}.
Proof.
  intros parse s contextStr useSync r n. revert s.
  induction n as [|n IH]; intros s He Hp Hc Hv.
  - destruct s; simpl. rewrite app_nil_r. reflexivity.
  - change (run parse s (repeat (Trigger contextStr useSync r) (S n)))
      with (run parse (step parse s (Trigger contextStr useSync r))
              (repeat (Trigger contextStr useSync r) n)).
    rewrite refusal_step by assumption.
    rewrite IH by assumption. simpl. rewrite <- app_assoc. reflexivity.
Qed.

Lemma stop_instruction_on_every_refusal_witness :
  enabled (config (run sampleParse (boot strictFlags None) [TurnEnd sampleBranch blockedRun]))
  = true
  /\ run sampleParse
       (run sampleParse (boot strictFlags None) [TurnEnd sampleBranch blockedRun])
       (repeat (Trigger (lit "again") true blockedRun) 2)
     = {| config := config (run sampleParse (boot strictFlags None)
                              [TurnEnd sampleBranch blockedRun]);
          runtime := runtime (run sampleParse (boot strictFlags None)
                                [TurnEnd sampleBranch blockedRun]);
          pending := pending (run sampleParse (boot strictFlags None)
                                [TurnEnd sampleBranch blockedRun]);
          trace := trace (run sampleParse (boot strictFlags None)
                            [TurnEnd sampleBranch blockedRun])
                   ++ repeat (SendUserMessage
                                (stopMessage
                                   (config (run sampleParse (boot strictFlags None)
                                              [TurnEnd sampleBranch blockedRun]))) steer) 2 |}.
Proof.
  split; [reflexivity|].
  apply (stop_instruction_on_every_refusal sampleParse
           (run sampleParse (boot strictFlags None) [TurnEnd sampleBranch blockedRun])
           (lit "again") true blockedRun 2).
  - reflexivity.
  - vm_compute. reflexivity.
  - vm_compute. discriminate.
  - vm_compute. reflexivity.
Defined.

(** ** C5: routing of the feedback *)

(** C5, as stated, fails on a critique that is not empty but blank: the
    outcome is a non-approval without error, its critique text is not
    empty, the cap (3) is not reached after this first review, and still
    only the display message is emitted. *)
Lemma blank_critique_is_not_routed :
  approved blankResult = false
  /\ hasError blankResult = false
  /\ critique blankResult <> []
  /\ (reviewsThisPrompt (beginReview initialRuntime) < maxReviewsPerPrompt initialState)%Z
  /\ reviewOutcomeEffects initialState (beginReview initialRuntime) (lit "USER: hi") blankResult
     = [SendMessage criticReview (lit " ")
          {| detailsResult := blankResult; detailsContext := lit "USER: hi" |}].
Proof.
  split; [reflexivity|]. split; [reflexivity|]. split; [discriminate|].
  split; reflexivity.
Qed.

(** C5, amended. For every completed review outcome the display message
    is emitted, and the critique is routed to the primary agent, as one
    follow-up message made of ["[Critic feedback]: "] and the critique, if
    and only if the outcome is a non-approval, carries no error, has a
    critique that is not empty once trimmed of white space, and the counter
    is below the cap; in every other case, an approval or an error among
    them, only the display message is emitted. *)
Theorem feedback_routed_iff_actionable :
  forall (st : CriticState) (rt : CriticRuntimeState) (contextStr : jsstring)
         (result : CriticResult),
    let display :=
      SendMessage criticReview (critique result)
        {| detailsResult := result; detailsContext := contextStr |} in
    let feedback := SendUserMessage (lit "[Critic feedback]: " ++ critique result) followUp in
    (reviewOutcomeEffects st rt contextStr result = [display; feedback]
     \/ reviewOutcomeEffects st rt contextStr result = [display])
    /\ (reviewOutcomeEffects st rt contextStr result = [display; feedback]
        <-> approved result = false /\ hasError result = false
            /\ trim (critique result) <> []
            /\ (reviewsThisPrompt rt < maxReviewsPerPrompt st)%Z)
    /\ (approved result = true \/ hasError result = true ->
        reviewOutcomeEffects st rt contextStr result = [display]).
Proof.
  intros st rt contextStr result display feedback.
  unfold reviewOutcomeEffects, afterReview.
  destruct (approved result) eqn:Ea; simpl.
  { split; [right; reflexivity|]. split; [|reflexivity].
    split; [discriminate | intros [H _]; discriminate]. }
  destruct (hasError result) eqn:Ee; simpl.
  { split; [right; reflexivity|]. split; [|reflexivity].
    split; [discriminate | intros [_ [H _]]; discriminate]. }
  destruct (truthy (trim (critique result))) eqn:Et; simpl.
  - apply truthy_nonempty in Et.
    destruct (reviewsThisPrompt rt <? maxReviewsPerPrompt st)%Z eqn:Ec; simpl.
    + apply Z.ltb_lt in Ec. split; [left; reflexivity|]. split.
      * split; [intros _; repeat split; assumption | reflexivity].
      * intros [H|H]; discriminate.
    + apply Z.ltb_ge in Ec. split; [right; reflexivity|]. split.
      * split; [discriminate | intros [_ [_ [_ H]]]; lia].
      * reflexivity.
  - split; [right; reflexivity|]. split.
    + split; [discriminate|]. intros [_ [_ [H _]]].
      destruct (trim (critique result)); [contradiction | discriminate].
    + reflexivity.
Qed.

(** ** C6: timeouts *)

(** C6 at the failing input. When the timeout of [spawnSync] expires, the
    result carries both [error] (ETIMEDOUT) and [signal] (SIGTERM);
    [runCriticSync] tests [error] first and returns without setting
    [timedOut]. *)
Lemma sync_timeout_is_not_flagged :
  forall (parse : jsstring -> option JsonEvent) (timeout : Z),
    runCriticSync parse timeout timedOutRun
    = Returned {| critique := []; approved := false; status := None; model := None;
                  usage := None; error := Some (lit "spawnSync pi ETIMEDOUT");
                  timedOut := None; durationMs := Some 60000%Z |}.
Proof. intros parse timeout. reflexivity. Qed.


(** The branch meant for the timeout: a child ended by SIGTERM with no
    [error] reported. *)
Lemma sync_sigterm_is_flagged (parse : jsstring -> option JsonEvent) (timeout : Z)
  (r : SyncRun) (spawnResult : SpawnSyncReturns) (u : unit) :
  syncTempFile r = Returned u ->
  syncSpawn r = Returned spawnResult ->
  spawnError spawnResult = None ->
  signal spawnResult = Some (lit "SIGTERM") ->
  exists result,
    runCriticSync parse timeout r = Returned result
    /\ timedOut result = Some true /\ error result = Some (lit "Critic timed out")
    /\ approved result = false.
Proof.
  intros Ht Hs He Hg. unfold runCriticSync, runCriticSyncBody. rewrite Ht, Hs, He, Hg.
  cbn [eqbOpt]. rewrite jseqb_refl. simpl.
  eexists. split; [reflexivity|]. repeat split.
Qed.

(** ** The listeners of the awaited runner *)





Section AsyncFacts.

Variable parse : jsstring -> option JsonEvent.

(** The listeners write [usage], [model] and [error] only. *)
Lemma recordUsageAndModel_keeps (msg : Message) (r : CriticResult) :
  approved (recordUsageAndModel msg r) = approved r
  /\ critique (recordUsageAndModel msg r) = critique r
  /\ error (recordUsageAndModel msg r) = error r.
Proof.
  unfold recordUsageAndModel.
  destruct (msgUsage msg); destruct (msgModel msg) as [m|]; try destruct (truthy m);
    repeat split.
Qed.

Lemma recordUsageAndModel_status (msg : Message) (r : CriticResult) :
  status (recordUsageAndModel msg r) = status r.
Proof.
  unfold recordUsageAndModel.
  destruct (msgUsage msg); destruct (msgModel msg) as [m|]; try destruct (truthy m);
    reflexivity.
Qed.

(** What one line leaves as it was, when [processLine] does not throw. *)
Lemma processLine_keeps (l l' : Listeners) (line : jsstring) :
  processLine parse l line = Some l' ->
  wasTimedOut l' = wasTimedOut l /\ wasAborted l' = wasAborted l
  /\ timerPending l' = timerPending l /\ buffer l' = buffer l
  /\ approved (shared l') = approved (shared l)
  /\ critique (shared l') = critique (shared l)
  /\ status (shared l') = status (shared l).
Proof.
  unfold processLine. destruct (negb (truthy (trim line))).
  { intros H. injection H as <-. repeat split. }
  destruct (parse line) as [[[msg|]|message| |]|]; intros H; try discriminate H;
    injection H as <-; try (repeat split; fail).
  cbn [wasTimedOut wasAborted timerPending buffer shared].
  destruct (isAssistant msg); [|repeat split].
  destruct (recordUsageAndModel_keeps msg (shared l)) as [H1 [H2 _]].
  rewrite H1, H2, recordUsageAndModel_status. repeat split.
Qed.

Lemma processLines_keep (lines : list jsstring) (l l' : Listeners) :
  foldM (processLine parse) lines l = Some l' ->
  wasTimedOut l' = wasTimedOut l /\ wasAborted l' = wasAborted l
  /\ timerPending l' = timerPending l /\ buffer l' = buffer l
  /\ approved (shared l') = approved (shared l)
  /\ critique (shared l') = critique (shared l)
  /\ status (shared l') = status (shared l).
Proof.
  intros H.
  apply (@foldM_inv Listeners jsstring (processLine parse)
           (fun x => wasTimedOut x = wasTimedOut l /\ wasAborted x = wasAborted l
                     /\ timerPending x = timerPending l /\ buffer x = buffer l
                     /\ approved (shared x) = approved (shared l)
                     /\ critique (shared x) = critique (shared l)
                     /\ status (shared x) = status (shared l))
           lines) with (a := l); [|exact H|repeat split].
  intros a x a' _ Hstep [P1 [P2 [P3 [P4 [P5 [P6 P7]]]]]].
  destruct (processLine_keeps _ _ Hstep) as [Q1 [Q2 [Q3 [Q4 [Q5 [Q6 Q7]]]]]].
  repeat split; congruence.
Qed.

(** The stdout listener: the buffer is set, then the complete lines are
    processed. *)
Lemma onEvent_stdout (l : Listeners) (data : jsstring) :
  onEvent parse l (StdoutData data)
  = foldM (processLine parse) (removelast (split 10%N (buffer l ++ data)))
      (setBuffer (last (split 10%N (buffer l ++ data)) []) l).
Proof. reflexivity. Qed.

(** The flags after one listener has run, and what it leaves as it was. *)
Lemma onEvent_flags (l l' : Listeners) (e : ProcEvent) :
  onEvent parse l e = Some l' ->
  match e with
  | StdoutData _ | StderrData _ =>
      wasTimedOut l' = wasTimedOut l /\ wasAborted l' = wasAborted l
      /\ timerPending l' = timerPending l
  | TimerFired =>
      wasTimedOut l' = (wasTimedOut l || timerPending l) /\ wasAborted l' = wasAborted l
      /\ timerPending l' = false
  | AbortSignal =>
      wasTimedOut l' = wasTimedOut l /\ wasAborted l' = true /\ timerPending l' = false
  end
  /\ approved (shared l') = approved (shared l)
  /\ critique (shared l') = critique (shared l)
  /\ status (shared l') = status (shared l).
Proof.
  destruct e as [data|data| |].
  - rewrite onEvent_stdout. intros H.
    destruct (processLines_keep _ _ H) as [Q1 [Q2 [Q3 [_ [Q5 [Q6 Q7]]]]]].
    repeat split; assumption.
  - intros H. injection H as <-. repeat split.
  - cbn [onEvent]. destruct (timerPending l) eqn:E; intros H; injection H as <-;
      cbn [wasTimedOut wasAborted timerPending shared];
      rewrite ?orb_true_r, ?orb_false_r; repeat split; exact E.
  - intros H. injection H as <-. repeat split.
Qed.

Lemma onEvents_keep (events : list ProcEvent) (l l' : Listeners) :
  foldM (onEvent parse) events l = Some l' ->
  approved (shared l') = approved (shared l)
  /\ critique (shared l') = critique (shared l)
  /\ status (shared l') = status (shared l).
Proof.
  intros H.
  apply (@foldM_inv Listeners ProcEvent (onEvent parse)
           (fun x => approved (shared x) = approved (shared l)
                     /\ critique (shared x) = critique (shared l)
                     /\ status (shared x) = status (shared l))
           events) with (a := l); [|exact H|repeat split].
  intros a x a' _ Hstep [P1 [P2 P3]].
  destruct (onEvent_flags _ _ Hstep) as [_ [Q1 [Q2 Q3]]].
  repeat split; congruence.
Qed.





Lemma onEnd_keeps (l l' : Listeners) (e : ProcEnd) (exitCode : Z) :
  onEnd parse l e = Some (l', exitCode) ->
  wasTimedOut l' = wasTimedOut l /\ wasAborted l' = wasAborted l
  /\ approved (shared l') = approved (shared l)
  /\ critique (shared l') = critique (shared l)
  /\ status (shared l') = status (shared l).
Proof.
  destruct e as [code|message]; cbn [onEnd].
  - destruct (truthy (trim (buffer l))).
    + destruct (processLine parse l (buffer l)) as [l1|] eqn:E; [|discriminate].
      intros H. injection H as <- _.
      destruct (processLine_keeps _ _ E) as [Q1 [Q2 [_ [_ [Q5 [Q6 Q7]]]]]].
      repeat split; assumption.
    + intros H. injection H as <- _. repeat split.
  - intros H. injection H as <- _. repeat split.
Qed.

(** The two halves of [settled]. *)
Lemma settled_inv (r : AsyncRun) (l : Listeners) (exitCode : Z) :
  settled parse r = Some (l, exitCode) ->
  exists l1,
    foldM (onEvent parse) (asyncEvents r)
      {| messages := []; buffer := []; stderr := []; wasAborted := false;
         wasTimedOut := false; timerPending := true; shared := emptyResult |} = Some l1
    /\ onEnd parse l1 (asyncEnd r) = Some (l, exitCode).
Proof.
  unfold settled, listen.
  destruct (foldM (onEvent parse) (asyncEvents r) _) as [l1|]; [|discriminate].
  intros H. exists l1. split; [reflexivity | exact H].
Qed.

(** The listeners neither approve nor write a critique or a status. *)
Lemma settled_keeps (r : AsyncRun) (l : Listeners) (exitCode : Z) :
  settled parse r = Some (l, exitCode) ->
  approved (shared l) = false /\ critique (shared l) = [] /\ status (shared l) = None.
Proof.
  intros H. destruct (@settled_inv r l exitCode H) as [l1 [H1 H2]].
  destruct (onEvents_keep _ _ H1) as [P1 [P2 P3]].
  destruct (onEnd_keeps _ _ H2) as [_ [_ [Q1 [Q2 Q3]]]].
  rewrite Q1, Q2, Q3, P1, P2, P3. repeat split.
Qed.


(** *** When no listener throws *)






End AsyncFacts.


(** Whatever the cap and the verdict memory, an outcome with an error gets
    the display message and nothing else. *)
Lemma error_outcome_only_displayed (st : CriticState) (rt : CriticRuntimeState)
  (contextStr : jsstring) (result : CriticResult) :
  hasError result = true ->
  reviewOutcomeEffects st rt contextStr result
  = [SendMessage criticReview (critique result)
       {| detailsResult := result; detailsContext := contextStr |}].
Proof.
  intros H. unfold reviewOutcomeEffects, afterReview. rewrite H.
  rewrite andb_false_r. reflexivity.
Qed.

(** An error outcome on its way through the router. *)
Lemma error_outcome_only_displayed_witness :
  reviewOutcomeEffects initialState (beginReview initialRuntime) (lit "USER: hi")
    (setError (Some (lit "Critic timed out")) emptyResult)
  = [SendMessage criticReview []
       {| detailsResult := setError (Some (lit "Critic timed out")) emptyResult;
          detailsContext := lit "USER: hi" |}].
Proof.
  apply (@error_outcome_only_displayed initialState (beginReview initialRuntime)
           (lit "USER: hi") (setError (Some (lit "Critic timed out")) emptyResult)).
  reflexivity.
Defined.

(** ** C7: failures of the reviewer process *)



Section FailureFacts.

Variable parse : jsstring -> option JsonEvent.









End FailureFacts.



(** ** Regular expressions: what the matcher finds *)

Lemma ciEqual_nonempty (p t : jsstring) : ciEqual p t -> p <> [] -> t <> [].
Proof. intros H Hp. destruct H; [contradiction | discriminate]. Qed.

Lemma litPrefix_sound (p s m rest : jsstring) :
  litPrefix p s = Some (m, rest) -> s = m ++ rest /\ ciEqual p m.
Proof.
  revert s m rest. induction p as [|x p IH]; intros s m rest H; simpl in H.
  - injection H as <- <-. split; [reflexivity | constructor].
  - destruct s as [|y s]; [discriminate|].
    destruct (ciEqUnit x y) eqn:E; [|discriminate].
    destruct (litPrefix p s) as [[m' rest']|] eqn:E'; [|discriminate].
    injection H as <- <-. destruct (IH _ _ _ E') as [-> Hm].
    split; [reflexivity | constructor; assumption].
Qed.

Lemma litPrefix_complete (p m rest : jsstring) :
  ciEqual p m -> litPrefix p (m ++ rest) = Some (m, rest).
Proof.
  intros H. induction H as [|x y p m Hxy H IH]; simpl; [reflexivity|].
  rewrite Hxy, IH. reflexivity.
Qed.

Section StarFacts.

Variable R : Type.
Variable p : codeunit -> bool.
Variable k : jsstring -> option R.

Lemma star_sound (s : jsstring) (r : R) :
  star p k s = Some r -> exists a b, s = a ++ b /\ forallb p a = true /\ k b = Some r.
Proof.
  induction s as [|c s IH]; simpl; intros H.
  - exists [], []. repeat split. exact H.
  - destruct (p c) eqn:Ec.
    + destruct (star p k s) as [r'|] eqn:Es.
      * injection H as <-. destruct (IH eq_refl) as [a [b [-> [Ha Hb]]]].
        exists (c :: a), b. simpl. rewrite Ec, Ha. repeat split. exact Hb.
      * exists [], (c :: s). repeat split. exact H.
    + exists [], (c :: s). repeat split. exact H.
Qed.

(** A star that fails has failed after every number of repetitions. *)
Lemma star_none (s : jsstring) :
  star p k s = None -> forall a b, s = a ++ b -> forallb p a = true -> k b = None.
Proof.
  induction s as [|c s IH]; simpl; intros H a b Hs Ha.
  - destruct a; [|discriminate]. simpl in Hs. subst b. exact H.
  - destruct a as [|c' a]; simpl in Hs.
    + subst b. destruct (p c); [|exact H].
      destruct (star p k s); [discriminate | exact H].
    + injection Hs as <- ->. simpl in Ha. apply andb_true_iff in Ha. destruct Ha as [Hc Ha].
      rewrite Hc in H. destruct (star p k (a ++ b)) eqn:Es; [discriminate|].
      apply (IH eq_refl a b eq_refl Ha).
Qed.

Lemma star_complete (a b : jsstring) :
  forallb p a = true -> k b <> None -> star p k (a ++ b) <> None.
Proof.
  intros Ha Hb H. apply Hb. exact (@star_none (a ++ b) H a b eq_refl Ha).
Qed.

(** The star is greedy: where it succeeds, no longer repetition does. *)
Lemma star_greedy (s : jsstring) (r : R) :
  star p k s = Some r ->
  exists a b, s = a ++ b /\ forallb p a = true /\ k b = Some r
              /\ forall a' b', b = a' ++ b' -> a' <> [] -> forallb p a' = true ->
                               k b' = None.
Proof.
  induction s as [|c s IH]; simpl; intros H.
  - exists [], []. repeat split; [exact H|].
    intros a' b' E Hne. destruct a'; [contradiction | discriminate].
  - destruct (p c) eqn:Ec.
    + destruct (star p k s) as [r'|] eqn:Es.
      * injection H as <-. destruct (IH eq_refl) as [a [b [-> [Ha [Hb Hlast]]]]].
        exists (c :: a), b. simpl. rewrite Ec, Ha. repeat split; assumption.
      * exists [], (c :: s). repeat split; [exact H|].
        intros a' b' E Hne Ha'. destruct a' as [|c' a']; [contradiction|].
        simpl in E. injection E as <- ->. simpl in Ha'.
        apply andb_true_iff in Ha'. destruct Ha' as [_ Ha'].
        exact (@star_none (a' ++ b') Es a' b' eq_refl Ha').
    + exists [], (c :: s). repeat split; [exact H|].
      intros a' b' E Hne Ha'. destruct a' as [|c' a']; [contradiction|].
      simpl in E. injection E as <- ->. simpl in Ha'. rewrite Ec in Ha'. discriminate.
Qed.

End StarFacts.

Section AlternativeFacts.

Variable R : Type.
Variable k : jsstring -> jsstring -> option R.

Lemma alternatives_sound (alts : list jsstring) (s : jsstring) (r : R) :
  alternatives alts k s = Some r ->
  exists a m rest, In a alts /\ litPrefix a s = Some (m, rest) /\ k m rest = Some r.
Proof.
  induction alts as [|a alts IH]; simpl; intros H; [discriminate|].
  destruct (litPrefix a s) as [[m rest]|] eqn:E.
  - destruct (k m rest) as [r'|] eqn:Ek.
    + injection H as <-. exists a, m, rest. repeat split; [left; reflexivity | assumption..].
    + destruct (IH H) as [a' [m' [rest' [Hin H']]]].
      exists a', m', rest'. split; [right; exact Hin | exact H'].
  - destruct (IH H) as [a' [m' [rest' [Hin H']]]].
    exists a', m', rest'. split; [right; exact Hin | exact H'].
Qed.

Lemma alternatives_none (alts : list jsstring) (s : jsstring) :
  alternatives alts k s = None ->
  forall a m rest, In a alts -> litPrefix a s = Some (m, rest) -> k m rest = None.
Proof.
  induction alts as [|a0 alts IH]; simpl; intros H a m rest Hin Hl; [contradiction|].
  destruct Hin as [-> | Hin].
  - rewrite Hl in H. destruct (k m rest); [discriminate | reflexivity].
  - apply (IH) with (a := a); try assumption.
    destruct (litPrefix a0 s) as [[m0 rest0]|]; [|exact H].
    destruct (k m0 rest0); [discriminate | exact H].
Qed.

End AlternativeFacts.

(** The search is leftmost. *)
Lemma execFrom_sound (re : regex) (s pre : jsstring) (mr : MatchResult) :
  execFrom re pre s = Some mr ->
  exists a b, s = a ++ b /\ before mr = rev pre ++ a
              /\ matchAt re None b = Some (capture mr, after mr)
              /\ forall a1 a2, a = a1 ++ a2 -> a2 <> [] -> matchAt re None (a2 ++ b) = None.
Proof.
  revert pre. induction s as [|c s IH]; intros pre H; simpl in H.
  - destruct (matchAt re None []) as [[cap rest]|] eqn:E; [|discriminate].
    injection H as <-. exists [], []. simpl. rewrite app_nil_r. repeat split; [exact E|].
    intros a1 a2 Ha Hne. destruct a1; destruct a2; try discriminate. contradiction.
  - destruct (matchAt re None (c :: s)) as [[cap rest]|] eqn:E.
    + injection H as <-. exists [], (c :: s). simpl. rewrite app_nil_r.
      repeat split; [exact E|].
      intros a1 a2 Ha Hne. destruct a1; destruct a2; try discriminate. contradiction.
    + destruct (IH _ H) as [a [b [-> [Hb [Hm Hleft]]]]].
      exists (c :: a), b. simpl in *. rewrite <- app_assoc in Hb. simpl in Hb.
      repeat split; [exact Hb | exact Hm |].
      intros a1 a2 Ha Hne. destruct a1 as [|c1 a1]; simpl in Ha.
      * subst a2. exact E.
      * injection Ha as <- ->. apply (Hleft a1 a2 eq_refl Hne).
Qed.

Lemma execFrom_none (re : regex) (s pre : jsstring) :
  execFrom re pre s = None -> forall a b, s = a ++ b -> matchAt re None b = None.
Proof.
  revert pre. induction s as [|c s IH]; intros pre H a b Hs; simpl in H.
  - destruct a; [|discriminate]. simpl in Hs. subst b.
    destruct (matchAt re None []) as [[cap rest]|]; [discriminate | reflexivity].
  - destruct (matchAt re None (c :: s)) as [[cap rest]|] eqn:E; [discriminate|].
    destruct a as [|c' a]; simpl in Hs.
    + subst b. exact E.
    + injection Hs as <- ->. apply (IH _ H a b eq_refl).
Qed.

(** ** C3: the verdict parser *)

(** The verdict expression matches marker blocks, and nothing else. *)
Lemma verdict_matchAt_sound (s : jsstring) (cap : option jsstring) (rest : jsstring) :
  matchAt verdictRe None s = Some (cap, rest) ->
  exists block keyword k,
    s = block ++ rest /\ MarkerBlock keyword block /\ cap = Some k /\ ciEqual keyword k.
Proof.
  unfold verdictRe. cbn [matchAt]. intros H.
  destruct (litPrefix (lit "<critic_verdict>") s) as [[o s1]|] eqn:E1; [|discriminate].
  apply litPrefix_sound in E1. destruct E1 as [-> Ho].
  apply star_sound in H. destruct H as [w1 [s2 [-> [Hw1 H]]]].
  destruct (litPrefix (lit "status:") s2) as [[l s3]|] eqn:E2; [|discriminate].
  apply litPrefix_sound in E2. destruct E2 as [-> Hl].
  apply star_sound in H. destruct H as [w2 [s4 [-> [Hw2 H]]]].
  apply alternatives_sound in H. destruct H as [keyword [k [s5 [Hin [E3 H]]]]].
  apply litPrefix_sound in E3. destruct E3 as [-> Hk].
  apply star_sound in H. destruct H as [w3 [s6 [-> [Hw3 H]]]].
  destruct (litPrefix (lit "</critic_verdict>") s6) as [[c s7]|] eqn:E4; [|discriminate].
  apply litPrefix_sound in E4. destruct E4 as [-> Hc].
  injection H as <- <-.
  exists (o ++ w1 ++ l ++ w2 ++ k ++ w3 ++ c), keyword, k.
  split; [repeat rewrite <- app_assoc; reflexivity|].
  split; [|split; [reflexivity | exact Hk]].
  constructor; assumption.
Qed.

Lemma verdict_matchAt_complete (keyword block post : jsstring) :
  MarkerBlock keyword block -> matchAt verdictRe None (block ++ post) <> None.
Proof.
  intros [o w1 l w2 k w3 c Ho Hw1 Hl Hw2 Hin Hk Hw3 Hc].
  repeat rewrite <- app_assoc.
  unfold verdictRe. cbn [matchAt].
  rewrite (litPrefix_complete _ Ho).
  apply star_complete; [exact Hw1|].
  rewrite (litPrefix_complete _ Hl).
  apply star_complete; [exact Hw2|].
  intros H.
  pose proof (alternatives_none _ _ _ H keyword Hin (litPrefix_complete _ Hk)) as H'.
  revert H'. apply star_complete; [exact Hw3|].
  rewrite (litPrefix_complete _ Hc). discriminate.
Qed.

Lemma exec_none_no_match (re : regex) (text : jsstring) :
  exec re text = None -> forall a b, text = a ++ b -> matchAt re None b = None.
Proof. intros H. exact (execFrom_none _ _ H). Qed.

Lemma exec_verdict_none (text : jsstring) : exec verdictRe text = None -> ~ hasMarker text.
Proof.
  intros H [pre [keyword [block [post [Ht Hb]]]]].
  apply (verdict_matchAt_complete post Hb).
  exact (exec_none_no_match _ H pre (block ++ post) Ht).
Qed.

Lemma exec_verdict_some (text : jsstring) (m : MatchResult) :
  exec verdictRe text = Some m ->
  exists keyword k,
    markerAt text (before m) keyword /\ capture m = Some k /\ ciEqual keyword k.
Proof.
  intros H. apply execFrom_sound in H. destruct H as [a [b [-> [Hb [Hm _]]]]].
  simpl in Hb. apply verdict_matchAt_sound in Hm.
  destruct Hm as [block [keyword [k [-> [Hblock [Hcap Hk]]]]]].
  exists keyword, k. split; [|split; assumption].
  exists block, (after m). rewrite Hb. split; [reflexivity | exact Hblock].
Qed.

(** Upper-casing the captured keyword gives the keyword itself. *)
Lemma ciEqual_upper (p t : jsstring) : ciEqual p t -> toUpperCase t = toUpperCase p.
Proof.
  intros H. induction H as [|x y p t Hxy H IH]; simpl; [reflexivity|].
  unfold ciEqUnit in Hxy. apply N.eqb_eq in Hxy. rewrite Hxy. f_equal. exact IH.
Qed.

Lemma keyword_upper (keyword : jsstring) : In keyword keywords -> toUpperCase keyword = keyword.
Proof.
  intros [<- | [<- | [<- | []]]]; reflexivity.
Qed.

Lemma captured_status (keyword k : jsstring) :
  In keyword keywords -> ciEqual keyword k -> toUpperCase k = keyword.
Proof.
  intros Hin Hk. rewrite (ciEqual_upper Hk). apply keyword_upper. exact Hin.
Qed.

Lemma markerBlock_keyword (keyword block : jsstring) :
  MarkerBlock keyword block -> In keyword keywords.
Proof. intros [o w1 l w2 k w3 c _ _ _ _ Hin _ _ _]. exact Hin. Qed.

(** A marker block begins with the opening and ends with the closing tag. *)
Lemma markerBlock_tags (keyword block : jsstring) :
  MarkerBlock keyword block ->
  exists o mid c, block = o ++ mid ++ c /\ ciEqual openTag o /\ ciEqual closeTag c.
Proof.
  intros [o w1 l w2 k w3 c Ho _ _ _ _ _ _ Hc].
  exists o, (w1 ++ l ++ w2 ++ k ++ w3), c.
  repeat rewrite <- app_assoc. repeat split; assumption.
Qed.

(** The expression that cuts the block out: from an opening tag to the
    last closing tag. *)
Lemma block_matchAt_sound (s : jsstring) (cap : option jsstring) (rest : jsstring) :
  matchAt verdictBlockRe None s = Some (cap, rest) ->
  exists o a c,
    s = o ++ a ++ c ++ rest /\ ciEqual openTag o /\ ciEqual closeTag c
    /\ forall a' b', c ++ rest = a' ++ b' -> a' <> [] -> litPrefix closeTag b' = None.
Proof.
  unfold verdictBlockRe. cbn [matchAt]. intros H.
  destruct (litPrefix (lit "<critic_verdict>") s) as [[o s1]|] eqn:E1; [|discriminate].
  apply litPrefix_sound in E1. destruct E1 as [-> Ho].
  apply star_greedy in H. destruct H as [a [b [-> [_ [H Hlast]]]]].
  destruct (litPrefix (lit "</critic_verdict>") b) as [[c s2]|] eqn:E2; [|discriminate].
  apply litPrefix_sound in E2. destruct E2 as [-> Hc].
  injection H as <- <-.
  exists o, a, c. repeat split; try assumption.
  intros a' b' E Hne. specialize (Hlast a' b' E Hne).
  assert (Hall : forallb (inClass ClsAny) a' = true)
    by (clear; induction a'; simpl; [reflexivity | assumption]).
  specialize (Hlast Hall).
  unfold closeTag. destruct (litPrefix (lit "</critic_verdict>") b') as [[c' s']|];
    [discriminate | reflexivity].
Qed.

Lemma block_matchAt_complete (o x c y : jsstring) :
  ciEqual openTag o -> ciEqual closeTag c ->
  matchAt verdictBlockRe None (o ++ x ++ c ++ y) <> None.
Proof.
  intros Ho Hc. unfold verdictBlockRe. cbn [matchAt].
  rewrite (litPrefix_complete _ Ho).
  apply star_complete.
  - clear. induction x; simpl; [reflexivity | assumption].
  - rewrite (litPrefix_complete _ Hc). discriminate.
Qed.

Lemma hasMarker_infix (a text b : jsstring) : hasMarker text -> hasMarker (a ++ text ++ b).
Proof.
  intros [pre [keyword [block [post [-> Hb]]]]].
  exists (a ++ pre), keyword, block, (post ++ b). split; [|exact Hb].
  repeat rewrite <- app_assoc. reflexivity.
Qed.

(** Where a marker block is present, the cut removes everything from the
    first opening tag to the last closing tag, and what is left holds no
    marker block. *)
Lemma removeFirst_block (text : jsstring) :
  hasMarker text ->
  exists pre removed post,
    text = pre ++ removed ++ post
    /\ removeFirst verdictBlockRe text = pre ++ post
    /\ (exists o mid c, removed = o ++ mid ++ c /\ ciEqual openTag o /\ ciEqual closeTag c)
    /\ ~ hasMarker (pre ++ post).
Proof.
  intros [pre0 [keyword0 [block0 [post0 [Ht Hb0]]]]].
  destruct (markerBlock_tags Hb0) as [o0 [mid0 [c0 [-> [Ho0 Hc0]]]]].
  unfold removeFirst.
  destruct (exec verdictBlockRe text) as [m|] eqn:E.
  2:{ exfalso. apply (@block_matchAt_complete o0 mid0 c0 post0 Ho0 Hc0).
      apply (exec_none_no_match _ E pre0). rewrite Ht.
      repeat rewrite <- app_assoc. reflexivity. }
  apply execFrom_sound in E. destruct E as [a [b [Htext [Hbefore [Hm Hleft]]]]].
  simpl in Hbefore. apply block_matchAt_sound in Hm.
  destruct Hm as [o [x [c [Hbv [Ho [Hc Hlast]]]]]].
  exists (before m), (o ++ x ++ c), (after m).
  split; [rewrite Htext, Hbefore, Hbv; repeat rewrite <- app_assoc; reflexivity|].
  split; [reflexivity|].
  split; [exists o, x, c; repeat split; assumption|].
  assert (Hcne : c <> []) by (apply (ciEqual_nonempty Hc); discriminate).
  intros [u [keyword [block [v [Hsplit Hblock]]]]].
  destruct (markerBlock_tags Hblock) as [o' [mid' [c' [-> [Ho' Hc']]]]].
  assert (Hclose : litPrefix closeTag (c' ++ v) <> None)
    by (rewrite (litPrefix_complete _ Hc'); discriminate).
  assert (Hsplit' : before m ++ after m = (u ++ o' ++ mid') ++ (c' ++ v))
    by (rewrite Hsplit; repeat rewrite <- app_assoc; reflexivity).
  apply app_eq_app in Hsplit'. destruct Hsplit' as [l [[H1 H2] | [H1 H2]]].
  - (* the other marker starts before the cut *)
    destruct l as [|y l].
    + apply Hclose. apply (Hlast c (c' ++ v)); [|exact Hcne].
      simpl in H2. rewrite H2. reflexivity.
    + apply (@block_matchAt_complete o' (mid' ++ (y :: l) ++ o ++ x) c (after m) Ho' Hc).
      rewrite Hbefore in H1.
      replace (o' ++ (mid' ++ (y :: l) ++ o ++ x) ++ c ++ after m)
        with ((o' ++ mid' ++ y :: l) ++ b)
        by (rewrite Hbv; repeat rewrite <- app_assoc; reflexivity).
      apply (Hleft u (o' ++ mid' ++ y :: l)).
      * rewrite H1. repeat rewrite <- app_assoc. reflexivity.
      * destruct o'; [|discriminate].
        exfalso. apply (ciEqual_nonempty Ho'); [discriminate | reflexivity].
  - (* the closing tag of the other marker lies after the cut *)
    apply Hclose. apply (Hlast (c ++ l) (c' ++ v)).
    + rewrite H2. rewrite <- app_assoc. reflexivity.
    + intros C. apply app_eq_nil in C. destruct C as [C _]. contradiction.
Qed.

(** C3. For every critique text the parser yields one of the three
    statuses [APPROVED], [NEEDS_WORK], [BLOCKED], and approval holds exactly
    when the status is [APPROVED].  When the text holds a marker block (the
    tags, [status:] and a keyword in any letter case), the status is the
    keyword of a marker block of the text, and the returned critique is the
    text with the marker block cut out (everything from the first opening
    tag to the last closing tag) and trimmed, which holds no marker block
    any more.  When the text holds no marker block, the status is
    [NEEDS_WORK], approval is false and the critique is the text as it
    was. *)
Theorem verdict_parser_correct :
  forall text : jsstring,
    (v_status (parseVerdict text) = lit "APPROVED"
     \/ v_status (parseVerdict text) = lit "NEEDS_WORK"
     \/ v_status (parseVerdict text) = lit "BLOCKED")
    /\ (v_approved (parseVerdict text) = true
        <-> v_status (parseVerdict text) = lit "APPROVED")
    /\ (hasMarker text ->
        (exists pre, markerAt text pre (v_status (parseVerdict text)))
        /\ (exists pre removed post,
              text = pre ++ removed ++ post
              /\ v_critique (parseVerdict text) = trim (pre ++ post)
              /\ exists o mid c,
                   removed = o ++ mid ++ c /\ ciEqual openTag o /\ ciEqual closeTag c)
        /\ ~ hasMarker (v_critique (parseVerdict text)))
    /\ (~ hasMarker text ->
        v_status (parseVerdict text) = lit "NEEDS_WORK"
        /\ v_approved (parseVerdict text) = false
        /\ v_critique (parseVerdict text) = text).
Proof.
  intros text. unfold parseVerdict.
  destruct (exec verdictRe text) as [m|] eqn:E.
  - destruct (@exec_verdict_some text m E) as [keyword [k [Hat [Hcap Hk]]]].
    assert (Hin : In keyword keywords).
    { destruct Hat as [block [post [_ Hb]]]. exact (markerBlock_keyword Hb). }
    rewrite Hcap. rewrite (captured_status Hin Hk). cbn [v_status v_approved v_critique].
    split; [|split; [apply jseqb_eq|split]].
    + destruct Hin as [<- | [<- | [<- | []]]]; auto.
    + intros Hmarker. split; [exists (before m); exact Hat|].
      destruct (removeFirst_block Hmarker) as [pre [removed [post [Ht [Hr [Htags Hno]]]]]].
      split.
      * exists pre, removed, post. rewrite Hr. repeat split; assumption.
      * rewrite Hr. intros C. apply Hno.
        destruct (trim_infix (pre ++ post)) as [a [b Hab]]. rewrite Hab.
        apply hasMarker_infix. exact C.
    + intros Hno. exfalso. apply Hno. exists (before m), keyword. exact Hat.
  - cbn [v_status v_approved v_critique].
    split; [right; left; reflexivity|]. split; [split; discriminate|]. split.
    + intros Hmarker. exfalso. exact (@exec_verdict_none text E Hmarker).
    + intros _. repeat split.
Qed.

(** *** The parser on sample answers *)

Example parse_needs_work :
  parseVerdict (lit "Null deref at line 3." ++ nl ++ lit "<critic_verdict>" ++ nl
                ++ lit "status: needs_work" ++ nl ++ lit "</critic_verdict>" ++ nl)
  = {| v_status := lit "NEEDS_WORK"; v_approved := false;
       v_critique := lit "Null deref at line 3."; v_hasVerdictBlock := true |}.
Proof. vm_compute. reflexivity. Qed.

Example parse_two_blocks :
  v_critique (parseVerdict
    (lit "a <critic_verdict> b <Critic_Verdict>status:APPROVED</critic_verdict> c </CRITIC_VERDICT> d"))
  = lit "a  d".
Proof. vm_compute. reflexivity. Qed.

Example parse_without_status_label :
  parseVerdict (lit "<critic_verdict>APPROVED</critic_verdict>")
  = {| v_status := lit "NEEDS_WORK"; v_approved := false;
       v_critique := lit "<critic_verdict>APPROVED</critic_verdict>";
       v_hasVerdictBlock := false |}.
Proof. vm_compute. reflexivity. Qed.

Lemma blockedReply_has_marker : hasMarker blockedReply.
Proof.
  exists (lit "Unchecked null dereference in save()." ++ nl), (lit "BLOCKED").
  exists (lit "<critic_verdict>" ++ nl ++ lit "status:" ++ lit " " ++ lit "BLOCKED" ++ nl
          ++ lit "</critic_verdict>"), [].
  split; [vm_compute; reflexivity|].
  constructor.
  - unfold ciEqual, openTag. vm_compute. repeat constructor.
  - reflexivity.
  - unfold ciEqual. vm_compute. repeat constructor.
  - reflexivity.
  - right. right. left. reflexivity.
  - unfold ciEqual. vm_compute. repeat constructor.
  - reflexivity.
  - unfold ciEqual, closeTag. vm_compute. repeat constructor.
Qed.

(** C3 on a sample answer: the marker is found, the status is BLOCKED and
    the critique comes back without a marker block. *)
Lemma verdict_parser_correct_witness :
  hasMarker blockedReply
  /\ v_status (parseVerdict blockedReply) = lit "BLOCKED"
  /\ ~ hasMarker (v_critique (parseVerdict blockedReply)).
Proof.
  split; [exact blockedReply_has_marker|].
  split; [vm_compute; reflexivity|].
  exact (proj2 (proj2 (proj1 (proj2 (proj2 (verdict_parser_correct blockedReply)))
                         blockedReply_has_marker))).
Defined.

(** *** Sample sessions *)

Example sample_context :
  formatRecentContext sampleBranch messages_only defaultMaxMessages
  = lit "USER: Fix save()" ++ nl ++ nl ++ lit "ASSISTANT: Done.".
Proof. vm_compute. reflexivity. Qed.

(** Trigger mode [tool_result], an [edit] result, a reviewer that blocks:
    the review is displayed without its marker block, the feedback is routed
    after the delay, the counter is 1 and the flag is clear again. *)
Example edit_review_routes_feedback :
  let flags := {| flagCritic := true; flagCriticDebug := false;
                  flagCriticTrigger := Some (lit "tool_result"); flagCriticModel := None;
                  flagCriticPrompt := None; flagMaxReviews := None |} in
  let s := run sampleParse (boot flags None)
             [BeforeAgentStart (lit "Fix save()") 1000;
              ToolResult (lit "edit") (lit "{}") [TextContent (lit "ok")] false [] blockedRun;
              DelayElapses 0] in
  map (fun e => match e with
                | RunReviewer _ _ => lit "run"
                | SendMessage customType content _ => customType ++ lit ": " ++ content
                | SendUserMessage text _ => text
                end) (trace s)
  = [lit "run";
     lit "critic-review: Unchecked null dereference in save().";
     lit "[Critic feedback]: Unchecked null dereference in save()."]
  /\ reviewsThisPrompt (runtime s) = 1%Z
  /\ lastVerdictApproved (runtime s) = Some false
  /\ isProcessingCritic (runtime s) = false
  /\ pending s = [].
Proof. vm_compute. repeat split. Qed.

(** * Further properties of the extension *)

(** ** The context curator: window and fidelity *)

Lemma sliceLast_exact (A : Type) (n : nat) (earlier recent : list A) :
  List.length recent = n -> n <> 0%nat -> sliceLast n (earlier ++ recent) = recent.
Proof.
  intros Hlen Hn. unfold sliceLast. destruct n as [|n]; [contradiction|].
  rewrite length_app, Hlen.
  replace (List.length earlier + S n - S n)%nat with (List.length earlier) by lia.
  rewrite skipn_app, skipn_all, Nat.sub_diag. reflexivity.
Qed.

Lemma sliceLast_short (A : Type) (n : nat) (l : list A) :
  (List.length l <= n)%nat -> sliceLast n l = l.
Proof.
  intros H. unfold sliceLast. destruct n as [|n]; [reflexivity|].
  replace (List.length l - S n)%nat with 0%nat by lia. reflexivity.
Qed.

(** In the modes [full] and [messages], the curator looks at the last
    [maxMessages] entries only: whatever comes before them does not change
    the output, and a conversation of at most [maxMessages] entries is
    formatted whole. *)
Theorem context_window_is_last_entries :
  forall (contextMode : ContextMode) (maxMessages : nat)
         (earlier recent : list AgentMessage),
    contextMode <> results_only ->
    maxMessages <> 0%nat ->
    (List.length recent = maxMessages ->
     formatRecentContext (earlier ++ recent) contextMode maxMessages
     = join (nl ++ nl) (flat_map (formatMessage contextMode) recent))
    /\ ((List.length recent <= maxMessages)%nat ->
        formatRecentContext recent contextMode maxMessages
        = join (nl ++ nl) (flat_map (formatMessage contextMode) recent)).
Proof.
  intros contextMode maxMessages earlier recent Hmode Hn. unfold formatRecentContext. split.
  - intros Hlen. destruct contextMode; try contradiction;
      rewrite (@sliceLast_exact _ maxMessages earlier recent Hlen Hn); reflexivity.
  - intros Hlen. destruct contextMode; try contradiction;
      rewrite (@sliceLast_short _ maxMessages recent Hlen); reflexivity.
Qed.

Lemma context_window_is_last_entries_witness :
  formatRecentContext
    ([UserMessage (UserText (lit "old"))]
     ++ [UserMessage (UserText (lit "a")); AssistantMessage [TextContent (lit "b")]])
    messages_only 2
  = join (nl ++ nl)
      (flat_map (formatMessage messages_only)
         [UserMessage (UserText (lit "a")); AssistantMessage [TextContent (lit "b")]]).
Proof.
  apply (proj1 (@context_window_is_last_entries messages_only 2
                  [UserMessage (UserText (lit "old"))]
                  [UserMessage (UserText (lit "a")); AssistantMessage [TextContent (lit "b")]]
                  ltac:(discriminate) ltac:(discriminate))).
  reflexivity.
Defined.

Lemma filter_filter_implied (A : Type) (p q : A -> bool) (l : list A) :
  (forall x, p x = true -> q x = true) -> filter p (filter q l) = filter p l.
Proof.
  intros H. induction l as [|x l IH]; simpl; [reflexivity|].
  destruct (q x) eqn:Eq; simpl.
  - rewrite IH. reflexivity.
  - destruct (p x) eqn:Ep; [|exact IH]. rewrite (H x Ep) in Eq. discriminate.
Qed.

Lemma formatMessage_without_thinking (m : AgentMessage) :
  formatMessage messages_only m = formatMessage full (withoutThinking m)
  /\ formatMessage results_only m = formatMessage messages_only m.
Proof.
  destruct m as [c|content|toolName content diff|customType content|role];
    try (split; reflexivity).
  split; [|reflexivity].
  unfold formatMessage, withoutThinking, getTextContent, joinText.
  assert (H : filter isThinkingContent
                (filter (fun c => negb (isThinkingContent c)) content) = []).
  { clear. induction content as [|c l IH]; simpl; [reflexivity|].
    destruct (isThinkingContent c) eqn:E; simpl; [exact IH|]. rewrite E. exact IH. }
  rewrite H.
  rewrite (@filter_filter_implied _ isText (fun c => negb (isThinkingContent c)) content)
    by (intros [t|t|n a|]; simpl; congruence).
  rewrite (@filter_filter_implied _ isToolCall (fun c => negb (isThinkingContent c)) content)
    by (intros [t|t|n a|]; simpl; congruence).
  reflexivity.
Qed.

Lemma sliceLast_map (A B : Type) (f : A -> B) (n : nat) (l : list A) :
  sliceLast n (map f l) = map f (sliceLast n l).
Proof.
  unfold sliceLast. destruct n; [reflexivity|]. rewrite length_map, skipn_map. reflexivity.
Qed.

(** In the mode [messages] the internal reasoning never reaches the
    reviewer: the output is the one the mode [full] gives for the same
    conversation with every thinking block deleted. *)
Theorem messages_mode_hides_thinking :
  forall (messages : list AgentMessage) (maxMessages : nat),
    formatRecentContext messages messages_only maxMessages
    = formatRecentContext (map withoutThinking messages) full maxMessages.
Proof.
  intros messages maxMessages. unfold formatRecentContext.
  rewrite sliceLast_map. f_equal.
  induction (sliceLast maxMessages messages) as [|m l IH]; simpl; [reflexivity|].
  rewrite IH, (proj1 (formatMessage_without_thinking m)). reflexivity.
Qed.

Lemma length_lit_dots : List.length (lit "...") = 3%nat.
Proof. reflexivity. Qed.

(** A tool result that is not an edit with a diff puts a preview of its
    text into the context: the text itself when it has at most 500 code
    units, else its first 500 code units followed by three dots; the tool
    name shown is the tool's name, or [unknown] when the name is missing or
    empty.  An edit result with a diff puts the whole diff there, and
    nothing of its text. *)
Theorem tool_result_preview_is_capped :
  forall (contextMode : ContextMode) (toolName : option jsstring)
         (content : list ContentBlock) (diff : option jsstring),
    (eqbOpt toolName (lit "edit") && truthyOpt diff = false ->
     exists shown preview,
       formatMessage contextMode (ToolResultMessage toolName content diff)
       = [lit "TOOL RESULT (" ++ shown ++ lit "): " ++ preview]
       /\ shown <> []
       /\ (forall name, toolName = Some name -> name <> [] -> shown = name)
       /\ (toolName = None \/ toolName = Some [] -> shown = lit "unknown")
       /\ (List.length preview <= 503)%nat
       /\ firstn 500 preview = firstn 500 (joinText content)
       /\ ((List.length (joinText content) <= 500)%nat -> preview = joinText content)
       /\ ((500 < List.length (joinText content))%nat ->
           preview = firstn 500 (joinText content) ++ lit "..."))
    /\ (forall d, toolName = Some (lit "edit") -> diff = Some d -> d <> [] ->
        forall other : list ContentBlock,
          formatMessage contextMode (ToolResultMessage toolName other diff)
          = [lit "TOOL RESULT (edit) - DIFF:" ++ nl ++ d]).
Proof.
  intros contextMode toolName content diff. split.
  - intros H. unfold formatMessage. rewrite H.
    exists (match toolName with
            | Some n => if truthy n then n else lit "unknown"
            | None => lit "unknown"
            end).
    exists (if (500 <? List.length (joinText content))%nat
            then firstn 500 (joinText content) ++ lit "..." else joinText content).
    split; [reflexivity|]. split; [|split; [|split]].
    + destruct toolName as [[|c n]|]; simpl; discriminate.
    + intros name -> Hname. destruct name; [contradiction | reflexivity].
    + intros [-> | ->]; reflexivity.
    + destruct (500 <? List.length (joinText content))%nat eqn:E.
      * apply Nat.ltb_lt in E. split; [|split; [|split]].
        -- rewrite length_app, length_firstn, length_lit_dots. lia.
        -- rewrite firstn_app, firstn_firstn, length_firstn.
           replace (Nat.min 500 500) with 500%nat by reflexivity.
           replace (500 - Nat.min 500 (List.length (joinText content)))%nat with 0%nat by lia.
           simpl. rewrite app_nil_r. reflexivity.
        -- intros C. lia.
        -- intros _. reflexivity.
      * apply Nat.ltb_ge in E. split; [lia|]. split; [reflexivity|].
        split; [reflexivity|]. intros C. lia.
  - intros d -> -> Hd other. unfold formatMessage.
    cbn [eqbOpt truthyOpt]. rewrite jseqb_refl.
    destruct d; [contradiction|]. reflexivity.
Qed.

Lemma tool_result_preview_is_capped_witness :
  exists shown preview,
    formatMessage messages_only
      (ToolResultMessage (Some (lit "bash")) [TextContent (repeat 120%N 600)] None)
    = [lit "TOOL RESULT (" ++ shown ++ lit "): " ++ preview]
    /\ shown <> []
    /\ (forall name, Some (lit "bash") = Some name -> name <> [] -> shown = name)
    /\ (Some (lit "bash") = None \/ Some (lit "bash") = Some [] -> shown = lit "unknown")
    /\ (List.length preview <= 503)%nat
    /\ firstn 500 preview = firstn 500 (joinText [TextContent (repeat 120%N 600)])
    /\ ((List.length (joinText [TextContent (repeat 120%N 600)]) <= 500)%nat ->
        preview = joinText [TextContent (repeat 120%N 600)])
    /\ ((500 < List.length (joinText [TextContent (repeat 120%N 600)]))%nat ->
        preview = firstn 500 (joinText [TextContent (repeat 120%N 600)]) ++ lit "...").
Proof.
  apply (proj1 (tool_result_preview_is_capped messages_only (Some (lit "bash"))
                  [TextContent (repeat 120%N 600)] None)).
  reflexivity.
Defined.

(** ** The configuration over a session *)

Section ConfigFacts.

Variable parse : jsstring -> option JsonEvent.

Lemma commit_config (s : Session) (others : list Suspended) (r : Stretch) :
  config (commit s others r) = config s.
Proof. reflexivity. Qed.

Lemma step_config (s : Session) (e : Event) :
  config (step parse s e)
  = match e with Configure c => command c (config s) | _ => config s end.
Proof.
  destruct e as [c|prompt now|branch r|toolName inputJson content hasImages branch r|msgs r
                |contextStr useSync r|i r|i]; cbn [step]; try reflexivity;
    try (unfold call; match goal with |- context [match ?x with _ => _ end] => destruct x end;
         reflexivity).
  - destruct (nth_error (pending s) i) as [[contextStr timeout|feedback]|];
      try reflexivity.
    destruct (resumeRunCritic parse (config s) (runtime s) contextStr timeout r);
      reflexivity.
  - destruct (nth_error (pending s) i) as [[contextStr timeout|feedback]|]; reflexivity.
Qed.

Lemma run_keeps_cap (events : list Event) (s : Session) :
  maxReviewsPerPrompt (config (run parse s events)) = maxReviewsPerPrompt (config s).
Proof.
  revert s. induction events as [|e events IH]; intros s; [reflexivity|].
  change (run parse s (e :: events)) with (run parse (step parse s e) events).
  rewrite IH, step_config. destruct e; try reflexivity. apply command_keeps_cap.
Qed.

Lemma command_timeout_range (c : Command) (st : CriticState) :
  (5000 <= timeoutMs st <= 300000)%Z -> (5000 <= timeoutMs (command c st) <= 300000)%Z.
Proof.
  intros H. destruct c as [|m|p|mode|[seconds|]| |mode]; simpl; try exact H.
  destruct ((seconds <? 5) || (300 <? seconds))%Z eqn:E; [exact H|].
  apply orb_false_iff in E. destruct E as [E1 E2].
  apply Z.ltb_ge in E1. apply Z.ltb_ge in E2. lia.
Qed.

Lemma run_timeout_range (events : list Event) (s : Session) :
  (5000 <= timeoutMs (config s) <= 300000)%Z ->
  (5000 <= timeoutMs (config (run parse s events)) <= 300000)%Z.
Proof.
  revert s. induction events as [|e events IH]; intros s H; [exact H|].
  change (run parse s (e :: events)) with (run parse (step parse s e) events).
  apply IH. rewrite step_config. destruct e; try exact H.
  apply command_timeout_range. exact H.
Qed.

End ConfigFacts.

(** The cap is fixed when the session starts and nothing changes it
    afterwards: it is the value of [--critic-max-reviews] when that is a
    positive number and 3 otherwise (zero, a negative number, no number, no
    flag), whatever was persisted and whatever commands and events
    follow. *)
Theorem cap_is_fixed_at_session_start :
  forall (parse : jsstring -> option JsonEvent) (flags : Flags)
         (stateEntry : option StateEntry) (events : list Event),
    maxReviewsPerPrompt (config (run parse (boot flags stateEntry) events))
    = match flagMaxReviews flags with
      | Some n => if (0 <? n)%Z then n else 3%Z
      | None => 3%Z
      end.
Proof.
  intros parse flags stateEntry events. rewrite run_keeps_cap.
  unfold boot, session_start. destruct stateEntry; reflexivity.
Qed.

(** The timeout stays between 5 and 300 seconds: it starts at 60 seconds,
    [/critic-timeout] ignores a value outside the range or not a number,
    and no other command or event touches it -- provided that the timeout
    restored from the persisted entry, if there is one, is in the range. *)
Theorem timeout_stays_in_range :
  forall (parse : jsstring -> option JsonEvent) (flags : Flags)
         (stateEntry : option StateEntry) (events : list Event),
    (forall data t, stateEntry = Some data -> entryTimeoutMs data = Some t ->
                    (5000 <= t <= 300000)%Z) ->
    (5000 <= timeoutMs (config (run parse (boot flags stateEntry) events)) <= 300000)%Z.
Proof.
  intros parse flags stateEntry events H. apply run_timeout_range.
  unfold boot, session_start. destruct stateEntry as [data|]; cbn [config timeoutMs].
  - destruct (entryTimeoutMs data) as [t|] eqn:E; cbn [orElse].
    + apply (H data t eq_refl E).
    + unfold initialState, DEFAULT_TIMEOUT_MS. cbn [timeoutMs]. lia.
  - unfold initialState, DEFAULT_TIMEOUT_MS. cbn [timeoutMs]. lia.
Qed.

Lemma timeout_stays_in_range_witness :
  (5000 <= timeoutMs
             (config (run sampleParse (boot strictFlags (Some (persistState initialState)))
                        [Configure (CmdCriticTimeout (Some 3%Z));
                         Configure (CmdCriticTimeout (Some 120%Z));
                         Configure (CmdCriticTimeout (Some 900%Z))]))
   <= 300000)%Z.
Proof.
  apply (@timeout_stays_in_range sampleParse strictFlags (Some (persistState initialState))
           [Configure (CmdCriticTimeout (Some 3%Z));
            Configure (CmdCriticTimeout (Some 120%Z));
            Configure (CmdCriticTimeout (Some 900%Z))]).
  intros data t Hd Ht. injection Hd as <-. injection Ht as <-.
  unfold initialState, DEFAULT_TIMEOUT_MS. cbn [timeoutMs]. lia.
Defined.

(** What is persisted comes back at the next session start, over flags and
    defaults: enabled, prompt, trigger mode, trigger tools, timeout and
    context mode are the persisted ones, and so is the model when one was
    set.  A model that was cleared, the debug switch and the cap are not
    persisted: they come from the flags and defaults of the new session. *)
Theorem persisted_state_is_restored :
  forall (st st0 : CriticState) (flags : Flags),
    let restored := session_start flags (Some (persistState st)) st0 in
    let fresh := session_start flags None st0 in
    enabled restored = enabled st
    /\ systemPrompt restored = systemPrompt st
    /\ triggerMode restored = triggerMode st
    /\ triggerTools restored = triggerTools st
    /\ timeoutMs restored = timeoutMs st
    /\ contextMode restored = contextMode st
    /\ criticModel restored
       = match criticModel st with Some m => Some m | None => criticModel fresh end
    /\ debug restored = debug fresh
    /\ maxReviewsPerPrompt restored = maxReviewsPerPrompt fresh.
Proof.
  intros st st0 flags restored fresh. unfold restored, fresh, session_start, persistState.
  cbn. destruct (criticModel st); repeat split.
Qed.

(** ** Reviews per request *)

Section RequestFacts.

Variable parse : jsstring -> option JsonEvent.

Lemma afterReview_reviews (st : CriticState) (rt : CriticRuntimeState) (contextStr : jsstring)
  (answer : Outcome CriticResult) :
  reviewsThisPrompt (leaves (afterReview st rt contextStr answer)) = reviewsThisPrompt rt.
Proof. exact (proj1 (afterReview_flag st rt contextStr answer)). Qed.

(** A call of [triggerCritic] counts what it runs. *)
Lemma triggerCritic_counts_runs (st : CriticState) (rt : CriticRuntimeState)
  (contextStr : jsstring) (useSync : bool) (r : SyncRun) :
  let s := triggerCritic parse st rt contextStr useSync r in
  reviewsThisPrompt (leaves s) = (reviewsThisPrompt rt + Z.of_nat (reviewerRuns (effects s)))%Z.
Proof.
  unfold triggerCritic.
  destruct (negb (enabled st)); [simpl; lia|].
  destruct (isProcessingCritic rt); [simpl; lia|].
  destruct (maxReviewsPerPrompt st <=? reviewsThisPrompt rt)%Z.
  { destruct (lastVerdictApproved rt) as [[|]|]; simpl; lia. }
  destruct useSync; cbn [leaves effects].
  - rewrite afterReview_reviews.
    change (RunReviewer true contextStr
            :: effects (afterReview st (beginReview rt) contextStr
                          (runCriticSync parse (timeoutMs st) r)))
      with ([RunReviewer true contextStr]
            ++ effects (afterReview st (beginReview rt) contextStr
                          (runCriticSync parse (timeoutMs st) r))).
    rewrite runs_app, afterReview_runs_nothing. simpl. lia.
  - simpl. lia.
Qed.

Lemma step_counts_runs (s : Session) (e : Event) :
  startsRequest e = false ->
  exists added,
    trace (step parse s e) = trace s ++ added
    /\ reviewsThisPrompt (runtime (step parse s e))
       = (reviewsThisPrompt (runtime s) + Z.of_nat (reviewerRuns added))%Z.
Proof.
  intros Hreq.
  assert (Hnone : exists added, trace s = trace s ++ added
            /\ reviewsThisPrompt (runtime s)
               = (reviewsThisPrompt (runtime s) + Z.of_nat (reviewerRuns added))%Z).
  { exists []. rewrite app_nil_r. split; [reflexivity | simpl; lia]. }
  assert (Hcall : forall c useSync r, exists added,
    trace (call parse s c useSync r) = trace s ++ added
    /\ reviewsThisPrompt (runtime (call parse s c useSync r))
       = (reviewsThisPrompt (runtime s) + Z.of_nat (reviewerRuns added))%Z).
  { intros [c|] useSync r; [|exact Hnone]. cbn [call commit trace runtime].
    eexists. split; [reflexivity|]. apply triggerCritic_counts_runs. }
  destruct e as [c|prompt now|branch r|toolName inputJson content hasImages branch r|msgs r
                |contextStr useSync r|i r|i]; cbn [step]; try apply Hcall.
  - exact Hnone.
  - unfold startsRequest in Hreq. cbn [runtime trace]. unfold before_agent_start.
    rewrite Hreq. exact Hnone.
  - destruct (nth_error (pending s) i) as [[contextStr timeout|feedback]|]; try exact Hnone.
    unfold resumeRunCritic.
    destruct (runCritic parse timeout r) as [answer|]; [|exact Hnone].
    cbn [commit trace runtime].
    eexists. split; [reflexivity|].
    rewrite afterReview_reviews, afterReview_runs_nothing. simpl. lia.
  - destruct (nth_error (pending s) i) as [[contextStr timeout|feedback]|]; try exact Hnone.
    cbn [commit trace runtime afterDelay leaves effects]. eexists. split; [reflexivity|].
    simpl. lia.
Qed.

Lemma run_counts_runs (events : list Event) (s : Session) :
  existsb startsRequest events = false ->
  exists added,
    trace (run parse s events) = trace s ++ added
    /\ reviewsThisPrompt (runtime (run parse s events))
       = (reviewsThisPrompt (runtime s) + Z.of_nat (reviewerRuns added))%Z.
Proof.
  revert s. induction events as [|e events IH]; intros s Hreq.
  - exists []. simpl. rewrite app_nil_r. split; [reflexivity | lia].
  - simpl in Hreq. apply orb_false_iff in Hreq. destruct Hreq as [He Hrest].
    change (run parse s (e :: events)) with (run parse (step parse s e) events).
    destruct (@step_counts_runs s e He) as [added1 [Ht1 Hr1]].
    destruct (IH (step parse s e) Hrest) as [added2 [Ht2 Hr2]].
    exists (added1 ++ added2). rewrite Ht2, Ht1, app_assoc. split; [reflexivity|].
    rewrite Hr2, Hr1, runs_app. lia.
Qed.

End RequestFacts.

(** Within one user request the counter is the number of runner
    invocations since the request began, and so at most
    [maxReviewsPerPrompt] reviews are run for one request, in every session
    and whatever events (triggers, resumed calls, commands, critic-originated
    prompts) follow the request. *)
Theorem reviews_per_request_are_bounded :
  forall (parse : jsstring -> option JsonEvent) (flags : Flags)
         (stateEntry : option StateEntry) (before later : list Event)
         (prompt : jsstring) (now : Z),
    startsWith prompt (lit "[Critic") = false ->
    existsb startsRequest later = false ->
    let s0 := step parse (run parse (boot flags stateEntry) before)
                (BeforeAgentStart prompt now) in
    exists added,
      trace (run parse s0 later) = trace s0 ++ added
      /\ Z.of_nat (reviewerRuns added) = reviewsThisPrompt (runtime (run parse s0 later))
      /\ (Z.of_nat (reviewerRuns added) <= maxReviewsPerPrompt (config s0))%Z.
Proof.
  intros parse flags stateEntry before later prompt now Hp Hlater s0.
  destruct (@run_counts_runs parse later s0 Hlater) as [added [Ht Hr]].
  assert (H0 : reviewsThisPrompt (runtime s0) = 0%Z).
  { unfold s0. cbn [step runtime]. unfold before_agent_start. rewrite Hp. reflexivity. }
  assert (Hinv : Invariant (run parse s0 later)).
  { apply run_invariant. unfold s0. apply step_invariant. apply run_invariant.
    apply boot_invariant. }
  destruct Hinv as [Hcap _ _ _]. rewrite run_keeps_cap in Hcap.
  exists added. split; [exact Ht|]. rewrite Hr, H0 in *. split; lia.
Qed.

Lemma reviews_per_request_are_bounded_witness :
  exists added,
    trace (run sampleParse
             (step sampleParse (run sampleParse (boot strictFlags None) [])
                (BeforeAgentStart (lit "Fix save()") 1000))
             [TurnEnd sampleBranch blockedRun; TurnEnd sampleBranch blockedRun])
    = trace (step sampleParse (run sampleParse (boot strictFlags None) [])
               (BeforeAgentStart (lit "Fix save()") 1000)) ++ added
    /\ Z.of_nat (reviewerRuns added)
       = reviewsThisPrompt
           (runtime (run sampleParse
                       (step sampleParse (run sampleParse (boot strictFlags None) [])
                          (BeforeAgentStart (lit "Fix save()") 1000))
                       [TurnEnd sampleBranch blockedRun; TurnEnd sampleBranch blockedRun]))
    /\ (Z.of_nat (reviewerRuns added)
        <= maxReviewsPerPrompt
             (config (step sampleParse (run sampleParse (boot strictFlags None) [])
                        (BeforeAgentStart (lit "Fix save()") 1000))))%Z.
Proof.
  apply (@reviews_per_request_are_bounded sampleParse strictFlags None []
           [TurnEnd sampleBranch blockedRun; TurnEnd sampleBranch blockedRun]
           (lit "Fix save()") 1000); reflexivity.
Defined.

(** ** What the extension says to the primary agent *)

Section MessageFacts.

Variable parse : jsstring -> option JsonEvent.

Lemma userMessages_app (a b : list Effect) :
  userMessages (a ++ b) = userMessages a ++ userMessages b.
Proof. unfold userMessages. apply flat_map_app. Qed.

Lemma feedbackMessage_prefixed (r : CriticResult) : prefixed (feedbackMessage r).
Proof.
  apply startsWith_prefix. exists (lit " feedback]: " ++ critique r). reflexivity.
Qed.

Lemma stopMessage_prefixed (st : CriticState) : prefixed (stopMessage st).
Proof.
  apply startsWith_prefix.
  exists (lit "]: STOP. Maximum review attempts (" ++ ofZ (maxReviewsPerPrompt st)
          ++ lit ") reached without approval. Wait for user input before continuing.").
  reflexivity.
Qed.

Lemma afterReview_prefixed (st : CriticState) (rt : CriticRuntimeState)
  (contextStr : jsstring) (answer : Outcome CriticResult) :
  userMessages (effects (afterReview st rt contextStr answer)) = []
  /\ forall feedback,
       suspended (afterReview st rt contextStr answer) = Some (AwaitDelay feedback) ->
       prefixed feedback.
Proof.
  unfold afterReview. destruct answer as [result|e]; [|split; [reflexivity | discriminate]].
  destruct (negb (approved result) && negb (hasError result) && truthy (trim (critique result)));
    [destruct (_ <? _)%Z|]; (split; [reflexivity|]); cbn [suspended]; try discriminate.
  intros feedback H. injection H as <-. apply feedbackMessage_prefixed.
Qed.

Lemma triggerCritic_prefixed (st : CriticState) (rt : CriticRuntimeState)
  (contextStr : jsstring) (useSync : bool) (r : SyncRun) :
  Forall prefixed (userMessages (effects (triggerCritic parse st rt contextStr useSync r)))
  /\ forall feedback,
       suspended (triggerCritic parse st rt contextStr useSync r) = Some (AwaitDelay feedback) ->
       prefixed feedback.
Proof.
  unfold triggerCritic.
  destruct (negb (enabled st)); [split; [constructor | discriminate]|].
  destruct (isProcessingCritic rt); [split; [constructor | discriminate]|].
  destruct (maxReviewsPerPrompt st <=? reviewsThisPrompt rt)%Z.
  { split; [|discriminate].
    destruct (lastVerdictApproved rt) as [[|]|]; cbn [effects userMessages flat_map app];
      repeat first [apply stopMessage_prefixed | constructor]. }
  destruct useSync; cbn [effects suspended].
  - destruct (afterReview_prefixed st (beginReview rt) contextStr
                (runCriticSync parse (timeoutMs st) r)) as [H1 H2].
    split; [|exact H2].
    change (userMessages (RunReviewer true contextStr
              :: effects (afterReview st (beginReview rt) contextStr
                            (runCriticSync parse (timeoutMs st) r))))
      with (userMessages (effects (afterReview st (beginReview rt) contextStr
                            (runCriticSync parse (timeoutMs st) r)))).
    rewrite H1. constructor.
  - split; [constructor | discriminate].
Qed.

Lemma removeNth_In (A : Type) (i : nat) (l : list A) (x : A) :
  In x (removeNth i l) -> In x l.
Proof.
  revert i. induction l as [|y l IH]; intros i H; [destruct i; exact H|].
  destruct i as [|i]; simpl in H; [right; exact H|].
  destruct H as [H|H]; [left; exact H | right; exact (IH i H)].
Qed.

Lemma step_wellPrefixed (s : Session) (e : Event) :
  wellPrefixed s -> wellPrefixed (step parse s e).
Proof.
  intros [Ht Hp].
  assert (Hcall : forall c useSync r, wellPrefixed (call parse s c useSync r)).
  { intros [c|] useSync r; [|split; assumption]. cbn [call].
    destruct (triggerCritic_prefixed (config s) (runtime s) c useSync r) as [H1 H2].
    split; cbn [commit trace pending].
    - rewrite userMessages_app. apply Forall_app. split; assumption.
    - intros feedback Hin. apply in_app_or in Hin. destruct Hin as [Hin|Hin]; [exact (Hp _ Hin)|].
      destruct (suspended _) as [k|]; [|contradiction].
      destruct Hin as [->|[]]. apply H2. reflexivity. }
  destruct e as [c|prompt now|branch r|toolName inputJson content hasImages branch r|msgs r
                |contextStr useSync r|i r|i]; cbn [step]; try apply Hcall;
    try (split; assumption).
  - destruct (nth_error (pending s) i) as [[contextStr timeout|feedback]|] eqn:E;
      try (split; assumption).
    unfold resumeRunCritic.
    destruct (runCritic parse timeout r) as [answer|]; [|split; assumption].
    destruct (afterReview_prefixed (config s) (runtime s) contextStr answer) as [H1 H2].
    split; cbn [commit trace pending].
    + rewrite userMessages_app, H1, app_nil_r. exact Ht.
    + intros feedback Hin. apply in_app_or in Hin. destruct Hin as [Hin|Hin].
      * apply Hp. exact (removeNth_In _ _ _ Hin).
      * destruct (suspended _) as [k|]; [|contradiction].
        destruct Hin as [->|[]]. apply H2. reflexivity.
  - destruct (nth_error (pending s) i) as [[contextStr timeout|feedback]|] eqn:E;
      try (split; assumption).
    split; cbn [commit trace pending afterDelay effects suspended].
    + rewrite userMessages_app. apply Forall_app. split; [exact Ht|].
      cbn. constructor; [|constructor]. apply Hp. exact (nth_error_In _ _ E).
    + intros fb Hin. rewrite app_nil_r in Hin. apply Hp. exact (removeNth_In _ _ _ Hin).
Qed.

Lemma run_wellPrefixed (events : list Event) (s : Session) :
  wellPrefixed s -> wellPrefixed (run parse s events).
Proof.
  revert s. induction events as [|e events IH]; intros s H; [exact H|].
  apply (IH (step parse s e)). apply step_wellPrefixed. exact H.
Qed.

End MessageFacts.

(** Every user message the extension ever sends to the primary agent,
    stop instruction or feedback, starts with ["[Critic"]; none of them,
    coming back as the prompt of [before_agent_start], resets the review
    state. *)
Theorem sent_messages_carry_critic_prefix :
  forall (parse : jsstring -> option JsonEvent) (flags : Flags)
         (stateEntry : option StateEntry) (events : list Event),
    Forall (fun text =>
              startsWith text (lit "[Critic") = true
              /\ forall now rt, before_agent_start text now rt = rt)
      (userMessages (trace (run parse (boot flags stateEntry) events))).
Proof.
  intros parse flags stateEntry events.
  assert (H : wellPrefixed (run parse (boot flags stateEntry) events)).
  { apply run_wellPrefixed. split; [constructor | intros feedback []]. }
  destruct H as [H _]. eapply Forall_impl; [|exact H].
  intros text Ht. split; [exact Ht|]. intros now rt.
  unfold before_agent_start. unfold prefixed in Ht. rewrite Ht. reflexivity.
Qed.

(** ** When nothing happens *)

Section QuietFacts.

Variable parse : jsstring -> option JsonEvent.

Lemma call_none (s : Session) (useSync : bool) (r : SyncRun) : call parse s None useSync r = s.
Proof. reflexivity. Qed.

Lemma call_disabled (s : Session) (c : option jsstring) (useSync : bool) (r : SyncRun) :
  enabled (config s) = false -> call parse s c useSync r = s.
Proof.
  intros H. destruct c as [c|]; [|reflexivity]. cbn [call]. unfold triggerCritic.
  rewrite H. cbn [negb]. apply commit_nothing.
Qed.

Lemma command_enabled (c : Command) (st : CriticState) :
  isConfigureCritic (Configure c) = false -> enabled (command c st) = enabled st.
Proof. destruct c; simpl; intros H; try reflexivity. discriminate. Qed.

Lemma step_disabled (s : Session) (e : Event) :
  enabled (config s) = false -> pending s = [] -> isConfigureCritic e = false ->
  trace (step parse s e) = trace s /\ pending (step parse s e) = []
  /\ enabled (config (step parse s e)) = false
  /\ isProcessingCritic (runtime (step parse s e)) = isProcessingCritic (runtime s).
Proof.
  intros He Hp Hc.
  destruct e as [c|prompt now|branch r|toolName inputJson content hasImages branch r|msgs r
                |contextStr useSync r|i r|i]; cbn [step];
    try (rewrite call_disabled by exact He; repeat split; assumption).
  - cbn. rewrite (command_enabled c (config s) Hc). repeat split; assumption.
  - cbn. unfold before_agent_start. destruct (negb _); repeat split; assumption.
  - rewrite Hp. destruct i; cbn [nth_error]; rewrite <- Hp; repeat split; assumption.
  - rewrite Hp. destruct i; cbn [nth_error]; rewrite <- Hp; repeat split; assumption.
Qed.

End QuietFacts.

(** A disabled critic is silent: as long as [/critic] is not used, no
    event of any kind makes it invoke a runner, display or send anything,
    suspend a call or set the in-flight flag. *)
Theorem disabled_critic_does_nothing :
  forall (parse : jsstring -> option JsonEvent) (events : list Event) (s : Session),
    enabled (config s) = false ->
    pending s = [] ->
    existsb isConfigureCritic events = false ->
    trace (run parse s events) = trace s
    /\ pending (run parse s events) = []
    /\ enabled (config (run parse s events)) = false
    /\ isProcessingCritic (runtime (run parse s events)) = isProcessingCritic (runtime s).
Proof.
  intros parse events. induction events as [|e events IH]; intros s He Hp Hc.
  - repeat split; assumption.
  - simpl in Hc. apply orb_false_iff in Hc. destruct Hc as [Hc1 Hc2].
    destruct (step_disabled parse s e He Hp Hc1) as [Ht [Hp' [He' Hf]]].
    change (run parse s (e :: events)) with (run parse (step parse s e) events).
    destruct (IH (step parse s e) He' Hp' Hc2) as [Ht2 [Hp2 [He2 Hf2]]].
    rewrite Ht2, Hp2, He2, Hf2, Ht, Hf. repeat split.
Qed.

Lemma disabled_critic_does_nothing_witness :
  trace (run sampleParse
           {| config := initialState; runtime := initialRuntime; pending := []; trace := [] |}
           [BeforeAgentStart (lit "Fix save()") 1000; TurnEnd sampleBranch blockedRun;
            Configure (CmdCriticTrigger agent_end); AgentEnd sampleBranch blockedRun;
            Trigger (lit "x") false blockedRun; DelayElapses 0])
  = []
  /\ pending (run sampleParse
           {| config := initialState; runtime := initialRuntime; pending := []; trace := [] |}
           [BeforeAgentStart (lit "Fix save()") 1000; TurnEnd sampleBranch blockedRun;
            Configure (CmdCriticTrigger agent_end); AgentEnd sampleBranch blockedRun;
            Trigger (lit "x") false blockedRun; DelayElapses 0]) = []
  /\ enabled (config (run sampleParse
           {| config := initialState; runtime := initialRuntime; pending := []; trace := [] |}
           [BeforeAgentStart (lit "Fix save()") 1000; TurnEnd sampleBranch blockedRun;
            Configure (CmdCriticTrigger agent_end); AgentEnd sampleBranch blockedRun;
            Trigger (lit "x") false blockedRun; DelayElapses 0])) = false
  /\ isProcessingCritic (runtime (run sampleParse
           {| config := initialState; runtime := initialRuntime; pending := []; trace := [] |}
           [BeforeAgentStart (lit "Fix save()") 1000; TurnEnd sampleBranch blockedRun;
            Configure (CmdCriticTrigger agent_end); AgentEnd sampleBranch blockedRun;
            Trigger (lit "x") false blockedRun; DelayElapses 0])) = false.
Proof.
  apply (@disabled_critic_does_nothing sampleParse
           [BeforeAgentStart (lit "Fix save()") 1000; TurnEnd sampleBranch blockedRun;
            Configure (CmdCriticTrigger agent_end); AgentEnd sampleBranch blockedRun;
            Trigger (lit "x") false blockedRun; DelayElapses 0]
           {| config := initialState; runtime := initialRuntime; pending := []; trace := [] |});
    reflexivity.
Defined.

(** Each handler fires in its own mode only.  A [turn_end] event outside
    the mode [turn_end], an [agent_end] event outside [agent_end], a
    [tool_result] event in one of these two modes, for a tool that is not a
    trigger tool, or in the mode [visual] without an image: each leaves the
    session as it is.  So does a [turn_end] or [agent_end] event whose
    conversation formats to blank text. *)
Theorem handlers_fire_in_their_mode_only :
  forall (parse : jsstring -> option JsonEvent) (s : Session),
    (forall branch r, triggerMode (config s) <> turn_end ->
                      step parse s (TurnEnd branch r) = s)
    /\ (forall msgs r, triggerMode (config s) <> agent_end ->
                       step parse s (AgentEnd msgs r) = s)
    /\ (forall toolName inputJson content hasImages branch r,
          triggerMode (config s) = turn_end \/ triggerMode (config s) = agent_end
          \/ includes (triggerTools (config s)) toolName = false
          \/ (triggerMode (config s) = visual /\ hasImages = false) ->
          step parse s (ToolResult toolName inputJson content hasImages branch r) = s)
    /\ (forall msgs r,
          trim (formatRecentContext msgs (contextMode (config s)) defaultMaxMessages) = [] ->
          step parse s (TurnEnd msgs r) = s /\ step parse s (AgentEnd msgs r) = s).
Proof.
  intros parse s. split; [|split; [|split]].
  - intros branch r H. cbn [step]. unfold turn_end_context.
    destruct (triggerMode (config s)); try reflexivity. contradiction.
  - intros msgs r H. cbn [step]. unfold agent_end_context.
    destruct (triggerMode (config s)); try reflexivity. contradiction.
  - intros toolName inputJson content hasImages branch r H. cbn [step].
    unfold tool_result_context.
    destruct (negb (enabled (config s))); [reflexivity|].
    destruct H as [H | [H | [H | [H1 H2]]]].
    + rewrite H. reflexivity.
    + rewrite H. reflexivity.
    + rewrite H. destruct (triggerMode (config s)); reflexivity.
    + rewrite H1, H2. destruct (includes _ _); reflexivity.
  - intros msgs r H. cbn [step]. unfold turn_end_context, agent_end_context. rewrite H.
    cbn [truthy]. split; destruct (triggerMode (config s)); destruct (enabled (config s));
      reflexivity.
Qed.

Lemma handlers_fire_in_their_mode_only_witness :
  step sampleParse (boot strictFlags None) (AgentEnd sampleBranch blockedRun)
  = boot strictFlags None.
Proof.
  apply (proj1 (proj2 (handlers_fire_in_their_mode_only sampleParse (boot strictFlags None)))).
  discriminate.
Defined.

(** ** The awaited runner: abort *)



(** ** Chunks of the reviewer's output *)

Section ChunkFacts.

Variable parse : jsstring -> option JsonEvent.

(** [processLine] neither reads nor writes the buffer. *)
Lemma processLine_setBuffer (rest : jsstring) (l : Listeners) (line : jsstring) :
  processLine parse (setBuffer rest l) line
  = option_map (setBuffer rest) (processLine parse l line).
Proof.
  unfold processLine. destruct (negb (truthy (trim line))); [reflexivity|].
  destruct (parse line) as [[[msg|]|message| |]|]; reflexivity.
Qed.

Lemma processLines_setBuffer (rest : jsstring) (lines : list jsstring) (l : Listeners) :
  foldM (processLine parse) lines (setBuffer rest l)
  = option_map (setBuffer rest) (foldM (processLine parse) lines l).
Proof.
  revert l. induction lines as [|line lines IH]; intros l; [reflexivity|].
  cbn [foldM]. rewrite processLine_setBuffer.
  destruct (processLine parse l line) as [l1|]; [apply IH | reflexivity].
Qed.

(** Two chunks in a row are read as the one chunk they make together. *)
Lemma onEvent_stdout_app (l : Listeners) (a b : jsstring) :
  match onEvent parse l (StdoutData a) with
  | Some l1 => onEvent parse l1 (StdoutData b)
  | None => None
  end
  = onEvent parse l (StdoutData (a ++ b)).
Proof.
  rewrite (onEvent_stdout parse l a), (onEvent_stdout parse l (a ++ b)).
  rewrite !processLines_setBuffer.
  replace (buffer l ++ a ++ b) with ((buffer l ++ a) ++ b) by (symmetry; apply app_assoc).
  rewrite (split_app 10%N (buffer l ++ a) b).
  pose proof (split_nonempty 10%N (last (split 10%N (buffer l ++ a)) [] ++ b)) as Hne.
  rewrite removelast_app by exact Hne.
  rewrite last_app_nonempty by exact Hne.
  rewrite foldM_app.
  destruct (foldM (processLine parse) (removelast (split 10%N (buffer l ++ a))) l)
    as [m|]; [|reflexivity].
  cbn [option_map]. rewrite onEvent_stdout. cbn [setBuffer buffer].
  apply (processLines_setBuffer _ _ m).
Qed.

End ChunkFacts.

(** How the reviewer's standard output is cut into chunks does not change
    what [runCritic] gives its caller: two chunks that arrive one after the
    other give the same result as the single chunk made of both. *)
Theorem stdout_chunking_is_irrelevant :
  forall (parse : jsstring -> option JsonEvent) (timeout : Z)
         (tempFile spawn : Outcome unit) (earlier later : list ProcEvent)
         (a b : jsstring) (ending : ProcEnd) (start now : Z),
    runCritic parse timeout
      {| asyncTempFile := tempFile; asyncSpawn := spawn;
         asyncEvents := earlier ++ StdoutData a :: StdoutData b :: later;
         asyncEnd := ending; asyncStart := start; asyncNow := now |}
    = runCritic parse timeout
        {| asyncTempFile := tempFile; asyncSpawn := spawn;
           asyncEvents := earlier ++ StdoutData (a ++ b) :: later;
           asyncEnd := ending; asyncStart := start; asyncNow := now |}.
Proof.
  intros. unfold runCritic, runCriticBody, listen.
  cbn [asyncTempFile asyncSpawn asyncEvents asyncEnd asyncStart asyncNow].
  rewrite !foldM_app. cbn [foldM].
  destruct tempFile as [u|e]; [|reflexivity].
  destruct spawn as [v|e]; [|reflexivity].
  destruct (foldM (onEvent parse) earlier _) as [l1|]; [|reflexivity].
  rewrite <- (onEvent_stdout_app parse l1 a b).
  destruct (onEvent parse l1 (StdoutData a)) as [l2|]; reflexivity.
Qed.

(** ** What an approval rests on *)

(** The parser approves only a text with a marker block that says
    [APPROVED]. *)
Lemma approved_has_marker (text : jsstring) :
  v_approved (parseVerdict text) = true -> exists pre, markerAt text pre (lit "APPROVED").
Proof.
  unfold parseVerdict. destruct (exec verdictRe text) as [m|] eqn:E; [|discriminate].
  destruct (@exec_verdict_some text m E) as [keyword [k [Hat [Hcap Hk]]]].
  assert (Hin : In keyword keywords).
  { destruct Hat as [block [post [_ Hb]]]. exact (markerBlock_keyword Hb). }
  rewrite Hcap, (captured_status Hin Hk). cbn [v_approved].
  intros H. apply jseqb_eq in H. subst keyword. exists (before m). exact Hat.
Qed.

Lemma lastAssistant_In (msgs : list Message) (msg : Message) :
  lastAssistant msgs = Some msg -> In msg msgs /\ isAssistant msg = true.
Proof.
  induction msgs as [|m msgs IH]; [discriminate|].
  cbn [lastAssistant]. destruct (isAssistant m) eqn:E.
  - intros H. injection H as ->. split; [left; reflexivity | exact E].
  - intros H. destruct (IH H) as [H1 H2]. split; [right; exact H1 | exact H2].
Qed.

Section ApprovalFacts.

Variable parse : jsstring -> option JsonEvent.

Lemma printed_app (out data : jsstring) (msg : Message) :
  printed parse out msg -> printed parse (out ++ data) msg.
Proof.
  intros [line [a [b [-> H]]]]. exists line, a, (b ++ data).
  split; [|exact H]. repeat rewrite <- app_assoc. reflexivity.
Qed.

Lemma processLine_messages (l l' : Listeners) (line : jsstring) (msg : Message) :
  processLine parse l line = Some l' ->
  In msg (messages l') ->
  In msg (messages l) \/ parse line = Some (MessageEnd (Some msg)).
Proof.
  unfold processLine. destruct (negb (truthy (trim line))).
  { intros H. injection H as <-. left. assumption. }
  destruct (parse line) as [[[m|]|message| |]|]; intros H; try discriminate H;
    injection H as <-; try (left; assumption).
  cbn [messages]. intros H. apply in_app_or in H. destruct H as [H | [-> | []]].
  - left. exact H.
  - right. reflexivity.
Qed.

Lemma processLines_messages (lines : list jsstring) (l l' : Listeners) (msg : Message) :
  foldM (processLine parse) lines l = Some l' ->
  In msg (messages l') ->
  In msg (messages l)
  \/ exists line, In line lines /\ parse line = Some (MessageEnd (Some msg)).
Proof.
  revert l. induction lines as [|line lines IH]; intros l H Hin.
  - injection H as <-. left. exact Hin.
  - cbn [foldM] in H. destruct (processLine parse l line) as [l1|] eqn:E; [|discriminate].
    destruct (IH _ H Hin) as [H1 | [x [Hx Hp]]].
    + destruct (processLine_messages _ _ _ E H1) as [H2 | H2].
      * left. exact H2.
      * right. exists line. split; [left; reflexivity | exact H2].
    + right. exists x. split; [right; exact Hx | exact Hp].
Qed.

(** The buffer is the end of what was printed so far, and every collected
    message was printed. *)
Lemma onEvent_printed (e : ProcEvent) (l l' : Listeners) (out : jsstring) :
  (exists pre, out = pre ++ buffer l) ->
  (forall msg, In msg (messages l) -> printed parse out msg) ->
  onEvent parse l e = Some l' ->
  (exists pre, out ++ stdoutOf [e] = pre ++ buffer l')
  /\ forall msg, In msg (messages l') -> printed parse (out ++ stdoutOf [e]) msg.
Proof.
  intros [pre Hpre] Hmsgs.
  destruct e as [data|data| |].
  - rewrite onEvent_stdout. cbn [stdoutOf flat_map]. rewrite app_nil_r. intros H.
    destruct (processLines_keep _ _ _ H) as [_ [_ [_ [Hbuf _]]]].
    cbn [setBuffer buffer] in Hbuf. split.
    + destruct (split_last 10%N (buffer l ++ data)) as [a Ha].
      exists (pre ++ a). rewrite Hbuf, Hpre. repeat rewrite <- app_assoc.
      f_equal. exact Ha.
    + intros msg Hin. destruct (processLines_messages _ _ _ H Hin) as [G | [line [Hl Hp]]].
      * apply printed_app. apply Hmsgs. exact G.
      * apply In_removelast_In in Hl. apply split_In in Hl.
        destruct Hl as [a [b Hab]].
        exists line, (pre ++ a), b. split; [|exact Hp].
        rewrite Hpre. repeat rewrite <- app_assoc. f_equal. exact Hab.
  - intros H. injection H as <-. cbn [stdoutOf flat_map buffer messages].
    rewrite !app_nil_r. split; [exists pre; exact Hpre | exact Hmsgs].
  - cbn [stdoutOf flat_map onEvent]. rewrite !app_nil_r.
    destruct (timerPending l); intros H; injection H as <-; cbn [buffer messages];
      (split; [exists pre; exact Hpre | exact Hmsgs]).
  - intros H. injection H as <-. cbn [stdoutOf flat_map buffer messages].
    rewrite !app_nil_r. split; [exists pre; exact Hpre | exact Hmsgs].
Qed.

Lemma onEvents_printed (events : list ProcEvent) (l l' : Listeners) (out : jsstring) :
  (exists pre, out = pre ++ buffer l) ->
  (forall msg, In msg (messages l) -> printed parse out msg) ->
  foldM (onEvent parse) events l = Some l' ->
  (exists pre, out ++ stdoutOf events = pre ++ buffer l')
  /\ forall msg, In msg (messages l') -> printed parse (out ++ stdoutOf events) msg.
Proof.
  revert l out. induction events as [|e events IH]; intros l out Hb Hm H.
  - injection H as <-. cbn [stdoutOf flat_map]. rewrite app_nil_r. split; assumption.
  - cbn [foldM] in H. destruct (onEvent parse l e) as [l1|] eqn:E; [|discriminate].
    destruct (@onEvent_printed e l l1 out Hb Hm E) as [Hb' Hm'].
    specialize (IH l1 (out ++ stdoutOf [e]) Hb' Hm' H).
    replace (out ++ stdoutOf (e :: events)) with ((out ++ stdoutOf [e]) ++ stdoutOf events).
    + exact IH.
    + rewrite <- app_assoc. f_equal. unfold stdoutOf. cbn [flat_map].
      rewrite app_nil_r. reflexivity.
Qed.

(** Every message collected when the promise settles was printed. *)
Lemma settled_printed (r : AsyncRun) (l : Listeners) (exitCode : Z) (msg : Message) :
  settled parse r = Some (l, exitCode) ->
  In msg (messages l) ->
  printed parse (stdoutOf (asyncEvents r)) msg.
Proof.
  intros H. destruct (@settled_inv parse r l exitCode H) as [l1 [H1 H2]].
  assert (G : (exists pre, [] ++ stdoutOf (asyncEvents r) = pre ++ buffer l1)
              /\ forall m, In m (messages l1) ->
                           printed parse ([] ++ stdoutOf (asyncEvents r)) m).
  { revert H1. apply onEvents_printed; [exists []; reflexivity | intros m []]. }
  destruct G as [[pre Hpre] Hm].
  cbn [app] in Hpre, Hm.
  destruct (asyncEnd r) as [code|message]; cbn [onEnd] in H2.
  - destruct (truthy (trim (buffer l1))).
    + destruct (processLine parse l1 (buffer l1)) as [l2|] eqn:E; [|discriminate].
      injection H2 as <- _. intros Hin.
      destruct (processLine_messages _ _ _ E Hin) as [G | G].
      * apply Hm. exact G.
      * eexists _, pre, []. split; [|exact G]. rewrite app_nil_r. exact Hpre.
    + injection H2 as <- _. apply Hm.
  - injection H2 as <- _. cbn [setShared messages]. apply Hm.
Qed.

End ApprovalFacts.

(** [runCritic] never approves on its own: when its outcome is approved,
    the reviewer printed a [message_end] record of an assistant message
    whose first text part holds a marker block with [APPROVED], and the run
    neither timed out nor was aborted. *)
Theorem async_approval_needs_marker :
  forall (parse : jsstring -> option JsonEvent) (timeout : Z) (r : AsyncRun)
         (result : CriticResult),
    runCritic parse timeout r = Some (Returned result) ->
    approved result = true ->
    timedOut result = Some false
    /\ (exists l exitCode, settled parse r = Some (l, exitCode) /\ wasAborted l = false)
    /\ exists msg parts part pre,
         printed parse (stdoutOf (asyncEvents r)) msg
         /\ isAssistant msg = true
         /\ content msg = Some parts
         /\ find isText parts = Some part
         /\ markerAt (textOf part) pre (lit "APPROVED").
Proof.
  intros parse timeout r result Hrun Happ.
  unfold runCritic, runCriticBody in Hrun.
  destruct (asyncTempFile r) as [u|e1];
    [|cbn in Hrun; injection Hrun as <-; discriminate Happ].
  destruct (asyncSpawn r) as [v|e2];
    [|cbn in Hrun; injection Hrun as <-; discriminate Happ].
  fold (settled parse r) in Hrun.
  destruct (settled parse r) as [[l exitCode]|] eqn:Hsettled; [|discriminate Hrun].
  pose proof (@settled_printed parse r l exitCode) as Hprinted.
  specialize (fun msg => Hprinted msg Hsettled).
  destruct (@settled_keeps parse r l exitCode Hsettled) as [Ha [Hc _]].
  injection Hrun as Hrun. unfold afterListeners in Hrun.
  destruct (wasTimedOut l) eqn:Hto.
  { cbn in Hrun. injection Hrun as <-. cbn in Happ. congruence. }
  destruct (wasAborted l) eqn:Hab.
  { cbn in Hrun. injection Hrun as <-. cbn in Happ. congruence. }
  match type of Hrun with
  | context [extractCritique (messages l) ?r0] =>
      assert (Hr0 : approved r0 = false /\ critique r0 = []);
      [ destruct (_ && _); cbn; split; assumption | ];
      assert (Ht0 : timedOut r0 = Some false);
      [ destruct (_ && _); reflexivity | ];
      remember r0 as res0 eqn:Eres0; clear Eres0
  end.
  destruct Hr0 as [Ha0 Hc0].
  unfold extractCritique in Hrun.
  assert (Hno : forall res, critique res = [] -> approved
            (applyVerdict (if negb (truthy (critique res)) && negb (hasError res)
                           then setCritique (lit "(No response from critic)")
                                  (setError (Some (lit "Critic returned empty response")) res)
                           else res)) = false).
  { intros res Hres. rewrite Hres. cbn [truthy negb andb].
    destruct (negb (hasError res)); unfold applyVerdict; cbn [approved setStatus setApproved];
      [reflexivity|]. rewrite Hres. reflexivity. }
  destruct (lastAssistant (rev (messages l))) as [msg|] eqn:Elast.
  2:{ cbn in Hrun. injection Hrun as <-. rewrite (Hno res0 Hc0) in Happ. discriminate. }
  destruct (content msg) as [parts|] eqn:Econtent.
  2:{ cbn in Hrun. injection Hrun as <-. cbn in Happ. congruence. }
  destruct (find isText parts) as [part|] eqn:Efind.
  2:{ cbn in Hrun. injection Hrun as <-. rewrite (Hno res0 Hc0) in Happ. discriminate. }
  cbn [tryCatch] in Hrun. injection Hrun as <-.
  destruct (lastAssistant_In _ Elast) as [Hin Hrole].
  apply in_rev in Hin.
  split; [|split].
  - destruct (_ && _); unfold applyVerdict; cbn; exact Ht0.
  - exists l, exitCode. split; [reflexivity | exact Hab].
  - exists msg, parts, part.
    destruct (textOf part) as [|c t] eqn:Etext.
    + exfalso. exact (eq_true_false_abs _ Happ (Hno (setCritique [] res0) eq_refl)).
    + cbn [setCritique critique truthy negb andb] in Happ.
      unfold applyVerdict in Happ.
      cbn [approved setStatus setApproved setCritique critique] in Happ.
      destruct (approved_has_marker _ Happ) as [pre Hpre].
      exists pre. repeat split; try assumption. apply Hprinted. exact Hin.
Qed.

Lemma async_approval_needs_marker_witness :
  exists result,
    runCritic approvingParse 5000 approvingRun = Some (Returned result)
    /\ approved result = true
    /\ timedOut result = Some false
    /\ (exists l exitCode,
          settled approvingParse approvingRun = Some (l, exitCode) /\ wasAborted l = false)
    /\ exists msg parts part pre,
         printed approvingParse (stdoutOf (asyncEvents approvingRun)) msg
         /\ isAssistant msg = true
         /\ content msg = Some parts
         /\ find isText parts = Some part
         /\ markerAt (textOf part) pre (lit "APPROVED").
Proof.
  eexists. split; [vm_compute; reflexivity|].
  split; [reflexivity|].
  apply (@async_approval_needs_marker approvingParse 5000 approvingRun _ eq_refl eq_refl).
Defined.

Section SyncApprovalFacts.

Variable parse : jsstring -> option JsonEvent.

(** One line of the output either leaves the critique alone or replaces it
    by the first text part of the assistant message the line holds. *)
Lemma syncLine_critique (r : CriticResult) (line : jsstring) :
  critique (syncLine parse r line) = critique r
  \/ exists msg parts part,
       parse line = Some (MessageEnd (Some msg))
       /\ isAssistant msg = true
       /\ content msg = Some parts
       /\ find isText parts = Some part
       /\ critique (syncLine parse r line) = textOf part.
Proof.
  unfold syncLine.
  destruct (parse line) as [[[msg|]|message| |]|] eqn:Eparse; try (left; reflexivity).
  destruct (isAssistant msg) eqn:Erole; [|left; reflexivity].
  match goal with
  | |- context [recordUsageAndModel msg ?r0] =>
      destruct (recordUsageAndModel_keeps msg r0) as [_ [Hc _]]; rewrite Hc
  end.
  destruct (content msg) as [parts|] eqn:Econtent; [|left; reflexivity].
  destruct (find isText parts) as [part|] eqn:Efind; [|left; reflexivity].
  destruct (truthy (textOf part)); [|left; reflexivity].
  right. exists msg, parts, part. repeat split; try assumption; reflexivity.
Qed.

Lemma syncLine_approved (r : CriticResult) (line : jsstring) :
  approved (syncLine parse r line) = approved r.
Proof.
  unfold syncLine.
  destruct (parse line) as [[[msg|]|message| |]|]; try reflexivity.
  destruct (isAssistant msg); [|reflexivity].
  match goal with
  | |- context [recordUsageAndModel msg ?r0] =>
      destruct (recordUsageAndModel_keeps msg r0) as [Ha _]; rewrite Ha
  end.
  destruct (content msg) as [parts|]; [|reflexivity].
  destruct (find isText parts) as [part|]; [|reflexivity].
  destruct (truthy (textOf part)); reflexivity.
Qed.

Lemma syncLines_critique (lines : list jsstring) (r : CriticResult) :
  critique (fold_left (syncLine parse) lines r) = critique r
  \/ exists line msg parts part,
       In line lines
       /\ parse line = Some (MessageEnd (Some msg))
       /\ isAssistant msg = true
       /\ content msg = Some parts
       /\ find isText parts = Some part
       /\ critique (fold_left (syncLine parse) lines r) = textOf part.
Proof.
  revert r. induction lines as [|line lines IH]; intros r; [left; reflexivity|].
  cbn [fold_left].
  destruct (IH (syncLine parse r line))
    as [H | [x [msg [parts [part [Hin [H1 [H2 [H3 [H4 H5]]]]]]]]]].
  - rewrite H.
    destruct (syncLine_critique r line) as [G | [msg [parts [part [G1 [G2 [G3 [G4 G5]]]]]]]].
    + left. exact G.
    + right. exists line, msg, parts, part.
      repeat split; try assumption. left. reflexivity.
  - right. exists x, msg, parts, part. repeat split; try assumption. right. exact Hin.
Qed.

End SyncApprovalFacts.

(** [runCriticSync], the runner the three handlers use, never approves on
    its own: when its outcome is approved, the child process was run to its
    end without a launch error or a SIGTERM, and one line of its output is
    the [message_end] record of an assistant message whose first text part
    holds a marker block with [APPROVED]. *)
Theorem sync_approval_needs_marker :
  forall (parse : jsstring -> option JsonEvent) (timeout : Z) (run : SyncRun)
         (result : CriticResult),
    runCriticSync parse timeout run = Returned result ->
    approved result = true ->
    exists spawnResult out line msg parts part pre,
      syncSpawn run = Returned spawnResult
      /\ spawnError spawnResult = None
      /\ signal spawnResult <> Some (lit "SIGTERM")
      /\ stdout spawnResult = Some out
      /\ In line (split 10%N out)
      /\ parse line = Some (MessageEnd (Some msg))
      /\ isAssistant msg = true
      /\ content msg = Some parts
      /\ find isText parts = Some part
      /\ markerAt (textOf part) pre (lit "APPROVED").
Proof.
  intros parse timeout run result Hrun Happ.
  unfold runCriticSync, runCriticSyncBody in Hrun.
  destruct (syncTempFile run) as [u|e1];
    [|cbn in Hrun; injection Hrun as <-; discriminate Happ].
  destruct (syncSpawn run) as [spawnResult|e2];
    [|cbn in Hrun; injection Hrun as <-; discriminate Happ].
  destruct (spawnError spawnResult) as [message|] eqn:Eerr;
    [cbn in Hrun; injection Hrun as <-; discriminate Happ|].
  destruct (eqbOpt (signal spawnResult) (lit "SIGTERM")) eqn:Esig;
    [cbn in Hrun; injection Hrun as <-; discriminate Happ|].
  cbn [tryCatch] in Hrun. injection Hrun as <-.
  unfold applyVerdict in Happ.
  cbn [approved setStatus setApproved setCritique setDurationMs critique] in Happ.
  match type of Happ with
  | context [fold_left (syncLine parse) ?lines emptyResult] =>
      destruct (syncLines_critique parse lines emptyResult)
        as [H | [line [msg [parts [part [Hin [H1 [H2 [H3 [H4 H5]]]]]]]]]]
  end.
  - rewrite H in Happ. discriminate Happ.
  - rewrite H5 in Happ. destruct (approved_has_marker _ Happ) as [pre Hpre].
    apply filter_In in Hin. destruct Hin as [Hin Htruthy].
    destruct (stdout spawnResult) as [out|] eqn:Eout.
    + exists spawnResult, out, line, msg, parts, part, pre.
      repeat split; try assumption; try reflexivity.
      intros C. apply eqbOpt_true in C. congruence.
    + exfalso. destruct Hin as [<- | []]. discriminate Htruthy.
Qed.

Lemma sync_approval_needs_marker_witness :
  exists result spawnResult out line msg parts part pre,
    runCriticSync approvingParse 5000
      (spawned None (Some 0%Z) (lit "{approved}" ++ nl)) = Returned result
    /\ approved result = true
    /\ syncSpawn (spawned None (Some 0%Z) (lit "{approved}" ++ nl)) = Returned spawnResult
    /\ spawnError spawnResult = None
    /\ signal spawnResult <> Some (lit "SIGTERM")
    /\ stdout spawnResult = Some out
    /\ In line (split 10%N out)
    /\ approvingParse line = Some (MessageEnd (Some msg))
    /\ isAssistant msg = true
    /\ content msg = Some parts
    /\ find isText parts = Some part
    /\ markerAt (textOf part) pre (lit "APPROVED").
Proof.
  destruct (@sync_approval_needs_marker approvingParse 5000
              (spawned None (Some 0%Z) (lit "{approved}" ++ nl)) _ eq_refl eq_refl)
    as [spawnResult [out [line [msg [parts [part [pre H]]]]]]].
  eexists _, spawnResult, out, line, msg, parts, part, pre.
  split; [reflexivity|]. split; [reflexivity|]. exact H.
Defined.


(** ** Image paths *)

Lemma firstn_matched (A : Type) (m rest : list A) :
  firstn (List.length (m ++ rest) - List.length rest) (m ++ rest) = m.
Proof.
  rewrite length_app.
  replace (List.length m + List.length rest - List.length rest)%nat with (List.length m + 0)%nat
    by lia.
  rewrite firstn_app_2. cbn [firstn]. apply app_nil_r.
Qed.

(** What [pathAt] matches. *)
Lemma pathAt_sound (dir s rest : jsstring) :
  pathAt dir s = Some rest ->
  exists d mid ext,
    s = (d ++ mid ++ ext) ++ rest
    /\ ciEqual dir d /\ mid <> [] /\ forallb pathChar mid = true
    /\ ciEqual (lit ".png") ext.
Proof.
  unfold pathAt. intros H.
  destruct (litPrefix dir s) as [[d [|c s2]]|] eqn:Ed; try discriminate.
  destruct (pathChar c) eqn:Ec; [|discriminate].
  apply litPrefix_sound in Ed. destruct Ed as [-> Hd].
  apply star_sound in H. destruct H as [a [b [-> [Ha Hk]]]].
  destruct (litPrefix (lit ".png") b) as [[ext rest']|] eqn:Eext; [|discriminate].
  cbn [option_map snd] in Hk. injection Hk as ->.
  apply litPrefix_sound in Eext. destruct Eext as [-> Hext].
  exists d, (c :: a), ext. repeat split; try assumption.
  - repeat rewrite <- app_assoc. reflexivity.
  - discriminate.
  - cbn [forallb]. rewrite Ec, Ha. reflexivity.
Qed.

(** Every match of the global search is a part of the text and has the
    shape of the pattern. *)
Lemma matchAll_sound (dir : jsstring) (s : jsstring) :
  forall (skip : nat) (p : jsstring),
    In p (matchAll dir skip s) ->
    exists a b d mid ext,
      s = a ++ p ++ b /\ p = d ++ mid ++ ext
      /\ ciEqual dir d /\ mid <> [] /\ forallb pathChar mid = true
      /\ ciEqual (lit ".png") ext.
Proof.
  induction s as [|c s IH]; intros skip p H; [destruct H|].
  assert (Hlater : forall k, In p (matchAll dir k s) ->
            exists a b d mid ext,
              c :: s = a ++ p ++ b /\ p = d ++ mid ++ ext
              /\ ciEqual dir d /\ mid <> [] /\ forallb pathChar mid = true
              /\ ciEqual (lit ".png") ext).
  { intros k Hk. destruct (IH k p Hk) as [a [b [d [mid [ext [-> Hrest]]]]]].
    exists (c :: a), b, d, mid, ext. split; [reflexivity | exact Hrest]. }
  cbn [matchAll] in H. destruct skip as [|k]; [|exact (Hlater k H)].
  destruct (pathAt dir (c :: s)) as [rest|] eqn:Eat; [|exact (Hlater 0%nat H)].
  cbn [In] in H. destruct H as [H | H]; [|exact (Hlater _ H)].
  destruct (pathAt_sound _ _ Eat) as [d [mid [ext [Hs [Hd [Hmid [Hcls Hext]]]]]]].
  rewrite Hs in H. rewrite firstn_matched in H. subst p.
  exists [], rest, d, mid, ext. repeat split; assumption.
Qed.

Lemma dedupe_In (paths : list jsstring) (p : jsstring) : In p (dedupe paths) -> In p paths.
Proof.
  induction paths as [|q paths IH]; [intros []|].
  cbn [dedupe]. intros [<- | H]; [left; reflexivity|].
  apply filter_In in H. right. apply IH. apply H.
Qed.

Lemma dedupe_NoDup (paths : list jsstring) : NoDup (dedupe paths).
Proof.
  induction paths as [|q paths IH]; cbn [dedupe]; constructor.
  - intros H. apply filter_In in H. destruct H as [_ H].
    rewrite jseqb_refl in H. discriminate H.
  - apply NoDup_filter. exact IH.
Qed.

(** A path that occurs among [paths] is kept once. *)
Lemma dedupe_complete (paths : list jsstring) (p : jsstring) :
  In p paths -> In p (dedupe paths).
Proof.
  induction paths as [|q paths IH]; [intros []|].
  cbn [dedupe]. intros [-> | H]; [left; reflexivity|].
  destruct (JS.eqb p q) eqn:E.
  - apply jseqb_eq in E. left. symmetry. exact E.
  - right. apply filter_In. split; [apply IH; exact H|]. rewrite E. reflexivity.
Qed.

(** [extractImagePaths] returns existing files only, none of them twice;
    each one occurs in the text and reads [/tmp/] or [/var/], then at least
    one code unit that is no white space, quote or angle bracket, then
    [.png], in any letter case. *)
Theorem image_paths_are_existing_png_files :
  forall (isFile : jsstring -> bool) (text p : jsstring),
    In p (extractImagePaths isFile text) ->
    NoDup (extractImagePaths isFile text)
    /\ isFile p = true
    /\ isPngPath p
    /\ exists a b, text = a ++ p ++ b.
Proof.
  intros isFile text p H. split.
  - unfold extractImagePaths. apply NoDup_filter. apply dedupe_NoDup.
  - unfold extractImagePaths in H. apply filter_In in H. destruct H as [H Hfile].
    split; [exact Hfile|].
    apply dedupe_In in H. apply in_app_or in H.
    destruct H as [H | H];
      destruct (matchAll_sound _ _ _ _ H) as [a [b [d [mid [ext [Ht [Hp [Hd [Hm [Hc He]]]]]]]]]].
    + split; [|exists a, b; exact Ht].
      exists d, mid, ext. repeat split; try assumption. left. exact Hd.
    + split; [|exists a, b; exact Ht].
      exists d, mid, ext. repeat split; try assumption. right. exact Hd.
Qed.

Lemma image_paths_are_existing_png_files_witness :
  In (lit "/tmp/shot.PNG")
    (extractImagePaths (fun _ => true)
       (lit "saved /tmp/shot.PNG. and /var/x/plot.png again /tmp/shot.PNG"))
  /\ NoDup (extractImagePaths (fun _ => true)
              (lit "saved /tmp/shot.PNG. and /var/x/plot.png again /tmp/shot.PNG"))
  /\ isPngPath (lit "/tmp/shot.PNG")
  /\ exists a b,
       lit "saved /tmp/shot.PNG. and /var/x/plot.png again /tmp/shot.PNG"
       = a ++ lit "/tmp/shot.PNG" ++ b.
Proof.
  assert (H : In (lit "/tmp/shot.PNG")
                (extractImagePaths (fun _ => true)
                   (lit "saved /tmp/shot.PNG. and /var/x/plot.png again /tmp/shot.PNG"))).
  { vm_compute. left. reflexivity. }
  split; [exact H|].
  destruct (@image_paths_are_existing_png_files (fun _ => true) _ _ H) as [H1 [_ [H2 H3]]].
  repeat split; assumption.
Defined.
